(** * Flask-Breadcrumb: a shallow embedding of [flask_breadcrumb/__init__.py]

    The first part of the file is the model, in the order of the Python
    module:

    - [PyStr]: the [str] methods the module calls ([rstrip], [split],
      [join], slicing, [title], ...);
    - [Re]: the fragment of [re.sub] that [_get_routes] uses;
    - insertion-ordered dictionaries;
    - the classes [BreadcrumbItem] and [Breadcrumb] with their methods, the
      module-level functions, and the notions the theorems are stated with;
    - [Raising]: [_build_breadcrumb_tree] once more, with label producers
      whose call can raise.

    The second part holds the proofs: facts about the string primitives
    and the two regular expressions, the ancestor walk, the sibling
    groups and the assembly of the tree, then one theorem per claim, and
    last further properties of the code.

    Python [str] values are modelled as [string] (sequences of 8-bit
    characters, compared by code point) and Python [int] as [Z].  A label
    producer is a function from [unit]; the order of a route is an [int]
    or [None].

    In the first embedding the call of a label producer returns a string.
    [_build_breadcrumb_tree_sim] and [build_tree_refines] relate it to
    [Raising]: a tree that is returned when producers can raise is the tree
    of the first embedding, and the two agree when the producers that are
    called return. *)

From Stdlib Require Import String Ascii List ZArith Bool Arith Lia.
From Stdlib Require Import Sorted Permutation.
Import ListNotations.

Set Warnings "-register-all,-notation-for-abbreviation".

Local Open Scope string_scope.
Local Open Scope list_scope.

Arguments String.eqb : simpl never.
Arguments String.prefix : simpl never.

(* ================================================================= *)
(** ** Python string primitives *)

Module PyStr.

(** [s.rstrip(c)] for a one-character set [c]. *)
Fixpoint rstrip (c : ascii) (s : string) : string :=
  match s with
  | EmptyString => EmptyString
  | String a s' =>
      match rstrip c s' with
      | EmptyString => if Ascii.eqb a c then EmptyString else String a EmptyString
      | r => String a r
      end
  end.

(** [s.split(c)] for a one-character separator: never the empty list. *)
Fixpoint split (c : ascii) (s : string) : list string :=
  match s with
  | EmptyString => [EmptyString]
  | String a s' =>
      if Ascii.eqb a c then EmptyString :: split c s'
      else match split c s' with
           | [] => [String a EmptyString]
           | p :: ps => String a p :: ps
           end
  end.

(** [sep.join(parts)]. *)
Definition join (sep : string) (parts : list string) : string :=
  String.concat sep parts.

(** [s.startswith(p)]. *)
Definition startswith (s p : string) : bool := String.prefix p s.

(** [s.endswith(c)] for a one-character suffix. *)
Fixpoint endswith (s : string) (c : ascii) : bool :=
  match s with
  | EmptyString => false
  | String a EmptyString => Ascii.eqb a c
  | String _ s' => endswith s' c
  end.

(** [s[:-1]]. *)
Fixpoint drop_last (s : string) : string :=
  match s with
  | EmptyString => EmptyString
  | String _ EmptyString => EmptyString
  | String a s' => String a (drop_last s')
  end.

(** [s[:n]]: slicing clamps at the end of the string. *)
Definition slice_to (n : nat) (s : string) : string := String.substring 0 n s.

(** [s.replace(a, b)] for one-character [a] and [b]. *)
Fixpoint replace (a b : ascii) (s : string) : string :=
  match s with
  | EmptyString => EmptyString
  | String c s' => String (if Ascii.eqb c a then b else c) (replace a b s')
  end.

Definition is_lower (c : ascii) : bool :=
  let n := nat_of_ascii c in (97 <=? n)%nat && (n <=? 122)%nat.

Definition is_upper (c : ascii) : bool :=
  let n := nat_of_ascii c in (65 <=? n)%nat && (n <=? 90)%nat.

Definition to_upper (c : ascii) : ascii :=
  if is_lower c then ascii_of_nat (nat_of_ascii c - 32) else c.

Definition to_lower (c : ascii) : ascii :=
  if is_upper c then ascii_of_nat (nat_of_ascii c + 32) else c.

(** [s.title()] on ASCII strings: a cased character is upper-cased when
    the previous character is uncased and lower-cased otherwise.  Python
    cases the letters beyond ASCII as well; what is proved of the casing
    is stated for ASCII strings ([is_ascii]). *)
Fixpoint title_from (previous_is_cased : bool) (s : string) : string :=
  match s with
  | EmptyString => EmptyString
  | String c s' =>
      if is_lower c then
        String (if previous_is_cased then c else to_upper c) (title_from true s')
      else if is_upper c then
        String (if previous_is_cased then to_lower c else c) (title_from true s')
      else String c (title_from false s')
  end.

Definition title (s : string) : string := title_from false s.

End PyStr.

(* ================================================================= *)
(** ** The fragment of [re.sub] used by the route catalog

    Patterns are sequences of pieces [c], [[^c]], [c+] and [[^c]+];
    matching is leftmost, greedy and backtracking, as in Python's [re]. No
    pattern of this file matches the empty string. *)

Module Re.

Inductive atom : Type :=
| Chr (c : ascii)        (* the literal character c *)
| NotChr (c : ascii).    (* the class [^c] *)

Inductive piece : Type :=
| One (a : atom)         (* a  *)
| Plus (a : atom).       (* a+ *)

Definition regex : Type := list piece.

Definition accepts (a : atom) (c : ascii) : bool :=
  match a with
  | Chr x => Ascii.eqb c x
  | NotChr x => negb (Ascii.eqb c x)
  end.

(** The repetitions of [a+] after the first: as many as possible, giving
    one back at a time while the rest of the pattern, [k], fails. *)
Fixpoint more (a : atom) (k : string -> option string) (s : string)
    : option string :=
  match s with
  | String c s' =>
      if accepts a c then
        match more a k s' with
        | Some r => Some r
        | None => k s
        end
      else k s
  | EmptyString => k s
  end.

(** [match_here re s] is the suffix left after the match of [re] that the
    backtracking matcher finds at the start of [s], if there is one. *)
Fixpoint match_here (re : regex) (s : string) : option string :=
  match re with
  | [] => Some s
  | One a :: re' =>
      match s with
      | String c s' => if accepts a c then match_here re' s' else None
      | EmptyString => None
      end
  | Plus a :: re' =>
      match s with
      | String c s' => if accepts a c then more a (match_here re') s' else None
      | EmptyString => None
      end
  end.

(** [re.search(re, s) is not None]. *)
Fixpoint search (re : regex) (s : string) : bool :=
  match match_here re s with
  | Some _ => true
  | None =>
      match s with
      | String _ s' => search re s'
      | EmptyString => false
      end
  end.

(** Number of characters the match at the start of [s] consumes. *)
Definition match_len (re : regex) (s : string) : option nat :=
  match match_here re s with
  | Some r => Some (String.length s - String.length r)%nat
  | None => None
  end.

(** The scan of [re.sub]: [skip] counts the characters of the current
    match that are still to be passed over. *)
Fixpoint sub_scan (re : regex) (repl : string) (s : string) (skip : nat) : string :=
  match s with
  | EmptyString =>
      match skip, match_len re EmptyString with
      | O, Some _ => repl
      | _, _ => EmptyString
      end
  | String c s' =>
      match skip with
      | S k => sub_scan re repl s' k
      | O =>
          match match_len re s with
          | Some (S k) => (repl ++ sub_scan re repl s' k)%string
          | Some O => (repl ++ String c (sub_scan re repl s' 0))%string
          | None => String c (sub_scan re repl s' 0)
          end
      end
  end.

(** [re.sub(re, repl, s)]. *)
Definition sub (re : regex) (repl : string) (s : string) : string :=
  sub_scan re repl s 0.

End Re.

(* ================================================================= *)
(** ** Insertion-ordered dictionaries *)

Section Dict.
Context {K V : Type}.
Variable keq : K -> K -> bool.

(** A Python [dict]: the pairs in insertion order, no key twice. *)
Definition dict : Type := list (K * V).

(** [d.get(k)] *)
Fixpoint dict_get (d : dict) (k : K) : option V :=
  match d with
  | [] => None
  | (k', v) :: d' => if keq k' k then Some v else dict_get d' k
  end.

(** [k in d] *)
Definition dict_mem (d : dict) (k : K) : bool :=
  match dict_get d k with Some _ => true | None => false end.

(** [d.get(k, default)] *)
Definition dict_get_default (d : dict) (k : K) (default : V) : V :=
  match dict_get d k with Some v => v | None => default end.

(** [d[k] = v]: an existing key keeps its position, a new one goes last. *)
Fixpoint dict_set (d : dict) (k : K) (v : V) : dict :=
  match d with
  | [] => [(k, v)]
  | (k', v') :: d' =>
      if keq k' k then (k', v) :: d' else (k', v') :: dict_set d' k v
  end.

(** [d.keys()] *)
Definition dict_keys (d : dict) : list K := map fst d.

End Dict.

Arguments dict : clear implicits.

(** Dictionaries with [str] keys. *)
Notation sget := (dict_get String.eqb).
Notation smem := (dict_mem String.eqb).
Notation sget_default := (dict_get_default String.eqb).
Notation sset := (dict_set String.eqb).

(** Equality of the keys [(url, current_path)] of [is_child_map]. *)
Definition pair_eqb (a b : string * string) : bool :=
  (fst a =? fst b) && (snd a =? snd b).

(* ================================================================= *)
(** ** Data model *)

(** A breadcrumb text is a string or a zero-argument callable.  Here the
    call of a producer returns; the module [Raising] below has producers
    whose call can raise. *)
Inductive label : Type :=
| Static (s : string)
| Callable (f : unit -> string).

(** [text() if callable(text) else text] *)
Definition resolve (text : label) : string :=
  match text with
  | Static s => s
  | Callable f => f tt
  end.

(** The dictionaries the tree is made of: keys ["text"], ["url"],
    ["order"], ["is_current_path"] and ["children"]. *)
Inductive node : Type :=
  Node { text : string;
         url : string;
         order : Z;
         is_current_path : bool;
         children : list node }.

(** [n["children"] = cs] *)
Definition set_children (n : node) (cs : list node) : node :=
  Node (text n) (url n) (order n) (is_current_path n) cs.

(** [class BreadcrumbItem] *)
Inductive BreadcrumbItem : Type :=
  Item { item_text : label;
         item_url : string;
         item_order : Z;
         item_is_current_path : bool;
         item_children : list BreadcrumbItem }.

(** [BreadcrumbItem.__init__]: a missing order is 0, no children. *)
Definition BreadcrumbItem_init (text : label) (url : string)
    (order : option Z) (is_current_path : bool) : BreadcrumbItem :=
  Item text url (match order with Some o => o | None => 0%Z end)
       is_current_path [].

(** The value stored per endpoint by the decorator. *)
Record metadata_entry : Type :=
  { md_text : label; md_order : option Z; md_max_depth : option Z }.

(** A tuple [(url, endpoint, methods)] of the route catalog. *)
Definition route : Type := (string * string * list string)%type.

(** [class Breadcrumb]: [_routes_cache] is [None] while the attribute is
    not set. *)
Record Breadcrumb : Type :=
  { breadcrumb_metadata : dict string metadata_entry;
    _routes_cache : option (list route) }.

(** A rule of the routing table: [str(rule)], [rule.endpoint],
    [rule.methods]. *)
Record Rule : Type :=
  { rule : string; endpoint : string; methods : list string }.

(** The part of the Flask application the extension reads. *)
Record Flask : Type :=
  { url_map : list Rule;
    extensions : option (dict string Breadcrumb) }.

(** What a call does: return a value, raise, or run for ever. *)
Inductive outcome (A : Type) : Type :=
| Returns (a : A)
| Raises (e : string)
| Diverges.

Arguments Returns {A} a.
Arguments Raises {A} e.
Arguments Diverges {A}.

(* ================================================================= *)
(** ** Ordering of siblings *)

(** [(a.order, a.url) <= (b.order, b.url)] on Python tuples. *)
Definition key_le (a b : Z * string) : bool :=
  (fst a <? fst b)%Z || ((fst a =? fst b)%Z && String.leb (snd a) (snd b)).

Section Sort.
Context {A : Type}.
Variable key : A -> Z * string.

(** [x] goes before the first element whose key is not smaller. *)
Fixpoint insert_sorted (x : A) (l : list A) : list A :=
  match l with
  | [] => [x]
  | y :: l' =>
      if key_le (key x) (key y) then x :: y :: l'
      else y :: insert_sorted x l'
  end.

(** [l.sort(key=key)]: a stable sort. *)
Fixpoint sort_by (l : list A) : list A :=
  match l with
  | [] => []
  | x :: l' => insert_sorted x (sort_by l')
  end.

End Sort.

(** [lambda x: (x["order"], x["url"])] and [lambda x: (x.order, x.url)] *)
Definition node_key (n : node) : Z * string := (order n, url n).

Definition item_key (i : BreadcrumbItem) : Z * string :=
  (item_order i, item_url i).

(* ================================================================= *)
(** ** [BreadcrumbItem] methods *)

(** [BreadcrumbItem.to_dict] *)
Fixpoint to_dict (i : BreadcrumbItem) : node :=
  Node (resolve (item_text i)) (item_url i) (item_order i)
       (item_is_current_path i) (map to_dict (item_children i)).

(** [BreadcrumbItem.add_child] *)
Definition add_child (self child : BreadcrumbItem) : BreadcrumbItem :=
  if existsb (fun existing_child => item_url existing_child =? item_url child)
             (item_children self)
  then self
  else Item (item_text self) (item_url self) (item_order self)
            (item_is_current_path self)
            (sort_by item_key (item_children self ++ [child])).

(* ================================================================= *)
(** ** [Breadcrumb] helpers *)

(** The path separator. *)
Definition slash : ascii := "/"%char.

(** [Breadcrumb._get_parent_url] *)
Definition _get_parent_url (url : string) : string :=
  let url := PyStr.rstrip slash url in
  if url =? "" then "/"
  else
    let parts := PyStr.split slash url in
    if (List.length parts <=? 2)%nat then "/"
    else PyStr.join "/" (removelast parts).

(** [Breadcrumb._is_child_of].  The index [child_url[parent_len]] is only
    evaluated when the length test before it succeeded. *)
Definition _is_child_of (child_url parent_url : string) : bool :=
  if parent_url =? "/" then negb (child_url =? "/")
  else
    let parent_len := String.length parent_url in
    (parent_len + 1 <? String.length child_url)%nat
    && (PyStr.slice_to parent_len child_url =? parent_url)
    && match String.get parent_len child_url with
       | Some c => Ascii.eqb c slash
       | None => false
       end.

(** [Breadcrumb._generate_default_text] *)
Definition _generate_default_text (url : string) : string :=
  let url := PyStr.rstrip slash url in
  if url =? "" then "Home"
  else
    let parts := PyStr.split slash url in
    let last_part := List.last parts "" in
    let last_part :=
      PyStr.title (PyStr.replace "_"%char " "%char
                     (PyStr.replace "-"%char " "%char last_part)) in
    if last_part =? "" then "Home" else last_part.

(** The two patterns of [_get_routes]: [<[^>]+>] and [//+]. *)
Definition variable_part : Re.regex :=
  [Re.One (Re.Chr "<"%char); Re.Plus (Re.NotChr ">"%char);
   Re.One (Re.Chr ">"%char)].

Definition duplicate_slashes : Re.regex :=
  [Re.One (Re.Chr slash); Re.Plus (Re.Chr slash)].

(** The body of the loop of [_get_routes]: from [str(rule)] to the
    catalog URL. *)
Definition normalize_url (url : string) : string :=
  let url := Re.sub variable_part "" url in
  let url := Re.sub duplicate_slashes "/" url in
  if negb (url =? "/") && PyStr.endswith url slash then PyStr.drop_last url
  else url.

(** [Breadcrumb._get_routes]: the catalog and the object with its cache. *)
Definition _get_routes (self : Breadcrumb) (current_app : Flask)
    : list route * Breadcrumb :=
  match _routes_cache self with
  | Some routes => (routes, self)
  | None =>
      let routes :=
        map (fun r => (normalize_url (rule r), endpoint r, methods r))
            (url_map current_app) in
      (routes, {| breadcrumb_metadata := breadcrumb_metadata self;
                  _routes_cache := Some routes |})
  end.

(* ================================================================= *)
(** ** [Breadcrumb._build_breadcrumb_tree] *)

(** One iteration of the loop that creates a breadcrumb item per route;
    the state is [(breadcrumb_items, is_current_path_map)]. *)
Definition materialize_step (metadata : dict string metadata_entry)
    (current_path : string)
    (st : dict string BreadcrumbItem * dict string bool) (r : route)
    : dict string BreadcrumbItem * dict string bool :=
  let '(url, endpoint, methods) := r in
  let '(breadcrumb_items, is_current_path_map) := st in
  if negb (existsb (String.eqb "GET") methods)
     || PyStr.startswith endpoint "static"
  then st
  else
    let metadata := sget metadata endpoint in
    let text := match metadata with
                | Some m => md_text m
                | None => Static (_generate_default_text url)
                end in
    let order := match metadata with
                 | Some m => md_order m
                 | None => Some 0%Z
                 end in
    let is_current := url =? current_path in
    (sset breadcrumb_items url (BreadcrumbItem_init text url order is_current),
     sset is_current_path_map url is_current).

(** "First, create breadcrumb items for all routes". *)
Definition materialize (routes : list route)
    (metadata : dict string metadata_entry) (current_path : string)
    : dict string BreadcrumbItem * dict string bool :=
  fold_left (materialize_step metadata current_path) routes ([], []).

(** "Make sure we have a root item". *)
Definition ensure_root (current_path : string)
    (st : dict string BreadcrumbItem * dict string bool)
    : dict string BreadcrumbItem * dict string bool :=
  let '(breadcrumb_items, is_current_path_map) := st in
  if smem breadcrumb_items "/" then st
  else
    let is_current := current_path =? "/" in
    (sset breadcrumb_items "/"
          (BreadcrumbItem_init (Static "Home") "/" (Some 0%Z) is_current),
     sset is_current_path_map "/" is_current).

(** "Precompute parent URLs for all paths". *)
Definition parent_urls (breadcrumb_items : dict string BreadcrumbItem)
    : dict string string :=
  fold_left (fun m url => sset m url (_get_parent_url url))
            (dict_keys breadcrumb_items) [].

(** The [while path != "/"] loop; [None] when the fuel runs out before
    the loop exits. *)
Fixpoint walk (fuel : nat) (breadcrumb_items : dict string BreadcrumbItem)
    (parent_url_map : dict string string) (path : string)
    (path_to_root : list string) : option (list string) :=
  match fuel with
  | O => None
  | S fuel' =>
      if path =? "/" then Some path_to_root
      else
        let path_to_root :=
          if smem breadcrumb_items path then path_to_root ++ [path]
          else path_to_root in
        let parent_path :=
          sget_default parent_url_map path (_get_parent_url path) in
        if parent_path =? path then Some path_to_root
        else walk fuel' breadcrumb_items parent_url_map parent_path path_to_root
  end.

(** "Precompute child relationships". *)
Definition child_relationships (breadcrumb_items : dict string BreadcrumbItem)
    (current_path : string) : dict (string * string) bool :=
  fold_left
    (fun m url =>
       if negb (url =? "/") && negb (url =? current_path)
       then dict_set pair_eqb m (url, current_path)
                     (_is_child_of url current_path)
       else m)
    (dict_keys breadcrumb_items) [].

(** One iteration of the grouping loop over [breadcrumb_items.items()]. *)
Definition group_step (parent_url_map : dict string string)
    (is_child_map : dict (string * string) bool)
    (is_current_path_map : dict string bool) (current_path : string)
    (parent_to_children : dict string (list node))
    (entry : string * BreadcrumbItem) : dict string (list node) :=
  let '(url, item) := entry in
  if url =? "/" then parent_to_children
  else
    let parent_url := sget_default parent_url_map url (_get_parent_url url) in
    if dict_get_default pair_eqb is_child_map (url, current_path) false
    then parent_to_children
    else
      let children := sget_default parent_to_children parent_url [] in
      sset parent_to_children parent_url
           (children ++
            [Node (resolve (item_text item)) url (item_order item)
                  (sget_default is_current_path_map url false) []]).

(** "Sort children by order". *)
Definition sort_groups (parent_to_children : dict string (list node))
    : dict string (list node) :=
  map (fun kv => (fst kv, sort_by node_key (snd kv))) parent_to_children.

(** The first element of [cs] whose url is [path], with what precedes and
    follows it. *)
Fixpoint find_child (path : string) (cs : list node)
    : option (list node * node * list node) :=
  match cs with
  | [] => None
  | c :: cs' =>
      if url c =? path then Some ([], c, cs')
      else match find_child path cs' with
           | Some (before, child, after) => Some (c :: before, child, after)
           | None => None
           end
  end.

(** The traversal "from root to the current page".  The Python loop moves
    the reference [current_level] down the tree and overwrites
    [child["children"]] in place; every dictionary and every list of
    [parent_to_children] is referenced from one place of [result] only
    (a list is attached to the one dictionary whose url is its key, and no
    url occurs twice, see [build_tree_unique]), so the in-place update is
    the functional update of that one place. *)
Fixpoint assemble (parent_to_children : dict string (list node))
    (current_path : string) (paths : list string) (current_level : node)
    : node :=
  match paths with
  | [] => current_level
  | path :: paths' =>
      match find_child path (children current_level) with
      | Some (before, child, after) =>
          let child :=
            match sget parent_to_children path with
            | Some cs =>
                if negb (path =? current_path) then set_children child cs
                else child
            | None => child
            end in
          set_children current_level
            (before ++ assemble parent_to_children current_path paths' child
                    :: after)
      | None => assemble parent_to_children current_path paths' current_level
      end
  end.

(** The body of [_build_breadcrumb_tree] once [routes] is known.
    [Returns None] is the empty dictionary; a failing [d[k]] is
    [Raises "KeyError"]; the [while] loop is run with
    [len(current_path) + 2] units of fuel and the call [Diverges] when they
    do not suffice. *)
Definition build_tree (routes : list route)
    (metadata : dict string metadata_entry) (current_path : string)
    : outcome (option node) :=
  match fst (materialize routes metadata current_path) with
  | [] => Returns None
  | _ :: _ =>
    let st := ensure_root current_path
                (materialize routes metadata current_path) in
    let breadcrumb_items := fst st in
    let is_current_path_map := snd st in
    if current_path =? "/" then
      match sget breadcrumb_items "/" with
      | None => Raises "KeyError"
      | Some root_item =>
          Returns (Some (Node (resolve (item_text root_item)) "/"
                              (item_order root_item) true []))
      end
    else
      let parent_url_map := parent_urls breadcrumb_items in
      match walk (String.length current_path + 2) breadcrumb_items
                 parent_url_map current_path [] with
      | None => Diverges
      | Some path_to_root =>
        let path_to_root :=
          if smem breadcrumb_items "/" then path_to_root ++ ["/"]
          else path_to_root in
        match path_to_root with
        | [] =>
            match sget breadcrumb_items current_path with
            | Some item =>
                Returns (Some (Node (resolve (item_text item)) (item_url item)
                                    (item_order item) true []))
            | None => Returns None
            end
        | _ :: _ =>
            let is_child_map :=
              child_relationships breadcrumb_items current_path in
            let parent_to_children :=
              sort_groups
                (fold_left (group_step parent_url_map is_child_map
                                       is_current_path_map current_path)
                           breadcrumb_items []) in
            match sget breadcrumb_items "/" with
            | None => Raises "KeyError"
            | Some root_item =>
                let result :=
                  Node (resolve (item_text root_item)) "/"
                       (item_order root_item)
                       (sget_default is_current_path_map "/" false)
                       (sget_default parent_to_children "/" []) in
                Returns (Some (assemble parent_to_children current_path
                                        (tl (rev path_to_root)) result))
            end
        end
      end
  end.

(** [Breadcrumb._build_breadcrumb_tree]: the result, and the object, whose
    cache [_get_routes] may have set. *)
Definition _build_breadcrumb_tree (self : Breadcrumb) (current_app : Flask)
    (current_path : string) : outcome (option node) * Breadcrumb :=
  let '(routes, self) := _get_routes self current_app in
  (build_tree routes (breadcrumb_metadata self) current_path, self).

(** The current path [get_breadcrumb_tree] computes from [request.path]. *)
Definition request_current_path (request_path : string) : string :=
  let current_path := PyStr.rstrip slash request_path in
  if current_path =? "" then "/" else current_path.

(** [Breadcrumb.get_breadcrumb_tree]; [current_app] is [None] outside an
    application context and [request_path] is [request.path]. *)
Definition get_breadcrumb_tree (self : Breadcrumb) (current_app : option Flask)
    (request_path : string) : outcome (option node) * Breadcrumb :=
  match current_app with
  | None => (Returns None, self)
  | Some app =>
      let current_path := request_current_path request_path in
      _build_breadcrumb_tree self app current_path
  end.

(* ================================================================= *)
(** ** The decorators *)

(** A view function: its [__name__] and what a call with the arguments
    [(args, kwargs)], of type [A], produces (a value or an exception), of
    type [R]. *)
Record view_function (A R : Type) : Type :=
  { __name__ : string; call : A -> R }.

Arguments __name__ {A R} _.
Arguments call {A R} _ _.

(** [decorated_function], with the attributes [functools.wraps] copies. *)
Definition decorated_function {A R : Type} (f : view_function A R)
    : view_function A R :=
  {| __name__ := __name__ f; call := fun args => call f args |}.

(** [Breadcrumb.__call__(text, order, max_depth)(f)]: the object with the
    metadata stored, and the decorated function. *)
Definition Breadcrumb_call {A R : Type} (self : Breadcrumb) (text : label)
    (order max_depth : option Z) (f : view_function A R)
    : Breadcrumb * view_function A R :=
  let endpoint := __name__ f in
  ({| breadcrumb_metadata :=
        sset (breadcrumb_metadata self) endpoint
             {| md_text := text; md_order := order;
                md_max_depth := max_depth |};
      _routes_cache := _routes_cache self |},
   decorated_function f).

(** The module-level [breadcrumb(text, order, max_depth)(f)]: the
    application, whose extension may have stored metadata, and the
    decorated function. *)
Definition breadcrumb {A R : Type} (current_app : Flask) (text : label)
    (order max_depth : option Z) (f : view_function A R)
    : Flask * view_function A R :=
  match extensions current_app with
  | None => (current_app, decorated_function f)
  | Some exts =>
      match sget exts "breadcrumb" with
      | None => (current_app, decorated_function f)
      | Some extension =>
          let '(extension, g) :=
            Breadcrumb_call extension text order max_depth f in
          ({| url_map := url_map current_app;
              extensions := Some (sset exts "breadcrumb" extension) |}, g)
      end
  end.

(** The module-level [breadcrumb_tree()]: the tree, and the application,
    whose extension may have set its cache. *)
Definition breadcrumb_tree (current_app : Flask) (request_path : string)
    : outcome (option node) * Flask :=
  match extensions current_app with
  | None => (Returns None, current_app)
  | Some exts =>
      match sget exts "breadcrumb" with
      | None => (Returns None, current_app)
      | Some extension =>
          let '(tree, extension) :=
            get_breadcrumb_tree extension (Some current_app) request_path in
          (tree,
           {| url_map := url_map current_app;
              extensions := Some (sset exts "breadcrumb" extension) |})
      end
  end.

(* ================================================================= *)
(** ** Label producers that can raise

    In the definitions above a label producer is a function that returns
    a string.  In Python the call [item.text()] can raise, and nothing in
    the module catches the exception.  [Raising] embeds
    [_build_breadcrumb_tree] once more, from the same source lines, with
    producers whose call returns, raises or runs for ever; the calls are
    made where and in the order the source makes them. *)

(** Sequencing of calls that can raise. *)
Definition bind {A B : Type} (m : outcome A) (k : A -> outcome B)
    : outcome B :=
  match m with
  | Returns a => k a
  | Raises e => Raises e
  | Diverges => Diverges
  end.

Notation "x <- m ;; k" := (bind m (fun x => k))
  (at level 61, m at next level, right associativity).

(** A [for] loop whose body can raise: the first exception ends it. *)
Fixpoint for_each {S A : Type} (body : S -> A -> outcome S) (l : list A)
    (s : S) : outcome S :=
  match l with
  | [] => Returns s
  | x :: l' => s' <- body s x ;; for_each body l' s'
  end.

Module Raising.

(** A breadcrumb text is a string or a zero-argument callable. *)
Inductive label : Type :=
| Static (s : string)
| Callable (f : unit -> outcome string).

(** [text() if callable(text) else text] *)
Definition resolve (text : label) : outcome string :=
  match text with
  | Static s => Returns s
  | Callable f => f tt
  end.

(** [class BreadcrumbItem] *)
Inductive BreadcrumbItem : Type :=
  Item { item_text : label;
         item_url : string;
         item_order : Z;
         item_is_current_path : bool;
         item_children : list BreadcrumbItem }.

(** [BreadcrumbItem.__init__] *)
Definition BreadcrumbItem_init (text : label) (url : string)
    (order : option Z) (is_current_path : bool) : BreadcrumbItem :=
  Item text url (match order with Some o => o | None => 0%Z end)
       is_current_path [].

(** The value stored per endpoint by the decorator. *)
Record metadata_entry : Type :=
  { md_text : label; md_order : option Z; md_max_depth : option Z }.

(** [class Breadcrumb] *)
Record Breadcrumb : Type :=
  { breadcrumb_metadata : dict string metadata_entry;
    _routes_cache : option (list route) }.

(** [Breadcrumb._get_routes] *)
Definition _get_routes (self : Breadcrumb) (current_app : Flask)
    : list route * Breadcrumb :=
  match _routes_cache self with
  | Some routes => (routes, self)
  | None =>
      let routes :=
        map (fun r => (normalize_url (rule r), endpoint r, methods r))
            (url_map current_app) in
      (routes, {| breadcrumb_metadata := breadcrumb_metadata self;
                  _routes_cache := Some routes |})
  end.

(** The route catalog: what [self._get_routes()] returns. *)
Definition catalog (self : Breadcrumb) (current_app : Flask) : list route :=
  fst (_get_routes self current_app).

(** One iteration of the loop that creates a breadcrumb item per route:
    no producer is called here. *)
Definition materialize_step (metadata : dict string metadata_entry)
    (current_path : string)
    (st : dict string BreadcrumbItem * dict string bool) (r : route)
    : dict string BreadcrumbItem * dict string bool :=
  let '(url, endpoint, methods) := r in
  let '(breadcrumb_items, is_current_path_map) := st in
  if negb (existsb (String.eqb "GET") methods)
     || PyStr.startswith endpoint "static"
  then st
  else
    let metadata := sget metadata endpoint in
    let text := match metadata with
                | Some m => md_text m
                | None => Static (_generate_default_text url)
                end in
    let order := match metadata with
                 | Some m => md_order m
                 | None => Some 0%Z
                 end in
    let is_current := url =? current_path in
    (sset breadcrumb_items url (BreadcrumbItem_init text url order is_current),
     sset is_current_path_map url is_current).

Definition materialize (routes : list route)
    (metadata : dict string metadata_entry) (current_path : string)
    : dict string BreadcrumbItem * dict string bool :=
  fold_left (materialize_step metadata current_path) routes ([], []).

(** "Make sure we have a root item". *)
Definition ensure_root (current_path : string)
    (st : dict string BreadcrumbItem * dict string bool)
    : dict string BreadcrumbItem * dict string bool :=
  let '(breadcrumb_items, is_current_path_map) := st in
  if smem breadcrumb_items "/" then st
  else
    let is_current := current_path =? "/" in
    (sset breadcrumb_items "/"
          (BreadcrumbItem_init (Static "Home") "/" (Some 0%Z) is_current),
     sset is_current_path_map "/" is_current).

(** "Precompute parent URLs for all paths". *)
Definition parent_urls (breadcrumb_items : dict string BreadcrumbItem)
    : dict string string :=
  fold_left (fun m url => sset m url (_get_parent_url url))
            (dict_keys breadcrumb_items) [].

(** The [while path != "/"] loop. *)
Fixpoint walk (fuel : nat) (breadcrumb_items : dict string BreadcrumbItem)
    (parent_url_map : dict string string) (path : string)
    (path_to_root : list string) : option (list string) :=
  match fuel with
  | O => None
  | S fuel' =>
      if path =? "/" then Some path_to_root
      else
        let path_to_root :=
          if smem breadcrumb_items path then path_to_root ++ [path]
          else path_to_root in
        let parent_path :=
          sget_default parent_url_map path (_get_parent_url path) in
        if parent_path =? path then Some path_to_root
        else walk fuel' breadcrumb_items parent_url_map parent_path path_to_root
  end.

(** "Precompute child relationships". *)
Definition child_relationships (breadcrumb_items : dict string BreadcrumbItem)
    (current_path : string) : dict (string * string) bool :=
  fold_left
    (fun m url =>
       if negb (url =? "/") && negb (url =? current_path)
       then dict_set pair_eqb m (url, current_path)
                     (_is_child_of url current_path)
       else m)
    (dict_keys breadcrumb_items) [].

(** One iteration of the grouping loop: the producer of an item that is
    kept is called when its dictionary is made (l.265), and an exception
    leaves the loop. *)
Definition group_step (parent_url_map : dict string string)
    (is_child_map : dict (string * string) bool)
    (is_current_path_map : dict string bool) (current_path : string)
    (parent_to_children : dict string (list node))
    (entry : string * BreadcrumbItem) : outcome (dict string (list node)) :=
  let '(url, item) := entry in
  if url =? "/" then Returns parent_to_children
  else
    let parent_url := sget_default parent_url_map url (_get_parent_url url) in
    if dict_get_default pair_eqb is_child_map (url, current_path) false
    then Returns parent_to_children
    else
      let children := sget_default parent_to_children parent_url [] in
      text <- resolve (item_text item) ;;
      Returns
        (sset parent_to_children parent_url
              (children ++
               [Node text url (item_order item)
                     (sget_default is_current_path_map url false) []])).

(** The body of [_build_breadcrumb_tree] once [routes] is known: as
    [build_tree] above, with the calls of the producers at l.196, l.232,
    l.265 and l.281. *)
Definition build_tree (routes : list route)
    (metadata : dict string metadata_entry) (current_path : string)
    : outcome (option node) :=
  match fst (materialize routes metadata current_path) with
  | [] => Returns None
  | _ :: _ =>
    let st := ensure_root current_path
                (materialize routes metadata current_path) in
    let breadcrumb_items := fst st in
    let is_current_path_map := snd st in
    if current_path =? "/" then
      match sget breadcrumb_items "/" with
      | None => Raises "KeyError"
      | Some root_item =>
          text <- resolve (item_text root_item) ;;
          Returns (Some (Node text "/" (item_order root_item) true []))
      end
    else
      let parent_url_map := parent_urls breadcrumb_items in
      match walk (String.length current_path + 2) breadcrumb_items
                 parent_url_map current_path [] with
      | None => Diverges
      | Some path_to_root =>
        let path_to_root :=
          if smem breadcrumb_items "/" then path_to_root ++ ["/"]
          else path_to_root in
        match path_to_root with
        | [] =>
            match sget breadcrumb_items current_path with
            | Some item =>
                text <- resolve (item_text item) ;;
                Returns (Some (Node text (item_url item) (item_order item)
                                    true []))
            | None => Returns None
            end
        | _ :: _ =>
            let is_child_map :=
              child_relationships breadcrumb_items current_path in
            parent_to_children <-
              for_each (group_step parent_url_map is_child_map
                                   is_current_path_map current_path)
                       breadcrumb_items [] ;;
            let parent_to_children := sort_groups parent_to_children in
            match sget breadcrumb_items "/" with
            | None => Raises "KeyError"
            | Some root_item =>
                text <- resolve (item_text root_item) ;;
                let result :=
                  Node text "/" (item_order root_item)
                       (sget_default is_current_path_map "/" false)
                       (sget_default parent_to_children "/" []) in
                Returns (Some (assemble parent_to_children current_path
                                        (tl (rev path_to_root)) result))
            end
        end
      end
  end.

(** [Breadcrumb._build_breadcrumb_tree] *)
Definition _build_breadcrumb_tree (self : Breadcrumb) (current_app : Flask)
    (current_path : string) : outcome (option node) * Breadcrumb :=
  let '(routes, self) := _get_routes self current_app in
  (build_tree routes (breadcrumb_metadata self) current_path, self).

(** [Breadcrumb.__init__] *)
Definition Breadcrumb_init : Breadcrumb :=
  {| breadcrumb_metadata := []; _routes_cache := None |}.

End Raising.

(* ================================================================= *)
(** ** Notions the theorems are stated with *)

(** All the dictionaries of a tree, the root first. *)
Fixpoint nodes (n : node) : list node :=
  n :: flat_map nodes (children n).

(** The dictionaries strictly below the root. *)
Definition descendants (n : node) : list node :=
  flat_map nodes (children n).

(** The number of dictionaries marked as the current path. *)
Definition current_count (t : node) : nat :=
  List.length (filter is_current_path (nodes t)).

(** A route that gets a breadcrumb item: GET-capable, endpoint not
    starting with "static". *)
Definition is_breadcrumb_route (r : route) : bool :=
  let '(_, endpoint, methods) := r in
  existsb (String.eqb "GET") methods
  && negb (PyStr.startswith endpoint "static").

(** The url of a tuple of the catalog. *)
Definition route_url (r : route) : string := fst (fst r).

(** [u] is the catalog URL of a route that gets a breadcrumb item. *)
Definition is_registered (routes : list route) (u : string) : bool :=
  existsb (fun r => is_breadcrumb_route r && (route_url r =? u)) routes.

(** The route catalog: what [self._get_routes()] returns. *)
Definition catalog (self : Breadcrumb) (current_app : Flask) : list route :=
  fst (_get_routes self current_app).

(** The paths the walk visits from [path]: the path, its parent, and so on,
    the root excluded. *)
Fixpoint ancestors (fuel : nat) (path : string) : list string :=
  match fuel with
  | O => []
  | S fuel' =>
      if path =? "/" then []
      else path :: ancestors fuel' (_get_parent_url path)
  end.

(** The syntactic ancestors of a path, the path first, the root excluded. *)
Definition ancestor_chain (path : string) : list string :=
  ancestors (String.length path + 2) path.

(** A catalog URL is the root or does not end with a slash. *)
Definition canonical_url (u : string) : Prop :=
  u = "/" \/ PyStr.endswith u slash = false.

(** The cache, if set, holds what [_get_routes] computed. *)
Definition cache_ok (self : Breadcrumb) : Prop :=
  forall routes, _routes_cache self = Some routes ->
                 Forall (fun r => canonical_url (route_url r)) routes.

(** The order on sort keys, as a relation. *)
Definition key_le_prop (a b : Z * string) : Prop := key_le a b = true.

(** A list whose keys are in non-decreasing [(order, url)] order. *)
Definition sorted_keys (ks : list (Z * string)) : Prop :=
  StronglySorted key_le_prop ks.

(** [a] comes no later than [b] among siblings: smaller order, or the same
    order and a url that is not greater. *)
Definition sibling_le (a b : node) : Prop :=
  (order a < order b)%Z
  \/ (order a = order b /\ String.leb (url a) (url b) = true).

(** [c in s] for a character [c]. *)
Fixpoint contains (c : ascii) (s : string) : bool :=
  match s with
  | EmptyString => false
  | String a s' => Ascii.eqb a c || contains c s'
  end.

(** All the items of a [BreadcrumbItem] tree, the root first. *)
Fixpoint items (i : BreadcrumbItem) : list BreadcrumbItem :=
  i :: flat_map items (item_children i).

(** The endpoint of a tuple of the catalog. *)
Definition route_endpoint (r : route) : string := snd (fst r).

(** The last route of the catalog that gets a breadcrumb item for [u]. *)
Definition last_route (routes : list route) (u : string) : option route :=
  find (fun r => is_breadcrumb_route r && (route_url r =? u)) (rev routes).

(** What the tree takes from a stored entry: the text and the order. *)
Definition label_part (m : metadata_entry) : label * option Z :=
  (md_text m, md_order m).

(** Every character of [s] is an ASCII character: [s.isascii()]. *)
Fixpoint is_ascii (s : string) : bool :=
  match s with
  | EmptyString => true
  | String c s' => (nat_of_ascii c <? 128)%nat && is_ascii s'
  end.

(* ================================================================= *)
(** ** Sample applications *)

Definition GET_methods : list string := ["GET"; "HEAD"; "OPTIONS"].

(** [@app.route(pattern)] on a view function called [name]. *)
Definition view (pattern name : string) : Rule :=
  {| rule := pattern; endpoint := name; methods := GET_methods |}.

(** The route Flask adds for static files. *)
Definition static_rule : Rule :=
  {| rule := "/static/<path:filename>"; endpoint := "static";
     methods := GET_methods |}.

(** [Flask(__name__)] with the given views. *)
Definition app_of (rules : list Rule) : Flask :=
  {| url_map := static_rule :: rules; extensions := None |}.

(** [Breadcrumb.__init__] *)
Definition Breadcrumb_init : Breadcrumb :=
  {| breadcrumb_metadata := []; _routes_cache := None |}.

(** A view function called [name]. *)
Definition page (name : string) : view_function unit string :=
  {| __name__ := name; call := fun _ => name |}.

(** [@breadcrumb(text, order=order)] on the view called [name]. *)
Definition decorate (self : Breadcrumb) (name text : string) (order : Z)
    : Breadcrumb :=
  fst (Breadcrumb_call self (Static text) (Some order) None (page name)).

(* ================================================================= *)
(** ** Notions of the proofs *)

(** [parent_url_map] maps a path to its parent. *)
Definition parent_map_ok (parent_url_map : dict string string) : Prop :=
  forall k v, sget parent_url_map k = Some v -> v = _get_parent_url k.

(** What holds of [(breadcrumb_items, is_current_path_map)] all along. *)
Record items_ok (current_path : string)
    (st : dict string BreadcrumbItem * dict string bool) : Prop :=
  { ok_nodup : NoDup (dict_keys (fst st));
    ok_keys : dict_keys (snd st) = dict_keys (fst st);
    ok_item : forall u i, In (u, i) (fst st) ->
                item_url i = u /\ item_children i = [];
    ok_current : forall u b, sget (snd st) u = Some b ->
                   b = (u =? current_path) }.

(** [breadcrumb_items], [is_current_path_map] and the sorted
    [parent_to_children] as [_build_breadcrumb_tree] computes them. *)
Definition items_of (routes : list route)
    (metadata : dict string metadata_entry) (current_path : string)
    : dict string BreadcrumbItem :=
  fst (ensure_root current_path (materialize routes metadata current_path)).

Definition current_map_of (routes : list route)
    (metadata : dict string metadata_entry) (current_path : string)
    : dict string bool :=
  snd (ensure_root current_path (materialize routes metadata current_path)).

Definition groups_of (routes : list route)
    (metadata : dict string metadata_entry) (current_path : string)
    : dict string (list node) :=
  let breadcrumb_items := items_of routes metadata current_path in
  sort_groups
    (fold_left (group_step (parent_urls breadcrumb_items)
                           (child_relationships breadcrumb_items current_path)
                           (current_map_of routes metadata current_path)
                           current_path)
               breadcrumb_items []).

(** The registered ancestors, from the top down. *)
Definition path_from_root (routes : list route)
    (metadata : dict string metadata_entry) (current_path : string)
    : list string :=
  rev (filter (smem (items_of routes metadata current_path))
              (ancestor_chain current_path)).

(** The entries of [breadcrumb_items] the grouping loop keeps. *)
Definition group_keeps (is_child_map : dict (string * string) bool)
    (current_path : string) (entry : string * BreadcrumbItem) : bool :=
  negb (fst entry =? "/")
  && negb (dict_get_default pair_eqb is_child_map (fst entry, current_path) false).

(** The dictionary the grouping loop appends for an entry. *)
Definition group_node (is_current_path_map : dict string bool)
    (entry : string * BreadcrumbItem) : node :=
  Node (resolve (item_text (snd entry))) (fst entry) (item_order (snd entry))
       (sget_default is_current_path_map (fst entry) false) [].

(** The kept entries whose parent URL is [k], in dictionary order. *)
Definition group_members (is_child_map : dict (string * string) bool)
    (current_path k : string) (entries : list (string * BreadcrumbItem))
    : list (string * BreadcrumbItem) :=
  filter (fun e => group_keeps is_child_map current_path e
                   && (_get_parent_url (fst e) =? k)) entries.

(** What holds of every member of the sibling group of [k]. *)
Definition member_ok (breadcrumb_items : dict string BreadcrumbItem)
    (current_path k : string) (n : node) : Prop :=
  children n = []
  /\ smem breadcrumb_items (url n) = true
  /\ url n <> "/"
  /\ _get_parent_url (url n) = k
  /\ is_current_path n = (url n =? current_path)
  /\ (current_path <> "/" -> _is_child_of (url n) current_path = false).

(** What holds of every dictionary below the root. *)
Definition below_root_ok (breadcrumb_items : dict string BreadcrumbItem)
    (current_path : string) (n : node) : Prop :=
  smem breadcrumb_items (url n) = true
  /\ url n <> "/"
  /\ is_current_path n = (url n =? current_path)
  /\ _is_child_of (url n) current_path = false.

(** The child the traversal moves into, with its children attached. *)
Definition attach (parent_to_children : dict string (list node))
    (current_path path : string) (child : node) : node :=
  match sget parent_to_children path with
  | Some cs =>
      if negb (path =? current_path) then set_children child cs else child
  | None => child
  end.

(** A dictionary without children that satisfies [P]. *)
Definition leaf_with (P : node -> Prop) (n : node) : Prop :=
  P n /\ children n = [].

(** A list of dictionaries without children, in [(order, url)] order. *)
Definition sorted_leaves (cs : list node) : Prop :=
  sorted_keys (map node_key cs) /\ Forall (fun c => children c = []) cs.

(** Every list of children is in [(order, url)] order. *)
Definition children_sorted (n : node) : Prop :=
  sorted_keys (map node_key (children n)).

(** The members of a group: without children, with parent [k], no url
    twice. *)
Definition group_list (k : string) (cs : list node) : Prop :=
  Forall (fun n => children n = [] /\ _get_parent_url (url n) = k) cs
  /\ NoDup (map url cs).

(** Each path of the list is the parent of the next, the first a child of
    [k]. *)
Fixpoint linked_from (k : string) (paths : list string) : Prop :=
  match paths with
  | [] => True
  | p :: rest => _get_parent_url p = k /\ linked_from p rest
  end.

(** What is left of [s] after its first occurrence of [g]. *)
Fixpoint after_char (g : ascii) (s : string) : option string :=
  match s with
  | EmptyString => None
  | String e r => if Ascii.eqb e g then Some r else after_char g r
  end.

(** [s.lstrip(g)] *)
Fixpoint lstrip (g : ascii) (s : string) : string :=
  match s with
  | EmptyString => EmptyString
  | String e r => if Ascii.eqb e g then lstrip g r else s
  end.

(** The first character, if any. *)
Definition head (s : string) : option ascii :=
  match s with
  | EmptyString => None
  | String c _ => Some c
  end.

(** [s.endswith(r)], as a proposition. *)
Definition is_suffix (r s : string) : Prop := exists p, s = (p ++ r)%string.

(** The delimiters of a variable part. *)
Definition gt : ascii := ">"%char.

Definition lt : ascii := "<"%char.

(** The item the first loop of [_build_breadcrumb_tree] creates for a
    route. *)
Definition item_of_route (metadata : dict string metadata_entry)
    (current_path : string) (r : route) : BreadcrumbItem :=
  BreadcrumbItem_init
    (match sget metadata (route_endpoint r) with
     | Some m => md_text m
     | None => Static (_generate_default_text (route_url r))
     end)
    (route_url r)
    (match sget metadata (route_endpoint r) with
     | Some m => md_order m
     | None => Some 0%Z
     end)
    (route_url r =? current_path).

(** The text and the order of a dictionary are those of the item stored
    for its url. *)
Definition labelled (breadcrumb_items : dict string BreadcrumbItem)
    (n : node) : Prop :=
  exists item,
    sget breadcrumb_items (url n) = Some item
    /\ text n = resolve (item_text item)
    /\ order n = item_order item.

(** The url of every child has the url of the dictionary as parent. *)
Definition edges_ok (n : node) : Prop :=
  Forall (fun c => _get_parent_url (url c) = url n) (children n).

(** A dictionary with children is on the path the traversal follows, is
    not the current path, and has the urls of its sibling group. *)
Definition spine_ok (parent_to_children : dict string (list node))
    (current_path : string) (paths : list string) (n : node) : Prop :=
  children n = []
  \/ (In (url n) paths /\ url n <> current_path
      /\ map url (children n)
         = map url (sget_default parent_to_children (url n) [])).

(** The entries the grouping loop puts into the group of [k], and the
    dictionary it makes of an entry, written without the precomputed
    maps. *)
Definition kept_in_group (current_path k : string)
    (entry : string * BreadcrumbItem) : bool :=
  negb (fst entry =? "/")
  && negb (_is_child_of (fst entry) current_path)
  && (_get_parent_url (fst entry) =? k).

Definition group_dict (current_path : string)
    (entry : string * BreadcrumbItem) : node :=
  Node (resolve (item_text (snd entry))) (fst entry) (item_order (snd entry))
       (fst entry =? current_path) [].

(** From a producer that can raise to one that returns: the string it
    returns, and the empty string if it does not return. *)
Definition erase_label (text : Raising.label) : label :=
  match text with
  | Raising.Static s => Static s
  | Raising.Callable f =>
      Callable (fun _ => match f tt with Returns s => s | _ => "" end)
  end.

Fixpoint erase_item (i : Raising.BreadcrumbItem) : BreadcrumbItem :=
  Item (erase_label (Raising.item_text i)) (Raising.item_url i)
       (Raising.item_order i) (Raising.item_is_current_path i)
       (map erase_item (Raising.item_children i)).

Definition erase_entry (m : Raising.metadata_entry) : metadata_entry :=
  {| md_text := erase_label (Raising.md_text m);
     md_order := Raising.md_order m;
     md_max_depth := Raising.md_max_depth m |}.

(** A dictionary with every value mapped. *)
Definition map_values {V W : Type} (g : V -> W) (d : dict string V)
    : dict string W :=
  map (fun kv => (fst kv, g (snd kv))) d.

Definition erase_self (self : Raising.Breadcrumb) : Breadcrumb :=
  {| breadcrumb_metadata :=
       map_values erase_entry (Raising.breadcrumb_metadata self);
     _routes_cache := Raising._routes_cache self |}.

Definition erase_state
    (st : dict string Raising.BreadcrumbItem * dict string bool)
    : dict string BreadcrumbItem * dict string bool :=
  (map_values erase_item (fst st), snd st).



(* ================================================================= *)
(** ** Facts about the string primitives *)

Lemma string_length_app (s t : string) :
  String.length (s ++ t)%string = String.length s + String.length t.
Proof. induction s as [|a s IH]; simpl; [reflexivity | now rewrite IH]. Qed.

Lemma app_empty_r (s : string) : (s ++ "")%string = s.
Proof. induction s as [|a s IH]; simpl; [reflexivity | now rewrite IH]. Qed.

Lemma app_assoc_str (s t u : string) :
  ((s ++ t) ++ u)%string = (s ++ t ++ u)%string.
Proof. induction s as [|a s IH]; simpl; [reflexivity | now rewrite IH]. Qed.

Lemma length_zero_empty (s : string) : String.length s = 0 -> s = "".
Proof. destruct s; simpl; [reflexivity | discriminate]. Qed.

Lemma rstrip_length (c : ascii) (s : string) :
  String.length (PyStr.rstrip c s) <= String.length s.
Proof.
  induction s as [|a s IH]; simpl; [lia |].
  destruct (PyStr.rstrip c s) eqn:E.
  - destruct (Ascii.eqb a c); simpl; lia.
  - simpl in *; lia.
Qed.

Lemma split_not_nil (c : ascii) (s : string) : PyStr.split c s <> [].
Proof.
  destruct s as [|a s]; simpl; [discriminate |].
  destruct (Ascii.eqb a c); [discriminate |].
  destruct (PyStr.split c s); discriminate.
Qed.

(** Joining what was split gives the string back. *)
Lemma join_split (c : ascii) (s : string) :
  PyStr.join (String c "") (PyStr.split c s) = s.
Proof.
  unfold PyStr.join.
  induction s as [|a s IH]; simpl; [reflexivity |].
  destruct (Ascii.eqb_spec a c) as [->|Hne].
  - generalize (split_not_nil c s). simpl.
    destruct (PyStr.split c s) as [|p ps]; [congruence | intros _].
    simpl in *. now rewrite IH.
  - generalize (split_not_nil c s).
    destruct (PyStr.split c s) as [|p ps]; [congruence | intros _].
    simpl in *. destruct ps; simpl in *; now rewrite <- IH.
Qed.

(** Dropping the last of at least two parts drops a separator and that
    part from the joined string. *)
Lemma concat_removelast (sep : string) (l : list string) :
  2 <= List.length l ->
  String.concat sep l
  = (String.concat sep (removelast l) ++ sep ++ List.last l "")%string.
Proof.
  induction l as [|x l IH]; simpl; [lia |].
  destruct l as [|y l]; [simpl; lia |].
  intros _. destruct l as [|z l].
  - simpl. reflexivity.
  - assert (H2 : 2 <= List.length (y :: z :: l)) by (simpl; lia).
    specialize (IH H2).
    change (String.concat sep (x :: y :: z :: l))
      with (x ++ sep ++ String.concat sep (y :: z :: l))%string.
    rewrite IH.
    change (removelast (x :: y :: z :: l)) with (x :: removelast (y :: z :: l)).
    change (List.last (x :: y :: z :: l) "") with (List.last (y :: z :: l) "").
    assert (Hne : removelast (y :: z :: l) <> []) by (simpl; destruct l; discriminate).
    destruct (removelast (y :: z :: l)) as [|r rs] eqn:Er; [congruence |].
    change (String.concat sep (x :: r :: rs))
      with (x ++ sep ++ String.concat sep (r :: rs))%string.
    now rewrite !app_assoc_str.
Qed.

(** The parent of a path is the root or a strictly shorter string. *)
Lemma _get_parent_url_shorter (url : string) :
  _get_parent_url url = "/"
  \/ String.length (_get_parent_url url) < String.length url.
Proof.
  unfold _get_parent_url.
  destruct (PyStr.rstrip slash url =? "") eqn:E; [now left |].
  destruct (List.length (PyStr.split slash (PyStr.rstrip slash url)) <=? 2)%nat eqn:L;
    [now left | right].
  apply Nat.leb_gt in L.
  pose proof (rstrip_length slash url) as Hlen.
  pose proof (join_split slash (PyStr.rstrip slash url)) as Hjs.
  unfold PyStr.join in *.
  rewrite concat_removelast in Hjs by lia.
  change (String slash "") with "/" in Hjs.
  rewrite <- Hjs in Hlen. rewrite !string_length_app in Hlen. simpl in Hlen. lia.
Qed.

(** Only the root is its own parent. *)
Lemma _get_parent_url_fixpoint (url : string) :
  _get_parent_url url = url <-> url = "/".
Proof.
  split; [| intros ->; reflexivity].
  intros H. destruct (_get_parent_url_shorter url) as [E|E]; [congruence |].
  rewrite H in E. lia.
Qed.

(* ================================================================= *)
(** ** Facts about dictionaries *)

Section DictFacts.
Context {K V : Type}.
Variable keq : K -> K -> bool.

Hypothesis keq_spec : forall a b, reflect (a = b) (keq a b).

Lemma keq_refl (a : K) : keq a a = true.
Proof. destruct (keq_spec a a); congruence. Qed.

Lemma dict_get_set (d : dict K V) (k k' : K) (v : V) :
  dict_get keq (dict_set keq d k v) k'
  = if keq k k' then Some v else dict_get keq d k'.
Proof.
  induction d as [|[k0 v0] d IH]; simpl.
  - reflexivity.
  - destruct (keq_spec k0 k) as [->|Hne]; simpl.
    + destruct (keq k k'); reflexivity.
    + rewrite IH. destruct (keq_spec k0 k') as [->|Hne'].
      * destruct (keq_spec k k'); congruence.
      * reflexivity.
Qed.

Lemma dict_get_In (d : dict K V) (k : K) (v : V) :
  dict_get keq d k = Some v -> exists k0, k0 = k /\ In (k0, v) d.
Proof.
  induction d as [|[k0 v0] d IH]; simpl; [discriminate |].
  destruct (keq_spec k0 k) as [->|Hne].
  - intros [= ->]. exists k. auto.
  - intros H. destruct (IH H) as (k1 & E & Hin). exists k1. auto.
Qed.

Lemma dict_get_None (d : dict K V) (k : K) :
  dict_get keq d k = None <-> ~ In k (dict_keys d).
Proof.
  induction d as [|[k0 v0] d IH]; simpl; [tauto |].
  destruct (keq_spec k0 k) as [->|Hne].
  - split; [discriminate | tauto].
  - rewrite IH. tauto.
Qed.

Lemma dict_mem_In (d : dict K V) (k : K) :
  dict_mem keq d k = true <-> In k (dict_keys d).
Proof.
  unfold dict_mem. destruct (dict_get keq d k) eqn:E.
  - split; [intros _ | reflexivity].
    destruct (dict_get_In d k v E) as (k0 & -> & Hin).
    unfold dict_keys. now apply (in_map fst) in Hin.
  - apply dict_get_None in E. split; [discriminate | tauto].
Qed.

Lemma dict_get_NoDup (d : dict K V) (k : K) (v : V) :
  NoDup (dict_keys d) -> In (k, v) d -> dict_get keq d k = Some v.
Proof.
  induction d as [|[k0 v0] d IH]; simpl; [tauto |].
  intros Hnd [[= -> ->]|Hin].
  - now rewrite keq_refl.
  - inversion Hnd as [|? ? Hnot Hnd']; subst.
    destruct (keq_spec k0 k) as [->|Hne].
    + exfalso. apply Hnot. unfold dict_keys. now apply (in_map fst) in Hin.
    + auto.
Qed.

Lemma dict_keys_set (d : dict K V) (k : K) (v : V) :
  dict_keys (dict_set keq d k v)
  = if dict_mem keq d k then dict_keys d else dict_keys d ++ [k].
Proof.
  unfold dict_mem.
  induction d as [|[k0 v0] d IH]; simpl; [reflexivity |].
  destruct (keq_spec k0 k) as [->|Hne]; simpl; [reflexivity |].
  rewrite IH. now destruct (dict_get keq d k).
Qed.

Lemma dict_keys_set_NoDup (d : dict K V) (k : K) (v : V) :
  NoDup (dict_keys d) -> NoDup (dict_keys (dict_set keq d k v)).
Proof.
  intros Hnd. rewrite dict_keys_set.
  destruct (dict_mem keq d k) eqn:E; [assumption |].
  assert (Hnot : ~ In k (dict_keys d)).
  { intros Hin. apply dict_mem_In in Hin. congruence. }
  clear E. induction (dict_keys d) as [|x l IH]; simpl.
  - constructor; [tauto | constructor].
  - inversion Hnd; subst. constructor.
    + rewrite in_app_iff. simpl in *. intuition.
    + apply IH; simpl in *; intuition.
Qed.

End DictFacts.

Lemma pair_eqb_spec (a b : string * string) : reflect (a = b) (pair_eqb a b).
Proof.
  destruct a as [a1 a2], b as [b1 b2]. unfold pair_eqb. simpl.
  destruct (String.eqb_spec a1 b1), (String.eqb_spec a2 b2); simpl;
    constructor; congruence.
Qed.

(* ================================================================= *)
(** ** The ancestor walk *)

Lemma parent_urls_ok (breadcrumb_items : dict string BreadcrumbItem) :
  parent_map_ok (parent_urls breadcrumb_items).
Proof.
  unfold parent_urls.
  assert (G : forall l m, parent_map_ok m ->
            parent_map_ok (fold_left (fun m url => sset m url (_get_parent_url url)) l m)).
  { induction l as [|u l IH]; simpl; intros m Hm; [assumption |].
    apply IH. intros k v. rewrite (dict_get_set _ String.eqb_spec).
    destruct (String.eqb_spec u k) as [->|]; [congruence | apply Hm]. }
  apply G. intros k v; discriminate.
Qed.

Lemma parent_lookup (parent_url_map : dict string string) (path : string) :
  parent_map_ok parent_url_map ->
  sget_default parent_url_map path (_get_parent_url path) = _get_parent_url path.
Proof.
  intros H. unfold dict_get_default.
  destruct (sget parent_url_map path) eqn:E; [now apply H | reflexivity].
Qed.

(** With enough fuel the loop exits, and [path_to_root] has gained the
    visited paths that are keys of [breadcrumb_items]. *)
Lemma walk_ancestors (breadcrumb_items : dict string BreadcrumbItem)
    (parent_url_map : dict string string) :
  parent_map_ok parent_url_map ->
  forall fuel path path_to_root,
    String.length path + 2 <= fuel ->
    walk fuel breadcrumb_items parent_url_map path path_to_root
    = Some (path_to_root
            ++ filter (smem breadcrumb_items) (ancestors fuel path)).
Proof.
  intros Hok. induction fuel as [|fuel IH]; intros path acc Hfuel; [lia |].
  simpl. destruct (String.eqb_spec path "/") as [->|Hne].
  - now rewrite app_nil_r.
  - rewrite (parent_lookup _ _ Hok).
    destruct (String.eqb_spec (_get_parent_url path) path) as [E|_].
    { apply _get_parent_url_fixpoint in E. contradiction. }
    destruct (_get_parent_url_shorter path) as [E|Hlt].
    + rewrite E. destruct fuel as [|fuel]; [lia |]. simpl.
      destruct (smem breadcrumb_items path); simpl;
        now rewrite ?app_nil_r.
    + rewrite IH by lia. simpl.
      destruct (smem breadcrumb_items path); simpl;
        now rewrite <- ?app_assoc.
Qed.

(** More fuel than needed does not change the visited paths. *)
Lemma ancestors_fuel (k1 : nat) : forall k2 path,
    String.length path + 2 <= k1 -> String.length path + 2 <= k2 ->
    ancestors k1 path = ancestors k2 path.
Proof.
  induction k1 as [|k1 IH]; intros k2 path H1 H2; [lia |].
  destruct k2 as [|k2]; [lia |]. simpl.
  destruct (String.eqb_spec path "/") as [->|Hne]; [reflexivity |].
  f_equal. destruct (_get_parent_url_shorter path) as [E|Hlt].
  - rewrite E. destruct k1; [lia |]. destruct k2; [lia |]. reflexivity.
  - apply IH; lia.
Qed.

(* ================================================================= *)
(** ** The materialised items *)

Lemma In_dict_set {V : Type} (d : dict string V) (k : string) (v : V) u w :
  In (u, w) (sset d k v) -> (u = k /\ w = v) \/ In (u, w) d.
Proof.
  induction d as [|[k0 v0] d IH]; simpl.
  - intros [[= <- <-]|[]]. auto.
  - destruct (String.eqb_spec k0 k) as [->|Hne]; simpl.
    + intros [[= <- <-]|H]; auto.
    + intros [[= <- <-]|H]; auto. destruct (IH H); auto.
Qed.

Lemma materialize_step_ok (metadata : dict string metadata_entry)
    (current_path : string) st r :
  items_ok current_path st ->
  items_ok current_path (materialize_step metadata current_path st r).
Proof.
  intros [Hnd Hk Hi Hc]. destruct r as [[u e] ms], st as [items icm].
  unfold materialize_step.
  destruct (negb (existsb (String.eqb "GET") ms) || PyStr.startswith e "static");
    [now constructor |].
  simpl in *. constructor; simpl.
  - now apply (dict_keys_set_NoDup _ String.eqb_spec).
  - rewrite !(dict_keys_set _ String.eqb_spec).
    unfold dict_mem at 1.
    destruct (sget icm u) eqn:E.
    + assert (Hin : In u (dict_keys items)).
      { rewrite <- Hk. apply (dict_mem_In _ String.eqb_spec).
        unfold dict_mem. now rewrite E. }
      apply (dict_mem_In _ String.eqb_spec) in Hin. now rewrite Hin.
    + assert (Hnin : ~ In u (dict_keys items)).
      { rewrite <- Hk. now apply (dict_get_None _ String.eqb_spec). }
      destruct (smem items u) eqn:E'.
      * apply (dict_mem_In _ String.eqb_spec) in E'. contradiction.
      * now rewrite Hk.
  - intros u' i Hin. apply In_dict_set in Hin as [[-> ->]|Hin]; [| now apply Hi].
    unfold BreadcrumbItem_init. simpl. auto.
  - intros u' b. rewrite (dict_get_set _ String.eqb_spec).
    destruct (String.eqb_spec u u') as [->|Hne]; [congruence | apply Hc].
Qed.

Lemma fold_materialize_ok (metadata : dict string metadata_entry)
    (current_path : string) (routes : list route) : forall st,
    items_ok current_path st ->
    items_ok current_path
      (fold_left (materialize_step metadata current_path) routes st).
Proof.
  induction routes as [|r routes IH]; simpl; intros st H; [assumption |].
  apply IH. now apply materialize_step_ok.
Qed.

Lemma materialize_ok (routes : list route)
    (metadata : dict string metadata_entry) (current_path : string) :
  items_ok current_path (materialize routes metadata current_path).
Proof.
  apply fold_materialize_ok. constructor; simpl; try constructor; try tauto.
  intros u b; discriminate.
Qed.

Lemma ensure_root_ok (current_path : string) st :
  items_ok current_path st -> items_ok current_path (ensure_root current_path st).
Proof.
  intros H. destruct st as [items icm]. unfold ensure_root.
  destruct (smem items "/") eqn:E; [assumption |].
  destruct H as [Hnd Hk Hi Hc]. simpl in *. constructor; simpl.
  - now apply (dict_keys_set_NoDup _ String.eqb_spec).
  - rewrite !(dict_keys_set _ String.eqb_spec). rewrite E.
    destruct (smem icm "/") eqn:E'; [| now rewrite Hk].
    apply (dict_mem_In _ String.eqb_spec) in E'. rewrite Hk in E'.
    apply (dict_mem_In _ String.eqb_spec) in E'. congruence.
  - intros u' i Hin. apply In_dict_set in Hin as [[-> ->]|Hin]; [| now apply Hi].
    unfold BreadcrumbItem_init. simpl. auto.
  - intros u' b. rewrite (dict_get_set _ String.eqb_spec).
    destruct (String.eqb_spec "/" u') as [<-|Hne]; [| apply Hc].
    intros [= <-]. apply String.eqb_sym.
Qed.

(** Which URLs are keys of [breadcrumb_items] after the first loop. *)
Lemma fold_materialize_mem (metadata : dict string metadata_entry)
    (current_path : string) (routes : list route) (u : string) : forall st,
    smem (fst (fold_left (materialize_step metadata current_path) routes st)) u
    = smem (fst st) u || is_registered routes u.
Proof.
  induction routes as [|r routes IH]; simpl; intros st.
  - now rewrite orb_false_r.
  - rewrite IH. destruct r as [[u0 e] ms], st as [items icm].
    unfold materialize_step, is_breadcrumb_route, route_url. simpl.
    destruct (existsb (String.eqb "GET") ms); simpl; [| reflexivity].
    destruct (PyStr.startswith e "static"); simpl; [reflexivity |].
    unfold dict_mem. rewrite (dict_get_set _ String.eqb_spec).
    destruct (String.eqb_spec u0 u) as [->|Hne]; simpl.
    + now rewrite orb_true_r.
    + reflexivity.
Qed.

Lemma materialize_mem (routes : list route)
    (metadata : dict string metadata_entry) (current_path u : string) :
  smem (fst (materialize routes metadata current_path)) u
  = is_registered routes u.
Proof. unfold materialize. now rewrite fold_materialize_mem. Qed.

Lemma materialize_nil (routes : list route)
    (metadata : dict string metadata_entry) (current_path : string) :
  fst (materialize routes metadata current_path) = []
  <-> existsb is_breadcrumb_route routes = false.
Proof.
  split.
  - intros H. destruct (existsb is_breadcrumb_route routes) eqn:E; [| reflexivity].
    apply existsb_exists in E as (r & Hin & Hr).
    assert (M : is_registered routes (route_url r) = true).
    { apply existsb_exists. exists r. split; [assumption |].
      now rewrite Hr, String.eqb_refl. }
    rewrite <- (materialize_mem routes metadata current_path) in M.
    rewrite H in M. discriminate.
  - intros H. destruct (fst (materialize routes metadata current_path))
      as [|[u i] d] eqn:E; [reflexivity |].
    assert (M : smem (fst (materialize routes metadata current_path)) u = true).
    { rewrite E. unfold dict_mem. simpl. now rewrite String.eqb_refl. }
    rewrite materialize_mem in M. apply existsb_exists in M as (r & Hin & Hr).
    apply andb_prop in Hr as [Hr _].
    assert (existsb is_breadcrumb_route routes = true)
      by (apply existsb_exists; eauto).
    congruence.
Qed.

Lemma ensure_root_mem (current_path : string) st (u : string) :
  smem (fst (ensure_root current_path st)) u
  = smem (fst st) u || (u =? "/").
Proof.
  destruct st as [items icm]. unfold ensure_root.
  destruct (smem items "/") eqn:E; simpl.
  - destruct (String.eqb_spec u "/") as [->|]; [now rewrite E | now rewrite orb_false_r].
  - unfold dict_mem. rewrite (dict_get_set _ String.eqb_spec).
    rewrite (String.eqb_sym "/" u).
    destruct (u =? "/"); [now rewrite orb_true_r | now rewrite orb_false_r].
Qed.

(* ================================================================= *)
(** ** Sorting by [(order, url)] *)

Lemma ascii_compare_N (a b : ascii) :
  Ascii.compare a b = N.compare (N_of_ascii a) (N_of_ascii b).
Proof. reflexivity. Qed.

Lemma string_compare_refl (s : string) : String.compare s s = Eq.
Proof.
  induction s as [|a s IH]; simpl; [reflexivity |].
  rewrite ascii_compare_N, N.compare_refl. exact IH.
Qed.

Lemma string_leb_refl (s : string) : String.leb s s = true.
Proof. unfold String.leb. now rewrite string_compare_refl. Qed.

Lemma string_compare_trans (c : comparison) : forall s t u : string,
    c <> Eq ->
    (String.compare s t = c \/ String.compare s t = Eq) ->
    (String.compare t u = c \/ String.compare t u = Eq) ->
    (String.compare s u = c \/ String.compare s u = Eq).
Proof.
  induction s as [|a s IH]; intros [|b t] [|d u] Hc; simpl; try tauto;
    try (intros [H|H] [H'|H']; try discriminate; subst; try discriminate; tauto).
  rewrite !ascii_compare_N.
  destruct (N.compare_spec (N_of_ascii a) (N_of_ascii b)) as [E1|L1|G1];
    destruct (N.compare_spec (N_of_ascii b) (N_of_ascii d)) as [E2|L2|G2];
    destruct (N.compare_spec (N_of_ascii a) (N_of_ascii d)) as [E3|L3|G3];
    try lia; try tauto;
    try (intros [H|H] [H'|H']; try discriminate; subst; try tauto; congruence).
  apply IH. exact Hc.
Qed.

Lemma string_leb_trans (s t u : string) :
  String.leb s t = true -> String.leb t u = true -> String.leb s u = true.
Proof.
  unfold String.leb. intros H1 H2.
  assert (G : String.compare s u = Lt \/ String.compare s u = Eq).
  { apply (string_compare_trans Lt s t u); [discriminate | |].
    - destruct (String.compare s t); auto; discriminate.
    - destruct (String.compare t u); auto; discriminate. }
  destruct G as [-> | ->]; reflexivity.
Qed.

Lemma key_le_refl (a : Z * string) : key_le_prop a a.
Proof.
  unfold key_le_prop, key_le. rewrite Z.eqb_refl, string_leb_refl.
  apply orb_true_r.
Qed.

Lemma key_le_total (a b : Z * string) : key_le a b = false -> key_le_prop b a.
Proof.
  unfold key_le_prop, key_le. destruct a as [o1 u1], b as [o2 u2]. simpl.
  destruct (Z.ltb_spec o1 o2), (Z.ltb_spec o2 o1),
    (Z.eqb_spec o1 o2), (Z.eqb_spec o2 o1); simpl; try lia; try congruence.
  destruct (String.leb_total u1 u2) as [->| ->]; [discriminate | reflexivity].
Qed.

Lemma key_le_trans (a b c : Z * string) :
  key_le_prop a b -> key_le_prop b c -> key_le_prop a c.
Proof.
  unfold key_le_prop, key_le. destruct a as [o1 u1], b as [o2 u2], c as [o3 u3].
  simpl.
  destruct (Z.ltb_spec o1 o2), (Z.ltb_spec o2 o3), (Z.ltb_spec o1 o3),
    (Z.eqb_spec o1 o2), (Z.eqb_spec o2 o3), (Z.eqb_spec o1 o3);
    simpl; try lia; try congruence; try tauto.
  apply string_leb_trans.
Qed.

Section SortFacts.
Context {A : Type}.
Variable key : A -> Z * string.

Lemma insert_sorted_perm (x : A) (l : list A) :
  Permutation (insert_sorted key x l) (x :: l).
Proof.
  induction l as [|y l IH]; simpl; [reflexivity |].
  destruct (key_le (key x) (key y)); [reflexivity |].
  rewrite IH. apply perm_swap.
Qed.

Lemma sort_by_perm (l : list A) : Permutation (sort_by key l) l.
Proof.
  induction l as [|x l IH]; simpl; [reflexivity |].
  rewrite insert_sorted_perm. now constructor.
Qed.

Lemma insert_sorted_sorted (x : A) (l : list A) :
  sorted_keys (map key l) -> sorted_keys (map key (insert_sorted key x l)).
Proof.
  unfold sorted_keys.
  induction l as [|y l IH]; simpl; intros H.
  - repeat constructor.
  - destruct (key_le (key x) (key y)) eqn:E; simpl.
    + constructor; [assumption |].
      inversion H as [|? ? Hs Hf]; subst. constructor; [exact E |].
      eapply Forall_impl; [| exact Hf]. intros k. now apply key_le_trans.
    + inversion H as [|? ? Hs Hf]; subst. constructor; [now apply IH |].
      apply (Permutation_Forall
               (Permutation_sym (Permutation_map key (insert_sorted_perm x l)))).
      simpl. constructor; [now apply key_le_total | assumption].
Qed.

Lemma sort_by_sorted (l : list A) : sorted_keys (map key (sort_by key l)).
Proof.
  induction l as [|x l IH]; simpl; [constructor |].
  now apply insert_sorted_sorted.
Qed.

Lemma sort_by_In (l : list A) (x : A) : In x (sort_by key l) <-> In x l.
Proof.
  split; apply Permutation_in;
    [apply sort_by_perm | apply Permutation_sym, sort_by_perm].
Qed.

End SortFacts.

(* ================================================================= *)
(** ** The sibling groups *)

Lemma sget_default_set {V : Type} (d : dict string V) (k k' : string) (v w : V) :
  sget_default (sset d k v) k' w = if k =? k' then v else sget_default d k' w.
Proof.
  unfold dict_get_default. rewrite (dict_get_set _ String.eqb_spec).
  now destruct (k =? k').
Qed.

Lemma fold_group_get (parent_url_map : dict string string)
    (is_child_map : dict (string * string) bool)
    (is_current_path_map : dict string bool) (current_path k : string) :
  parent_map_ok parent_url_map ->
  forall entries parent_to_children,
    sget (fold_left (group_step parent_url_map is_child_map
                                is_current_path_map current_path)
                    entries parent_to_children) k
    = match group_members is_child_map current_path k entries with
      | [] => sget parent_to_children k
      | ms => Some (sget_default parent_to_children k []
                    ++ map (group_node is_current_path_map) ms)
      end.
Proof.
  intros Hok. induction entries as [|[u item] entries IH]; intros G;
    [reflexivity |].
  simpl fold_left. rewrite IH. clear IH.
  unfold group_members, group_step, group_keeps. simpl filter. simpl fst.
  rewrite (parent_lookup _ _ Hok).
  destruct (u =? "/"); simpl; [reflexivity |].
  destruct (dict_get_default pair_eqb is_child_map (u, current_path) false);
    simpl; [reflexivity |].
  rewrite (dict_get_set _ String.eqb_spec), sget_default_set.
  destruct (_get_parent_url u =? k) eqn:E.
  - apply String.eqb_eq in E. subst k.
    match goal with |- context [filter ?f entries] =>
      destruct (filter f entries) as [|m ms] end.
    + reflexivity.
    + unfold group_node at 3. simpl. now rewrite <- app_assoc.
  - reflexivity.
Qed.

Lemma sort_groups_get (parent_to_children : dict string (list node)) (k : string) :
  sget (sort_groups parent_to_children) k
  = option_map (sort_by node_key) (sget parent_to_children k).
Proof.
  induction parent_to_children as [|[k0 cs] G IH]; simpl; [reflexivity |].
  destruct (k0 =? k); [reflexivity | exact IH].
Qed.

(** What [is_child_map.get((url, current_path), False)] returns. *)
Lemma child_relationships_get (breadcrumb_items : dict string BreadcrumbItem)
    (current_path u : string) :
  dict_get_default pair_eqb (child_relationships breadcrumb_items current_path)
                   (u, current_path) false
  = existsb (String.eqb u) (dict_keys breadcrumb_items)
    && negb (u =? "/") && negb (u =? current_path)
    && _is_child_of u current_path.
Proof.
  unfold child_relationships, dict_get_default.
  assert (G : forall l m,
    dict_get pair_eqb
      (fold_left (fun m url =>
         if negb (url =? "/") && negb (url =? current_path)
         then dict_set pair_eqb m (url, current_path)
                       (_is_child_of url current_path)
         else m) l m) (u, current_path)
    = if existsb (String.eqb u) l && negb (u =? "/") && negb (u =? current_path)
      then Some (_is_child_of u current_path)
      else dict_get pair_eqb m (u, current_path)).
  { induction l as [|x l IH]; intros m; [reflexivity |].
    simpl fold_left. rewrite IH. simpl existsb.
    destruct (String.eqb_spec u x) as [->|Hne]; simpl.
    - destruct (x =? "/"), (x =? current_path); simpl;
        rewrite ?andb_false_r, ?andb_true_r; try reflexivity.
      rewrite (dict_get_set _ pair_eqb_spec), (keq_refl _ pair_eqb_spec).
      now destruct (existsb (String.eqb x) l).
    - destruct (existsb (String.eqb u) l && negb (u =? "/")
                && negb (u =? current_path)); [reflexivity |].
      destruct (negb (x =? "/") && negb (x =? current_path)); [| reflexivity].
      rewrite (dict_get_set _ pair_eqb_spec). unfold pair_eqb. simpl.
      destruct (String.eqb_spec x u); [congruence | reflexivity]. }
  rewrite G. simpl.
  destruct (existsb (String.eqb u) (dict_keys breadcrumb_items)
            && negb (u =? "/") && negb (u =? current_path)); reflexivity.
Qed.

(** A path is never a child of itself, nor of a longer path. *)
Lemma _is_child_of_shorter (child_url parent_url : string) :
  parent_url <> "/" ->
  String.length child_url <= String.length parent_url + 1 ->
  _is_child_of child_url parent_url = false.
Proof.
  intros Hne Hlen. unfold _is_child_of.
  destruct (String.eqb_spec parent_url "/"); [contradiction |].
  destruct (Nat.ltb_spec (String.length parent_url + 1) (String.length child_url));
    [lia | reflexivity].
Qed.

(* ================================================================= *)
(** ** The assembly *)

Lemma find_child_Some (path : string) (cs : list node) before child after :
  find_child path cs = Some (before, child, after) ->
  cs = before ++ child :: after /\ url child = path.
Proof.
  revert before. induction cs as [|c cs IH]; simpl; intros before; [discriminate |].
  destruct (String.eqb_spec (url c) path) as [E|Hne].
  - intros [= <- <- <-]. auto.
  - destruct (find_child path cs) as [[[b x] a]|]; [| discriminate].
    intros [= <- <- <-]. destruct (IH b eq_refl) as [-> E]. auto.
Qed.

Lemma find_child_None (path : string) (cs : list node) :
  find_child path cs = None -> Forall (fun c => url c <> path) cs.
Proof.
  induction cs as [|c cs IH]; simpl; [constructor |].
  destruct (String.eqb_spec (url c) path) as [E|Hne]; [discriminate |].
  destruct (find_child path cs) as [[[b x] a]|]; [discriminate |].
  intros _. constructor; auto.
Qed.

Lemma find_child_In (path : string) (cs : list node) (c : node) :
  In c cs -> url c = path ->
  exists before child after, find_child path cs = Some (before, child, after).
Proof.
  intros Hin E. destruct (find_child path cs) as [[[b x] a]|] eqn:F; [eauto |].
  apply find_child_None in F. rewrite Forall_forall in F.
  exfalso. now apply (F c).
Qed.

Lemma set_children_children (n : node) : set_children n (children n) = n.
Proof. now destruct n. Qed.

(** The assembly only ever changes the children of [current_level]. *)
Lemma assemble_header (parent_to_children : dict string (list node))
    (current_path : string) (paths : list string) : forall current_level,
    exists cs,
      assemble parent_to_children current_path paths current_level
      = set_children current_level cs.
Proof.
  induction paths as [|p paths IH]; intros lvl; simpl.
  - exists (children lvl). now rewrite set_children_children.
  - destruct (find_child p (children lvl)) as [[[b c] a]|]; [eauto | apply IH].
Qed.

Lemma nodes_eq (n : node) : nodes n = n :: descendants n.
Proof. now destruct n. Qed.

Lemma flat_map_leaves (cs : list node) :
  Forall (fun c => children c = []) cs -> flat_map nodes cs = cs.
Proof.
  induction 1 as [|c cs Hc _ IH]; simpl; [reflexivity |].
  destruct c as [t u o b ch]. simpl in *. subst ch. simpl. now rewrite IH.
Qed.

Section Assemble.
Variable parent_to_children : dict string (list node).
Variable current_path : string.

Lemma assemble_cons (path : string) (paths : list string) (lvl : node) :
  assemble parent_to_children current_path (path :: paths) lvl
  = match find_child path (children lvl) with
    | Some (before, child, after) =>
        set_children lvl
          (before
           ++ assemble parent_to_children current_path paths
                (attach parent_to_children current_path path child)
           :: after)
    | None => assemble parent_to_children current_path paths lvl
    end.
Proof. reflexivity. Qed.

Lemma attach_header (path : string) (child : node) :
  exists cs,
    attach parent_to_children current_path path child
    = set_children child cs.
Proof.
  unfold attach. destruct (sget parent_to_children path) as [cs|].
  - destruct (negb (path =? current_path)); [eauto |].
    exists (children child). now rewrite set_children_children.
  - exists (children child). now rewrite set_children_children.
Qed.

(** A property of dictionaries that does not look at the children. *)
Variable P : node -> Prop.

Hypothesis P_header : forall n cs, P n -> P (set_children n cs).

Hypothesis groups_P :
  forall k cs, sget parent_to_children k = Some cs -> Forall (leaf_with P) cs.

Lemma attach_children (path : string) (child : node) :
  leaf_with P child ->
  Forall (leaf_with P)
         (children (attach parent_to_children current_path path child)).
Proof.
  intros [_ Hleaf]. unfold attach.
  destruct (sget parent_to_children path) as [cs|] eqn:E.
  - destruct (negb (path =? current_path)); simpl.
    + now apply (groups_P path).
    + rewrite Hleaf. constructor.
  - rewrite Hleaf. constructor.
Qed.

(** Every dictionary below the root of the assembled tree satisfies [P]
    when the members of all groups do. *)
Lemma assemble_descendants (paths : list string) : forall lvl,
    Forall (leaf_with P) (children lvl) ->
    Forall P (descendants
                (assemble parent_to_children current_path paths lvl)).
Proof.
  induction paths as [|p paths IH]; intros lvl Hlvl.
  - simpl. unfold descendants. rewrite flat_map_leaves.
    + eapply Forall_impl; [| exact Hlvl]. now intros n [H _].
    + eapply Forall_impl; [| exact Hlvl]. now intros n [_ H].
  - rewrite assemble_cons.
    destruct (find_child p (children lvl)) as [[[b c] a]|] eqn:F; [| now apply IH].
    apply find_child_Some in F as [Hcs _]. rewrite Hcs in Hlvl.
    apply Forall_app in Hlvl as [Hb Hca].
    inversion Hca as [|? ? Hc Ha]; subst.
    unfold descendants. simpl. rewrite flat_map_app. simpl.
    rewrite !flat_map_leaves
      by (eapply Forall_impl; [| eassumption]; now intros n [_ H]).
    apply Forall_app. split; [| apply Forall_app; split;
                                [rewrite nodes_eq; apply Forall_cons |]].
    + eapply Forall_impl; [| exact Hb]. now intros n [H _].
    + destruct (assemble_header parent_to_children current_path paths
                  (attach parent_to_children current_path p c)) as [cs ->].
      destruct (attach_header p c) as [cs' ->].
      apply P_header, P_header, Hc.
    + apply (IH (attach parent_to_children current_path p c)). now apply attach_children.
    + eapply Forall_impl; [| exact Ha]. now intros n [H _].
Qed.

End Assemble.

(* ================================================================= *)
(** ** The shape of the result *)

Lemma items_of_ok routes metadata current_path :
  items_ok current_path
    (ensure_root current_path (materialize routes metadata current_path)).
Proof. apply ensure_root_ok, materialize_ok. Qed.

Lemma items_of_mem routes metadata current_path (u : string) :
  smem (items_of routes metadata current_path) u
  = is_registered routes u || (u =? "/").
Proof. unfold items_of. now rewrite ensure_root_mem, materialize_mem. Qed.

Lemma items_of_root routes metadata current_path :
  exists root_item,
    sget (items_of routes metadata current_path) "/" = Some root_item.
Proof.
  pose proof (items_of_mem routes metadata current_path "/") as H.
  rewrite String.eqb_refl, orb_true_r in H. unfold dict_mem in H.
  destruct (sget (items_of routes metadata current_path) "/"); [eauto | discriminate].
Qed.

(** No breadcrumb item: the empty dictionary. *)
Lemma build_tree_empty routes metadata current_path :
  existsb is_breadcrumb_route routes = false ->
  build_tree routes metadata current_path = Returns None.
Proof.
  intros H. apply (materialize_nil routes metadata current_path) in H.
  unfold build_tree. now rewrite H.
Qed.

(** The root path: the root dictionary alone. *)
Lemma build_tree_root routes metadata :
  existsb is_breadcrumb_route routes = true ->
  exists root_item,
    sget (items_of routes metadata "/") "/" = Some root_item
    /\ build_tree routes metadata "/"
       = Returns (Some (Node (resolve (item_text root_item)) "/"
                             (item_order root_item) true [])).
Proof.
  intros H. destruct (items_of_root routes metadata "/") as [root_item Hr].
  exists root_item. split; [assumption |].
  unfold build_tree.
  destruct (fst (materialize routes metadata "/")) eqn:E.
  - apply materialize_nil in E. congruence.
  - rewrite String.eqb_refl. fold (items_of routes metadata "/"). now rewrite Hr.
Qed.

(** Any other path: the assembled tree. *)
Lemma build_tree_main routes metadata current_path :
  existsb is_breadcrumb_route routes = true ->
  current_path <> "/" ->
  exists root_item,
    sget (items_of routes metadata current_path) "/" = Some root_item
    /\ build_tree routes metadata current_path
       = Returns
           (Some (assemble (groups_of routes metadata current_path)
                    current_path
                    (path_from_root routes metadata current_path)
                    (Node (resolve (item_text root_item)) "/"
                          (item_order root_item)
                          (sget_default
                             (current_map_of routes metadata current_path)
                             "/" false)
                          (sget_default
                             (groups_of routes metadata current_path)
                             "/" [])))).
Proof.
  intros H Hcp.
  destruct (items_of_root routes metadata current_path) as [root_item Hr].
  exists root_item. split; [assumption |].
  unfold build_tree.
  destruct (fst (materialize routes metadata current_path)) eqn:E.
  { apply materialize_nil in E. congruence. }
  clear E.
  fold (items_of routes metadata current_path).
  fold (current_map_of routes metadata current_path).
  destruct (String.eqb_spec current_path "/"); [contradiction |].
  rewrite (walk_ancestors _ _ (parent_urls_ok _)) by lia.
  simpl app.
  pose proof (items_of_mem routes metadata current_path "/") as Hm.
  rewrite String.eqb_refl, orb_true_r in Hm. rewrite Hm.
  fold (ancestor_chain current_path).
  destruct (filter (smem (items_of routes metadata current_path))
                   (ancestor_chain current_path) ++ ["/"]) eqn:Hp.
  { destruct (filter (smem (items_of routes metadata current_path))
                     (ancestor_chain current_path)); discriminate. }
  rewrite <- Hp, Hr, rev_app_distr. reflexivity.
Qed.

(** [_build_breadcrumb_tree] always returns. *)
Lemma build_tree_returns routes metadata current_path :
  exists r, build_tree routes metadata current_path = Returns r.
Proof.
  destruct (existsb is_breadcrumb_route routes) eqn:E.
  - destruct (String.eqb_spec current_path "/") as [->|Hne].
    + destruct (build_tree_root routes metadata E) as (i & _ & ->). eauto.
    + destruct (build_tree_main routes metadata current_path E Hne)
        as (i & _ & ->). eauto.
  - rewrite build_tree_empty by assumption. eauto.
Qed.

(* ================================================================= *)
(** ** The members of the groups *)

Lemma NoDup_map_filter {A B : Type} (g : A -> B) (f : A -> bool) (l : list A) :
  NoDup (map g l) -> NoDup (map g (filter f l)).
Proof.
  induction l as [|e l IH]; simpl; [constructor |].
  intros Hnd. inversion Hnd as [|? ? Hnot Hnd']; subst.
  destruct (f e); simpl; [| now apply IH].
  constructor; [| now apply IH].
  intros Hin. apply Hnot. apply in_map_iff in Hin as (x & Hx & Hf).
  apply filter_In in Hf as [Hf _]. apply in_map_iff. eauto.
Qed.

Section Groups.
Variable routes : list route.
Variable metadata : dict string metadata_entry.
Variable current_path : string.

Let breadcrumb_items := items_of routes metadata current_path.

Let is_current_path_map := current_map_of routes metadata current_path.

Let is_child_map := child_relationships breadcrumb_items current_path.

Lemma groups_of_get (k : string) :
  sget (groups_of routes metadata current_path) k
  = match group_members is_child_map current_path k breadcrumb_items with
    | [] => None
    | ms => Some (sort_by node_key (map (group_node is_current_path_map) ms))
    end.
Proof.
  unfold groups_of. rewrite sort_groups_get.
  rewrite (fold_group_get _ _ _ _ _ (parent_urls_ok _)).
  fold breadcrumb_items is_child_map is_current_path_map.
  now destruct (group_members is_child_map current_path k breadcrumb_items).
Qed.

Lemma current_map_get (u : string) :
  smem breadcrumb_items u = true ->
  sget_default is_current_path_map u false = (u =? current_path).
Proof.
  intros Hm. destruct (items_of_ok routes metadata current_path)
    as [_ Hk _ Hc].
  apply (dict_mem_In _ String.eqb_spec) in Hm.
  unfold breadcrumb_items, items_of in Hm. rewrite <- Hk in Hm.
  apply (dict_mem_In _ String.eqb_spec) in Hm. unfold dict_mem in Hm.
  unfold dict_get_default, is_current_path_map, current_map_of.
  destruct (sget (snd (ensure_root current_path
                         (materialize routes metadata current_path))) u)
    eqn:E; [now apply Hc | discriminate].
Qed.

Lemma In_items_mem (e : string * BreadcrumbItem) :
  In e breadcrumb_items -> smem breadcrumb_items (fst e) = true.
Proof.
  intros Hin. apply (dict_mem_In _ String.eqb_spec).
  unfold dict_keys. now apply in_map.
Qed.

Lemma group_member_ok (k : string) (e : string * BreadcrumbItem) :
  In e (group_members is_child_map current_path k breadcrumb_items) ->
  member_ok breadcrumb_items current_path k
            (group_node is_current_path_map e).
Proof.
  unfold group_members. rewrite filter_In. intros [Hin Hk].
  apply andb_prop in Hk as [Hkeep Hpar].
  apply andb_prop in Hkeep as [Hroot Hchild].
  pose proof (In_items_mem e Hin) as Hm.
  unfold member_ok, group_node. simpl.
  repeat split.
  - assumption.
  - intros E. rewrite E in Hroot. discriminate.
  - now apply String.eqb_eq.
  - now apply current_map_get.
  - intros Hcp. unfold is_child_map in Hchild.
    rewrite child_relationships_get in Hchild.
    assert (Hex : existsb (String.eqb (fst e)) (dict_keys breadcrumb_items) = true).
    { apply existsb_exists. exists (fst e). split; [| apply String.eqb_refl].
      unfold dict_keys. now apply in_map. }
    rewrite Hex, Hroot in Hchild. simpl in Hchild.
    destruct (String.eqb_spec (fst e) current_path) as [->|Hne].
    + apply _is_child_of_shorter; [assumption | lia].
    + simpl in Hchild. now destruct (_is_child_of (fst e) current_path).
Qed.

Lemma groups_of_members (k : string) (cs : list node) :
  sget (groups_of routes metadata current_path) k = Some cs ->
  Forall (member_ok breadcrumb_items current_path k) cs.
Proof.
  rewrite groups_of_get.
  destruct (group_members is_child_map current_path k breadcrumb_items)
    as [|m ms] eqn:E; [discriminate |].
  intros H.
  assert (Hcs : cs = sort_by node_key
                       (map (group_node is_current_path_map) (m :: ms)))
    by congruence.
  rewrite Hcs. clear H Hcs cs.
  apply Forall_forall. intros n Hn.
  apply sort_by_In in Hn. apply in_map_iff in Hn as (e & <- & He).
  apply group_member_ok. now rewrite E.
Qed.

Lemma groups_of_sorted (k : string) (cs : list node) :
  sget (groups_of routes metadata current_path) k = Some cs ->
  sorted_keys (map node_key cs).
Proof.
  rewrite groups_of_get.
  destruct (group_members is_child_map current_path k breadcrumb_items)
    as [|m ms]; [discriminate |].
  intros H.
  assert (Hcs : cs = sort_by node_key
                       (map (group_node is_current_path_map) (m :: ms)))
    by congruence.
  rewrite Hcs. apply sort_by_sorted.
Qed.

Lemma groups_of_nodup (k : string) (cs : list node) :
  sget (groups_of routes metadata current_path) k = Some cs ->
  NoDup (map url cs).
Proof.
  rewrite groups_of_get.
  destruct (group_members is_child_map current_path k breadcrumb_items)
    as [|m ms] eqn:E; [discriminate |].
  intros H.
  assert (Hcs : cs = sort_by node_key
                       (map (group_node is_current_path_map) (m :: ms)))
    by congruence.
  rewrite Hcs. clear H Hcs cs. rewrite <- E.
  eapply Permutation_NoDup.
  { apply Permutation_sym, Permutation_map, sort_by_perm. }
  rewrite map_map. simpl.
  change (fun x : string * BreadcrumbItem => fst x) with (@fst string BreadcrumbItem).
  destruct (items_of_ok routes metadata current_path) as [Hnd _ _ _].
  fold (items_of routes metadata current_path) in Hnd.
  fold breadcrumb_items in Hnd.
  unfold group_members. now apply NoDup_map_filter.
Qed.

(** A registered path that is not below the current path is a member of
    the group of its parent. *)
Lemma groups_of_complete (u : string) :
  current_path <> "/" ->
  smem breadcrumb_items u = true ->
  u <> "/" ->
  _is_child_of u current_path = false ->
  exists cs n,
    sget (groups_of routes metadata current_path) (_get_parent_url u) = Some cs
    /\ In n cs /\ url n = u.
Proof.
  intros Hcp Hm Hroot Hchild.
  apply (dict_mem_In _ String.eqb_spec) in Hm as Hin.
  unfold dict_keys in Hin. apply in_map_iff in Hin as (e & He & Hin).
  assert (Hmem : In e (group_members is_child_map current_path
                         (_get_parent_url u) breadcrumb_items)).
  { unfold group_members. apply filter_In. split; [assumption |].
    unfold group_keeps. rewrite He, String.eqb_refl, andb_true_r.
    unfold is_child_map. rewrite child_relationships_get, Hchild.
    rewrite andb_false_r. simpl. rewrite andb_true_r.
    now destruct (String.eqb_spec u "/"). }
  rewrite groups_of_get.
  destruct (group_members is_child_map current_path (_get_parent_url u)
              breadcrumb_items) as [|m ms] eqn:E; [contradiction |].
  eexists. exists (group_node is_current_path_map e).
  split; [reflexivity |]. split.
  - apply sort_by_In. now apply in_map.
  - exact He.
Qed.

End Groups.

(* ================================================================= *)
(** ** The dictionaries of the returned tree *)

Lemma member_below_root breadcrumb_items current_path k n :
  current_path <> "/" ->
  member_ok breadcrumb_items current_path k n ->
  leaf_with (below_root_ok breadcrumb_items current_path) n.
Proof.
  intros Hcp (Hleaf & Hm & Hr & _ & Hc & Hch).
  split; [| assumption]. repeat split; auto.
Qed.

Lemma sget_default_members routes metadata current_path k :
  Forall (member_ok (items_of routes metadata current_path) current_path k)
         (sget_default (groups_of routes metadata current_path) k []).
Proof.
  unfold dict_get_default.
  destruct (sget (groups_of routes metadata current_path) k) eqn:E;
    [now apply groups_of_members | constructor].
Qed.

(** The tree built for a path other than the root. *)
Lemma build_tree_below_root routes metadata current_path t :
  current_path <> "/" ->
  build_tree routes metadata current_path = Returns (Some t) ->
  url t = "/" /\ is_current_path t = false
  /\ Forall (below_root_ok (items_of routes metadata current_path) current_path)
            (descendants t).
Proof.
  intros Hcp Hb.
  destruct (existsb is_breadcrumb_route routes) eqn:E;
    [| rewrite build_tree_empty in Hb by assumption; discriminate].
  destruct (build_tree_main routes metadata current_path E Hcp)
    as (root_item & Hr & Heq).
  rewrite Heq in Hb. injection Hb as <-.
  match goal with |- context [assemble ?G ?c ?p ?r] =>
    destruct (assemble_header G c p r) as [cs Hcs];
    pose proof (assemble_descendants G c
                  (below_root_ok (items_of routes metadata current_path)
                                 current_path)) as Hd;
    specialize (fun H1 H2 => Hd H1 H2 p r)
  end.
  rewrite Hcs at 1 2. simpl. split; [reflexivity |]. split.
  - rewrite current_map_get.
    + now apply String.eqb_neq, not_eq_sym.
    + rewrite items_of_mem. now rewrite String.eqb_refl, orb_true_r.
  - apply Hd.
    + intros n cs' (Hm & Hroot & Hc & Hch). now repeat split.
    + intros k cs' Hk. apply groups_of_members in Hk.
      eapply Forall_impl; [| exact Hk]. intros n.
      now apply member_below_root.
    + simpl. eapply Forall_impl; [| apply sget_default_members].
      intros n. now apply member_below_root.
Qed.

Lemma _build_breadcrumb_tree_eq self current_app current_path :
  fst (_build_breadcrumb_tree self current_app current_path)
  = build_tree (catalog self current_app) (breadcrumb_metadata self)
               current_path.
Proof.
  unfold _build_breadcrumb_tree, catalog, _get_routes.
  now destruct (_routes_cache self).
Qed.

(** The synthesised root. *)
Lemma items_of_default_root routes metadata current_path :
  is_registered routes "/" = false ->
  sget (items_of routes metadata current_path) "/"
  = Some (BreadcrumbItem_init (Static "Home") "/" (Some 0%Z)
                              (current_path =? "/")).
Proof.
  intros H. unfold items_of, ensure_root.
  rewrite <- (materialize_mem routes metadata current_path) in H.
  destruct (materialize routes metadata current_path) as [items icm].
  simpl in H. rewrite H. simpl.
  now rewrite (dict_get_set _ String.eqb_spec), String.eqb_refl.
Qed.

Lemma ancestors_not_root (fuel : nat) : forall path u,
    In u (ancestors fuel path) -> u <> "/".
Proof.
  induction fuel as [|fuel IH]; simpl; intros path u; [tauto |].
  destruct (String.eqb_spec path "/") as [|Hne]; [intros [] |].
  intros [<-|H]; [assumption | eauto].
Qed.

(* ================================================================= *)
(** ** Facts about the regular expressions *)

Lemma is_suffix_refl (s : string) : is_suffix s s.
Proof. now exists "". Qed.

Lemma is_suffix_cons (c : ascii) (r s : string) :
  is_suffix r s -> is_suffix r (String c s).
Proof. intros [p ->]. now exists (String c p). Qed.

Lemma is_suffix_length (r s : string) :
  is_suffix r s -> String.length r <= String.length s.
Proof. intros [p ->]. rewrite string_length_app. lia. Qed.

Lemma more_suffix (a : Re.atom) (k : string -> option string) :
  (forall s r, k s = Some r -> is_suffix r s) ->
  forall s r, Re.more a k s = Some r -> is_suffix r s.
Proof.
  intros Hk. induction s as [|c s IH]; simpl; intros r; [apply Hk |].
  destruct (Re.accepts a c); [| apply Hk].
  destruct (Re.more a k s) as [x|] eqn:E.
  - intros [= <-]. apply is_suffix_cons. now apply IH.
  - apply Hk.
Qed.

(** A match is a prefix of the string: what is left is a suffix. *)
Lemma match_here_suffix (re : Re.regex) : forall s r,
    Re.match_here re s = Some r -> is_suffix r s.
Proof.
  induction re as [|[a|a] re IH]; simpl; intros s r.
  - intros [= <-]. apply is_suffix_refl.
  - destruct s as [|c s]; [discriminate |].
    destruct (Re.accepts a c); [| discriminate].
    intros H. apply is_suffix_cons. now apply IH.
  - destruct s as [|c s]; [discriminate |].
    destruct (Re.accepts a c); [| discriminate].
    intros H. apply is_suffix_cons. revert H. now apply more_suffix.
Qed.

(** A pattern that starts with a single character matches at least one. *)
Lemma match_here_shorter (a : Re.atom) (re : Re.regex) (s r : string) :
  Re.match_here (Re.One a :: re) s = Some r ->
  String.length r < String.length s.
Proof.
  simpl. destruct s as [|c s]; [discriminate |].
  destruct (Re.accepts a c); [| discriminate].
  intros H. apply match_here_suffix, is_suffix_length in H. simpl. lia.
Qed.

Lemma sub_scan_skip (re : Re.regex) (repl : string) (p r : string) :
  Re.sub_scan re repl (p ++ r) (String.length p) = Re.sub_scan re repl r 0.
Proof. induction p as [|c p IH]; simpl; [reflexivity | exact IH]. Qed.

(** One step of [re.sub] for a pattern that starts with a single
    character. *)
Lemma sub_cons (a : Re.atom) (re : Re.regex) (repl : string) (c : ascii)
    (s : string) :
  Re.sub (Re.One a :: re) repl (String c s)
  = match Re.match_here (Re.One a :: re) (String c s) with
    | Some r => (repl ++ Re.sub (Re.One a :: re) repl r)%string
    | None => String c (Re.sub (Re.One a :: re) repl s)
    end.
Proof.
  unfold Re.sub at 1. cbn [Re.sub_scan]. unfold Re.match_len.
  destruct (Re.match_here (Re.One a :: re) (String c s)) as [r|] eqn:E;
    [| reflexivity].
  pose proof (match_here_shorter _ _ _ _ E) as Hlt.
  destruct (match_here_suffix _ _ _ E) as [p Hp].
  destruct p as [|c' p]; simpl in Hp.
  { rewrite <- Hp in Hlt. lia. }
  injection Hp as <- ->.
  replace (String.length (String c (p ++ r)) - String.length r)
    with (S (String.length p))
    by (cbn [String.length]; rewrite string_length_app; lia).
  now rewrite sub_scan_skip.
Qed.

Lemma sub_nil (re : Re.regex) (a : Re.atom) (repl : string) :
  Re.sub (Re.One a :: re) repl "" = "".
Proof. reflexivity. Qed.

(** *** The pattern [//+] *)

Lemma more_slashes (k : string -> option string) (s : string) :
  (forall r, k r = Some r) ->
  Re.more (Re.Chr slash) k s = Some (lstrip slash s).
Proof.
  intros Hk. induction s as [|c s IH]; simpl; [apply Hk |].
  destruct (Ascii.eqb c slash); [now rewrite IH | apply Hk].
Qed.

Lemma match_duplicate_slashes (s : string) :
  Re.match_here duplicate_slashes s
  = match s with
    | String c1 (String c2 r) =>
        if Ascii.eqb c1 slash && Ascii.eqb c2 slash
        then Some (lstrip slash r) else None
    | _ => None
    end.
Proof.
  unfold duplicate_slashes. simpl.
  destruct s as [|c1 [|c2 r]]; try reflexivity.
  - now destruct (Ascii.eqb c1 slash).
  - destruct (Ascii.eqb c1 slash); [| reflexivity].
    destruct (Ascii.eqb c2 slash); [now apply more_slashes | reflexivity].
Qed.

Lemma lstrip_head (s : string) : head (lstrip slash s) <> Some slash.
Proof.
  induction s as [|c s IH]; simpl; [discriminate |].
  destruct (Ascii.eqb_spec c slash); [assumption |].
  simpl. congruence.
Qed.

Lemma lstrip_suffix (s : string) : is_suffix (lstrip slash s) s.
Proof.
  induction s as [|c s IH]; simpl; [apply is_suffix_refl |].
  destruct (Ascii.eqb c slash); [now apply is_suffix_cons | apply is_suffix_refl].
Qed.

(** Collapsing slashes keeps the first character. *)
Lemma sub_slashes_head (s : string) :
  head (Re.sub duplicate_slashes "/" s) = head s.
Proof.
  destruct s as [|c s]; [reflexivity |].
  unfold duplicate_slashes. rewrite sub_cons.
  fold duplicate_slashes. rewrite match_duplicate_slashes.
  destruct s as [|c2 r]; [reflexivity |].
  destruct (Ascii.eqb_spec c slash) as [->|]; [| reflexivity].
  destruct (Ascii.eqb c2 slash); reflexivity.
Qed.

Lemma match_slashes_head (s : string) :
  Re.match_here duplicate_slashes (String slash s) = None <-> head s <> Some slash.
Proof.
  rewrite match_duplicate_slashes. destruct s as [|c r]; simpl.
  - split; [discriminate | reflexivity].
  - destruct (Ascii.eqb_spec c slash) as [->|Hne]; simpl.
    + split; [discriminate | congruence].
    + split; [congruence | reflexivity].
Qed.

(** After collapsing, no two slashes are adjacent. *)
Lemma sub_slashes_no_match (s : string) :
  Re.search duplicate_slashes (Re.sub duplicate_slashes "/" s) = false.
Proof.
  remember (String.length s) as n eqn:Hn. revert s Hn.
  induction n as [n IH] using lt_wf_ind. intros s Hn.
  destruct s as [|c s]; [reflexivity |].
  unfold duplicate_slashes at 2. rewrite sub_cons. fold duplicate_slashes.
  destruct (Re.match_here duplicate_slashes (String c s)) as [r|] eqn:E.
  - pose proof E as E'. unfold duplicate_slashes in E'.
    apply match_here_shorter in E'.
    rewrite match_duplicate_slashes in E.
    destruct s as [|c2 t]; [discriminate |].
    destruct (Ascii.eqb c slash && Ascii.eqb c2 slash); [| discriminate].
    injection E as <-.
    change ("/" ++ Re.sub duplicate_slashes "/" (lstrip slash t))%string
      with (String slash (Re.sub duplicate_slashes "/" (lstrip slash t))).
    cbn [Re.search].
    replace (Re.match_here duplicate_slashes
               (String slash (Re.sub duplicate_slashes "/" (lstrip slash t))))
      with (@None string).
    + apply (IH (String.length (lstrip slash t))); [subst n; exact E' | reflexivity].
    + symmetry. apply match_slashes_head. rewrite sub_slashes_head.
      apply lstrip_head.
  - cbn [Re.search].
    replace (Re.match_here duplicate_slashes
               (String c (Re.sub duplicate_slashes "/" s)))
      with (@None string).
    + apply (IH (String.length s)); [subst n; simpl; lia | reflexivity].
    + symmetry. rewrite match_duplicate_slashes in *.
      pose proof (sub_slashes_head s) as Hh.
      destruct (Re.sub duplicate_slashes "/" s) as [|c2 r]; [reflexivity |].
      destruct s as [|c2' r']; [discriminate |].
      simpl in Hh. injection Hh as ->.
      destruct (Ascii.eqb c slash && Ascii.eqb c2' slash);
        [discriminate | reflexivity].
Qed.

(** *** The pattern [<[^>]+>] *)

Lemma more_not_gt (s : string) :
  Re.more (Re.NotChr gt) (Re.match_here [Re.One (Re.Chr gt)]) s
  = after_char gt s.
Proof.
  induction s as [|c s IH]; [reflexivity |].
  cbn [Re.more after_char Re.accepts]. rewrite IH.
  cbn [Re.match_here Re.accepts].
  destruct (Ascii.eqb c gt); simpl; [reflexivity |].
  now destruct (after_char gt s).
Qed.

Lemma match_variable_part (s : string) :
  Re.match_here variable_part s
  = match s with
    | String c (String d r) =>
        if Ascii.eqb c lt && negb (Ascii.eqb d gt)
        then after_char gt r else None
    | _ => None
    end.
Proof.
  unfold variable_part. cbn [Re.match_here Re.accepts].
  destruct s as [|c [|d r]]; try reflexivity.
  - now destruct (Ascii.eqb c "<").
  - fold gt lt. destruct (Ascii.eqb c lt); [| reflexivity]. simpl.
    destruct (Ascii.eqb d gt); simpl; [reflexivity | apply more_not_gt].
Qed.

Lemma after_char_suffix (g : ascii) (s r p : string) :
  after_char g (p ++ s) = None -> after_char g s = None.
Proof.
  induction p as [|c p IH]; simpl; [tauto |].
  destruct (Ascii.eqb c g); [discriminate | exact IH].
Qed.

Lemma after_char_app (g : ascii) (s r x : string) :
  after_char g s = Some r -> after_char g (s ++ x) = Some (r ++ x)%string.
Proof.
  induction s as [|c s IH]; simpl; [discriminate |].
  destruct (Ascii.eqb c g); [now intros [= ->] | exact IH].
Qed.

(** Without a [>] there is nothing to strip. *)
Lemma sub_variable_no_gt (s : string) :
  after_char gt s = None -> Re.sub variable_part "" s = s.
Proof.
  induction s as [|c s IH]; [reflexivity |].
  intros H. unfold variable_part. rewrite sub_cons. fold variable_part.
  rewrite match_variable_part.
  simpl in H. destruct (Ascii.eqb c gt); [discriminate |].
  rewrite (IH H).
  destruct s as [|d r]; [reflexivity |].
  destruct (Ascii.eqb c lt && negb (Ascii.eqb d gt)); [| reflexivity].
  simpl in H. destruct (Ascii.eqb d gt); [discriminate |]. now rewrite H.
Qed.

Lemma search_cons (re : Re.regex) (c : ascii) (s : string) :
  Re.search re (String c s)
  = match Re.match_here re (String c s) with
    | Some _ => true
    | None => Re.search re s
    end.
Proof. reflexivity. Qed.

Lemma search_suffix (re : Re.regex) (p s : string) :
  Re.search re (p ++ s) = false -> Re.search re s = false.
Proof.
  induction p as [|c p IH]; [tauto |].
  simpl append. rewrite search_cons.
  destruct (Re.match_here re (String c (p ++ s))); [discriminate | exact IH].
Qed.

(** After stripping, no variable part is left. *)
Lemma sub_variable_no_match (s : string) :
  Re.search variable_part (Re.sub variable_part "" s) = false.
Proof.
  remember (String.length s) as n eqn:Hn. revert s Hn.
  induction n as [n IH] using lt_wf_ind. intros s Hn.
  destruct s as [|c s]; [reflexivity |].
  unfold variable_part at 2. rewrite sub_cons. fold variable_part.
  destruct (Re.match_here variable_part (String c s)) as [r|] eqn:E.
  - pose proof E as E'. unfold variable_part in E'.
    apply match_here_shorter in E'.
    apply (IH (String.length r)); [subst n; exact E' | reflexivity].
  - rewrite search_cons.
    rewrite (IH (String.length s)) by (subst n; simpl; lia || reflexivity).
    rewrite match_variable_part in *.
    destruct (Re.sub variable_part "" s) as [|d' r'] eqn:Es; [reflexivity |].
    destruct (Ascii.eqb_spec c lt) as [->|]; [| reflexivity]. simpl in *.
    destruct s as [|d r]; [discriminate |].
    destruct (Ascii.eqb_spec d gt) as [->|Hd]; simpl in E.
    + unfold variable_part in Es. rewrite sub_cons in Es.
      fold variable_part in Es. rewrite match_variable_part in Es.
      destruct r as [|e r]; simpl in Es; injection Es as <- <-;
        now rewrite Ascii.eqb_refl.
    + assert (Hno : after_char gt (String d r) = None).
      { simpl. destruct (Ascii.eqb_spec d gt); [contradiction | exact E]. }
      rewrite (sub_variable_no_gt _ Hno) in Es. injection Es as <- <-.
      destruct (Ascii.eqb d gt); simpl; [reflexivity | now rewrite E].
Qed.

(** Collapsing slashes neither adds a [>] nor a variable part. *)
Lemma sub_slashes_no_gt (s : string) :
  after_char gt s = None ->
  after_char gt (Re.sub duplicate_slashes "/" s) = None.
Proof.
  remember (String.length s) as n eqn:Hn. revert s Hn.
  induction n as [n IH] using lt_wf_ind. intros s Hn H.
  destruct s as [|c s]; [reflexivity |].
  unfold duplicate_slashes. rewrite sub_cons. fold duplicate_slashes.
  destruct (Re.match_here duplicate_slashes (String c s)) as [r|] eqn:E.
  - pose proof E as E'. unfold duplicate_slashes in E'.
    apply match_here_shorter in E'.
    destruct (match_here_suffix _ _ _ E) as [p Hp].
    rewrite Hp in H. apply after_char_suffix in H; [| exact ""].
    change ("/" ++ Re.sub duplicate_slashes "/" r)%string
      with (String slash (Re.sub duplicate_slashes "/" r)).
    cbn [after_char]. change (Ascii.eqb slash gt) with false.
    apply (IH (String.length r)); [subst n; exact E' | reflexivity | exact H].
  - simpl in *. destruct (Ascii.eqb c gt); [discriminate |].
    apply (IH (String.length s)); [subst n; simpl; lia | reflexivity | exact H].
Qed.

Lemma sub_slashes_no_variable (s : string) :
  Re.search variable_part s = false ->
  Re.search variable_part (Re.sub duplicate_slashes "/" s) = false.
Proof.
  remember (String.length s) as n eqn:Hn. revert s Hn.
  induction n as [n IH] using lt_wf_ind. intros s Hn H.
  destruct s as [|c s]; [reflexivity |].
  unfold duplicate_slashes. rewrite sub_cons. fold duplicate_slashes.
  destruct (Re.match_here duplicate_slashes (String c s)) as [r|] eqn:E.
  - pose proof E as E'. unfold duplicate_slashes in E'.
    apply match_here_shorter in E'.
    destruct (match_here_suffix _ _ _ E) as [p Hp].
    rewrite Hp in H. apply search_suffix in H.
    change ("/" ++ Re.sub duplicate_slashes "/" r)%string
      with (String slash (Re.sub duplicate_slashes "/" r)).
    rewrite search_cons, match_variable_part.
    replace (match Re.sub duplicate_slashes "/" r with
             | "" => None
             | String d r0 =>
                 if Ascii.eqb slash lt && negb (Ascii.eqb d gt)
                 then after_char gt r0 else None
             end) with (@None string)
      by (now destruct (Re.sub duplicate_slashes "/" r)).
    apply (IH (String.length r)); [subst n; exact E' | reflexivity | exact H].
  - rewrite search_cons in H |- *.
    destruct (Re.match_here variable_part (String c s)) eqn:Ev; [discriminate |].
    rewrite (IH (String.length s)) by (subst n; simpl; lia || easy).
    rewrite match_variable_part in *.
    pose proof (sub_slashes_head s) as Hh.
    destruct (Re.sub duplicate_slashes "/" s) as [|d' r'] eqn:Es; [reflexivity |].
    destruct s as [|d r]; [discriminate |].
    simpl in Hh. injection Hh as ->.
    destruct (Ascii.eqb c lt && negb (Ascii.eqb d gt)) eqn:C; [| reflexivity].
    apply andb_prop in C as [_ Hd]. apply negb_true_iff in Hd.
    assert (Hno : after_char gt (String d r) = None)
      by (simpl; now rewrite Hd).
    apply sub_slashes_no_gt in Hno. rewrite Es in Hno. simpl in Hno.
    rewrite Hd in Hno. now rewrite Hno.
Qed.

(** The matcher on a few strings, as [re.sub] treats them. *)
Lemma sub_examples :
  Re.sub variable_part "" "/user/<int:id>/edit" = "/user//edit"
  /\ Re.sub variable_part "" "/x<>y" = "/x<>y"
  /\ Re.sub variable_part "" "/<a><b>/c<d" = "//c<d"
  /\ Re.sub variable_part "" "<<a>b>" = "b>"
  /\ Re.sub duplicate_slashes "/" "//a///b/c//" = "/a/b/c/"
  /\ Re.sub duplicate_slashes "/" "" = "".
Proof. repeat split; vm_compute; reflexivity. Qed.

(** *** Removing the trailing slash *)

Lemma drop_last_snoc (s : string) :
  s = "" \/ exists c, s = (PyStr.drop_last s ++ String c "")%string.
Proof.
  induction s as [|a s IH]; [now left | right].
  destruct IH as [->|[c Hc]]; [now exists a |].
  exists c. destruct s as [|b s]; [discriminate |].
  change (PyStr.drop_last (String a (String b s)))
    with (String a (PyStr.drop_last (String b s))).
  cbn [append]. f_equal. exact Hc.
Qed.

Lemma search_prefix (re : Re.regex) :
  (forall s x, Re.match_here re (s ++ x) = None -> Re.match_here re s = None) ->
  forall s x, Re.search re (s ++ x) = false -> Re.search re s = false.
Proof.
  intros Hm. induction s as [|c s IH]; intros x H.
  - simpl in H. assert (Hx : Re.match_here re x = None).
    { destruct x; simpl in H; destruct (Re.match_here re _); congruence. }
    simpl. now rewrite (Hm "" x Hx).
  - simpl append in H. rewrite search_cons in H |- *.
    destruct (Re.match_here re (String c (s ++ x))) eqn:E; [discriminate |].
    rewrite (Hm (String c s) x E). now apply (IH x).
Qed.

Lemma match_slashes_prefix (s x : string) :
  Re.match_here duplicate_slashes (s ++ x) = None ->
  Re.match_here duplicate_slashes s = None.
Proof.
  rewrite !match_duplicate_slashes.
  destruct s as [|c1 [|c2 r]]; try reflexivity. simpl.
  now destruct (Ascii.eqb c1 slash && Ascii.eqb c2 slash).
Qed.

Lemma match_variable_prefix (s x : string) :
  Re.match_here variable_part (s ++ x) = None ->
  Re.match_here variable_part s = None.
Proof.
  rewrite !match_variable_part.
  destruct s as [|c [|d r]]; try reflexivity. simpl.
  destruct (Ascii.eqb c lt && negb (Ascii.eqb d gt)); [| reflexivity].
  destruct (after_char gt r) eqn:E; [| reflexivity].
  now rewrite (after_char_app _ _ _ x E).
Qed.

Lemma drop_last_search (re : Re.regex) (s : string) :
  (forall s x, Re.match_here re (s ++ x) = None -> Re.match_here re s = None) ->
  Re.search re s = false -> Re.search re (PyStr.drop_last s) = false.
Proof.
  intros Hm H. destruct (drop_last_snoc s) as [->|[c Hc]]; [exact H |].
  rewrite Hc in H. now apply (search_prefix re Hm) in H.
Qed.

(** Without two adjacent slashes, one trailing slash is all there is. *)
Lemma drop_last_endswith (s : string) :
  Re.search duplicate_slashes s = false ->
  PyStr.endswith s slash = true ->
  PyStr.endswith (PyStr.drop_last s) slash = false.
Proof.
  induction s as [|a s IH]; [reflexivity |].
  destruct s as [|b s]; [reflexivity |].
  intros Hs He.
  change (PyStr.endswith (String a (String b s)) slash)
    with (PyStr.endswith (String b s) slash) in He.
  change (PyStr.drop_last (String a (String b s)))
    with (String a (PyStr.drop_last (String b s))).
  rewrite search_cons in Hs.
  destruct (Re.match_here duplicate_slashes (String a (String b s))) eqn:E;
    [discriminate |].
  specialize (IH Hs He).
  destruct s as [|c s].
  - rewrite match_duplicate_slashes in E.
    change (Ascii.eqb b slash = true) in He.
    change (Ascii.eqb a slash = false).
    rewrite He, andb_true_r in E.
    now destruct (Ascii.eqb a slash).
  - change (PyStr.drop_last (String b (String c s)))
      with (String b (PyStr.drop_last (String c s))) in *.
    exact IH.
Qed.

(* ================================================================= *)
(** ** The catalog URLs *)

Lemma normalize_url_no_variable (s : string) :
  Re.search variable_part (normalize_url s) = false.
Proof.
  unfold normalize_url.
  pose proof (sub_slashes_no_variable _ (sub_variable_no_match s)) as H.
  destruct (negb (_ =? "/") && PyStr.endswith _ slash); [| exact H].
  apply drop_last_search; [exact match_variable_prefix | exact H].
Qed.

Lemma normalize_url_no_slashes (s : string) :
  Re.search duplicate_slashes (normalize_url s) = false.
Proof.
  unfold normalize_url.
  pose proof (sub_slashes_no_match (Re.sub variable_part "" s)) as H.
  destruct (negb (_ =? "/") && PyStr.endswith _ slash); [| exact H].
  apply drop_last_search; [exact match_slashes_prefix | exact H].
Qed.

Lemma normalize_url_canonical (s : string) : canonical_url (normalize_url s).
Proof.
  unfold normalize_url, canonical_url.
  pose proof (sub_slashes_no_match (Re.sub variable_part "" s)) as H.
  destruct (String.eqb_spec (Re.sub duplicate_slashes "/"
                               (Re.sub variable_part "" s)) "/") as [E|Hne];
    simpl; [now left | right].
  destruct (PyStr.endswith (Re.sub duplicate_slashes "/"
                              (Re.sub variable_part "" s)) slash) eqn:He;
    [| exact He].
  now apply drop_last_endswith.
Qed.

(** A canonical URL is left as it is. *)
Lemma sub_no_match (a : Re.atom) (re : Re.regex) (repl s : string) :
  Re.search (Re.One a :: re) s = false -> Re.sub (Re.One a :: re) repl s = s.
Proof.
  induction s as [|c s IH]; [reflexivity |].
  rewrite search_cons, sub_cons.
  destruct (Re.match_here (Re.One a :: re) (String c s)); [discriminate |].
  intros H. now rewrite IH.
Qed.


(* ================================================================= *)
(** ** Prefixes and pruning *)

Lemma prefix_cons (a b : ascii) (p s : string) :
  String.prefix (String a p) (String b s)
  = if Ascii.eqb a b then String.prefix p s else false.
Proof.
  unfold String.prefix at 1. fold String.prefix.
  destruct (ascii_dec a b) as [->|Hne].
  - now rewrite Ascii.eqb_refl.
  - destruct (Ascii.eqb_spec a b); [contradiction | reflexivity].
Qed.

Lemma prefix_app_inv (p s : string) :
  String.prefix p s = true -> exists r, s = (p ++ r)%string.
Proof.
  revert s. induction p as [|a p IH]; intros s H.
  - now exists s.
  - destruct s as [|b s]; [discriminate |].
    rewrite prefix_cons in H.
    destruct (Ascii.eqb_spec a b) as [->|]; [| discriminate].
    destruct (IH s H) as [r ->]. now exists r.
Qed.

Lemma slice_to_app (p x : string) : PyStr.slice_to (String.length p) (p ++ x) = p.
Proof.
  unfold PyStr.slice_to. induction p as [|a p IH]; simpl.
  - now destruct x.
  - now rewrite IH.
Qed.

Lemma get_app (p : string) (c : ascii) (x : string) :
  String.get (String.length p) (p ++ String c x) = Some c.
Proof. induction p as [|a p IH]; simpl; [reflexivity | exact IH]. Qed.

Lemma endswith_app (p : string) (c : ascii) :
  PyStr.endswith (p ++ String c "") c = true.
Proof.
  induction p as [|a p IH]; simpl; [apply Ascii.eqb_refl |].
  destruct (p ++ String c "")%string eqn:E; [| exact IH].
  destruct p; discriminate.
Qed.

(** A path that extends [parent ++ "/"] by at least one character is a
    child of [parent]. *)
Lemma _is_child_of_app (parent_url r : string) :
  parent_url <> "/" -> r <> "" ->
  _is_child_of (parent_url ++ "/" ++ r) parent_url = true.
Proof.
  intros Hp Hr. unfold _is_child_of.
  destruct (String.eqb_spec parent_url "/"); [contradiction |].
  rewrite slice_to_app, String.eqb_refl.
  change ("/" ++ r)%string with (String slash r). rewrite get_app.
  rewrite Ascii.eqb_refl, !andb_true_r.
  apply Nat.ltb_lt. rewrite string_length_app. simpl.
  destruct r; [contradiction | simpl; lia].
Qed.

Lemma catalog_canonical (self : Breadcrumb) (current_app : Flask) :
  cache_ok self ->
  Forall (fun r => canonical_url (route_url r)) (catalog self current_app).
Proof.
  intros Hc. unfold catalog, _get_routes.
  destruct (_routes_cache self) as [routes|] eqn:E; simpl; [now apply Hc |].
  apply Forall_forall. intros r Hr. apply in_map_iff in Hr as (x & <- & _).
  apply normalize_url_canonical.
Qed.

Lemma is_registered_canonical (routes : list route) (u : string) :
  Forall (fun r => canonical_url (route_url r)) routes ->
  is_registered routes u = true -> canonical_url u.
Proof.
  intros Hc Hr. apply existsb_exists in Hr as (r & Hin & Hr).
  apply andb_prop in Hr as [_ Hu]. apply String.eqb_eq in Hu. subst u.
  rewrite Forall_forall in Hc. now apply Hc.
Qed.

(** No dictionary of the tree extends [current_path ++ "/"]. *)
Lemma build_tree_pruned (routes : list route)
    (metadata : dict string metadata_entry) (current_path : string) (t : node) :
  Forall (fun r => canonical_url (route_url r)) routes ->
  current_path <> "" ->
  build_tree routes metadata current_path = Returns (Some t) ->
  forall n, In n (nodes t) ->
            String.prefix (current_path ++ "/") (url n) = false.
Proof.
  intros Hcan Hcp Hb.
  assert (Hroot : String.prefix (current_path ++ "/") "/" = false).
  { destruct (String.prefix (current_path ++ "/") "/") eqn:E; [| reflexivity].
    apply prefix_app_inv in E as [r E].
    apply (f_equal String.length) in E. rewrite !string_length_app in E. simpl in E.
    destruct current_path; [contradiction | simpl in E; lia]. }
  destruct (String.eqb_spec current_path "/") as [->|Hne].
  - destruct (existsb is_breadcrumb_route routes) eqn:E;
      [| rewrite build_tree_empty in Hb by assumption; discriminate].
    destruct (build_tree_root routes metadata E) as (i & _ & Heq).
    rewrite Heq in Hb. injection Hb as <-. simpl.
    intros n [<-|[]]. exact Hroot.
  - destruct (build_tree_below_root _ _ _ _ Hne Hb) as (Hu & _ & Hd).
    intros n Hn. rewrite nodes_eq in Hn. destruct Hn as [<-|Hn].
    + now rewrite Hu.
    + rewrite Forall_forall in Hd.
      destruct (Hd n Hn) as (Hm & Hnr & _ & Hch).
      destruct (String.prefix (current_path ++ "/") (url n)) eqn:E;
        [exfalso | reflexivity].
      apply prefix_app_inv in E as [r E]. rewrite app_assoc_str in E.
      destruct (string_dec r "") as [->|Hr].
      * rewrite items_of_mem in Hm.
        destruct (String.eqb_spec (url n) "/"); [contradiction |].
        rewrite orb_false_r in Hm.
        destruct (is_registered_canonical routes (url n) Hcan Hm) as [?|He];
          [contradiction |].
        rewrite E in He. change ("/" ++ "")%string with (String slash "") in He.
        now rewrite endswith_app in He.
      * rewrite E, _is_child_of_app in Hch by assumption. discriminate.
Qed.

Lemma cache_ok_init (metadata : dict string metadata_entry) :
  cache_ok {| breadcrumb_metadata := metadata; _routes_cache := None |}.
Proof. intros routes; discriminate. Qed.

Lemma _is_child_of_root (current_path : string) :
  _is_child_of "/" current_path = false.
Proof.
  unfold _is_child_of. destruct (current_path =? "/"); [reflexivity |].
  destruct (Nat.ltb_spec (String.length current_path + 1) (String.length "/"));
    [simpl in *; lia | reflexivity].
Qed.

(* ================================================================= *)
(** ** The parent of a path *)

Lemma rstrip_no_sep (c : ascii) (s : string) :
  s <> "" -> contains c s = false -> PyStr.rstrip c s = s.
Proof.
  induction s as [|a s IH]; [congruence |]. intros _ H. simpl in *.
  apply orb_false_elim in H as [Ha Hs].
  destruct s as [|b s]; [simpl; now rewrite Ha |].
  rewrite IH by (congruence || assumption). reflexivity.
Qed.

Lemma rstrip_app_no_sep (c : ascii) (p s : string) :
  s <> "" -> contains c s = false -> PyStr.rstrip c (p ++ s) = (p ++ s)%string.
Proof.
  intros Hs Hc. induction p as [|a p IH]; simpl; [now apply rstrip_no_sep |].
  rewrite IH. destruct (p ++ s)%string eqn:E; [| reflexivity].
  destruct p; [simpl in E; contradiction | discriminate].
Qed.

Lemma split_no_sep (c : ascii) (s : string) :
  contains c s = false -> PyStr.split c s = [s].
Proof.
  induction s as [|a s IH]; [reflexivity |]. simpl. intros H.
  apply orb_false_elim in H as [Ha Hs]. now rewrite Ha, IH.
Qed.

Lemma split_app (c : ascii) (p s : string) :
  PyStr.split c (p ++ String c s) = PyStr.split c p ++ PyStr.split c s.
Proof.
  induction p as [|a p IH]; simpl.
  - now rewrite Ascii.eqb_refl.
  - rewrite IH. destruct (Ascii.eqb a c); [reflexivity |].
    generalize (split_not_nil c p). now destruct (PyStr.split c p).
Qed.

Lemma split_contains (c : ascii) (p : string) :
  contains c p = true -> 2 <= List.length (PyStr.split c p).
Proof.
  induction p as [|a p IH]; simpl; [discriminate |].
  destruct (Ascii.eqb a c); simpl.
  - intros _. generalize (split_not_nil c p).
    destruct (PyStr.split c p); [congruence | simpl; lia].
  - intros H. specialize (IH H).
    destruct (PyStr.split c p); simpl in *; lia.
Qed.

(** The parent of a single-segment path is the root. *)
Lemma _get_parent_url_single (segment : string) :
  contains slash segment = false ->
  _get_parent_url ("/" ++ segment) = "/".
Proof.
  intros H. unfold _get_parent_url.
  destruct segment as [|a s]; [reflexivity |].
  rewrite rstrip_app_no_sep by (congruence || assumption).
  change ("/" ++ String a s)%string with ("" ++ String slash (String a s))%string.
  rewrite split_app, (split_no_sep slash (String a s)) by assumption.
  reflexivity.
Qed.

(** The parent of a longer path is the path without its last segment. *)
Lemma _get_parent_url_segment (path segment : string) :
  contains slash path = true ->
  segment <> "" -> contains slash segment = false ->
  _get_parent_url (path ++ "/" ++ segment) = path.
Proof.
  intros Hp Hs Hc. unfold _get_parent_url.
  rewrite <- app_assoc_str.
  rewrite rstrip_app_no_sep by assumption.
  rewrite app_assoc_str.
  change ("/" ++ segment)%string with (String slash segment).
  destruct ((path ++ String slash segment)%string =? "") eqn:E.
  { apply String.eqb_eq in E. destruct path; discriminate. }
  rewrite split_app, (split_no_sep slash segment) by assumption.
  pose proof (split_contains slash path Hp) as Hl.
  rewrite List.length_app. simpl List.length.
  destruct (Nat.leb_spec (List.length (PyStr.split slash path) + 1) 2); [lia |].
  rewrite removelast_last. apply join_split.
Qed.

(* ================================================================= *)
(** ** Unreachable paths *)

Lemma ancestor_chain_self (path : string) :
  path <> "/" -> In path (ancestor_chain path).
Proof.
  intros H. unfold ancestor_chain. rewrite Nat.add_comm. simpl.
  destruct (String.eqb_spec path "/"); [contradiction | now left].
Qed.

Lemma filter_none {A : Type} (f : A -> bool) (l : list A) :
  (forall x, In x l -> f x = false) -> filter f l = [].
Proof.
  induction l as [|x l IH]; simpl; intros H; [reflexivity |].
  rewrite (H x) by now left. apply IH. intros y Hy. apply H. now right.
Qed.


(* ================================================================= *)
(** ** Sorted children *)

Lemma node_key_set_children (n : node) (cs : list node) :
  node_key (set_children n cs) = node_key n.
Proof. reflexivity. Qed.

Lemma key_le_iff (o1 o2 : Z) (u1 u2 : string) :
  key_le_prop (o1, u1) (o2, u2)
  <-> (o1 < o2)%Z \/ (o1 = o2 /\ String.leb u1 u2 = true).
Proof.
  unfold key_le_prop, key_le. simpl.
  destruct (Z.ltb_spec o1 o2), (Z.eqb_spec o1 o2); simpl;
    intuition (try lia; try discriminate).
Qed.

Section AssembleSorted.
Variable parent_to_children : dict string (list node).
Variable current_path : string.

Hypothesis groups_sorted :
  forall k cs, sget parent_to_children k = Some cs -> sorted_leaves cs.

Lemma leaves_children_sorted (cs : list node) :
  Forall (fun c => children c = []) cs -> Forall children_sorted cs.
Proof.
  intros H. eapply Forall_impl; [| exact H].
  intros c Hc. unfold children_sorted. rewrite Hc. constructor.
Qed.

Lemma attach_sorted (path : string) (child : node) :
  children child = [] ->
  sorted_leaves (children (attach parent_to_children current_path path child)).
Proof.
  intros Hleaf. unfold attach.
  destruct (sget parent_to_children path) as [cs|] eqn:E.
  - destruct (negb (path =? current_path)); simpl.
    + now apply (groups_sorted path).
    + rewrite Hleaf. split; constructor.
  - rewrite Hleaf. split; constructor.
Qed.

Lemma assemble_sorted (paths : list string) : forall lvl,
    sorted_leaves (children lvl) ->
    Forall children_sorted
           (nodes (assemble parent_to_children current_path paths lvl)).
Proof.
  induction paths as [|p paths IH]; intros lvl [Hs Hl].
  - simpl assemble. rewrite nodes_eq. unfold descendants.
    rewrite flat_map_leaves by assumption.
    constructor; [exact Hs | now apply leaves_children_sorted].
  - rewrite assemble_cons.
    destruct (find_child p (children lvl)) as [[[b c] a]|] eqn:F;
      [| now apply IH].
    apply find_child_Some in F as [Hcs _]. rewrite Hcs in Hs, Hl.
    apply Forall_app in Hl as [Hb Hca].
    inversion Hca as [|? ? Hc Ha]; subst.
    rewrite nodes_eq. unfold descendants. simpl children.
    rewrite flat_map_app. simpl flat_map.
    rewrite !flat_map_leaves by assumption.
    constructor; [| apply Forall_app; split; [| apply Forall_app; split]].
    + unfold children_sorted. simpl children.
      rewrite map_app in *. simpl map in *.
      destruct (assemble_header parent_to_children current_path paths
                  (attach parent_to_children current_path p c)) as [cs ->].
      destruct (attach_header parent_to_children current_path p c)
        as [cs' ->].
      now rewrite !node_key_set_children.
    + now apply leaves_children_sorted.
    + apply IH. now apply attach_sorted.
    + now apply leaves_children_sorted.
Qed.

End AssembleSorted.

Lemma build_tree_sorted routes metadata current_path t :
  build_tree routes metadata current_path = Returns (Some t) ->
  Forall children_sorted (nodes t).
Proof.
  intros Hb.
  destruct (existsb is_breadcrumb_route routes) eqn:E;
    [| rewrite build_tree_empty in Hb by assumption; discriminate].
  destruct (String.eqb_spec current_path "/") as [->|Hne].
  - destruct (build_tree_root routes metadata E) as (i & _ & Heq).
    rewrite Heq in Hb. injection Hb as <-. repeat constructor.
  - destruct (build_tree_main routes metadata current_path E Hne)
      as (i & _ & Heq).
    rewrite Heq in Hb. injection Hb as <-.
    assert (HG : forall k cs,
               sget (groups_of routes metadata current_path) k = Some cs ->
               sorted_leaves cs).
    { intros k cs Hk.
      split; [now apply (groups_of_sorted routes metadata current_path k) |].
      apply groups_of_members in Hk.
      eapply Forall_impl; [| exact Hk]. now intros n (? & _). }
    apply assemble_sorted; [exact HG |]. simpl.
    unfold dict_get_default.
    destruct (sget (groups_of routes metadata current_path) "/") eqn:Hg;
      [now apply (HG "/") | split; constructor].
Qed.

Lemma sorted_keys_siblings (cs : list node) :
  sorted_keys (map node_key cs) -> StronglySorted sibling_le cs.
Proof.
  unfold sorted_keys. induction cs as [|c cs IH]; simpl; intros H;
    [constructor |].
  inversion H as [|? ? Hs Hf]; subst. constructor; [now apply IH |].
  rewrite Forall_map in Hf. eapply Forall_impl; [| exact Hf].
  intros b Hb. now apply key_le_iff in Hb.
Qed.

(** [add_child] keeps a sorted list of children sorted. *)
Lemma add_child_sorted (self child : BreadcrumbItem) :
  sorted_keys (map item_key (item_children self)) ->
  sorted_keys (map item_key (item_children (add_child self child))).
Proof.
  intros H. unfold add_child.
  destruct (existsb _ (item_children self)); [exact H |].
  simpl. apply sort_by_sorted.
Qed.

(* ================================================================= *)
(** ** Every url occurs once *)

Lemma perm_middle_out {A : Type} (l1 l2 l3 : list A) (x : A) :
  Permutation (l1 ++ (x :: l2) ++ l3) ((l1 ++ x :: l3) ++ l2).
Proof.
  rewrite <- app_assoc. apply Permutation_app_head. simpl.
  apply perm_skip. apply Permutation_app_comm.
Qed.

Section AssembleUnique.
Variable parent_to_children : dict string (list node).
Variable current_path : string.

Hypothesis groups_lists :
  forall k cs, sget parent_to_children k = Some cs -> group_list k cs.

Lemma attach_group_list (path : string) (child : node) :
  children child = [] ->
  group_list path
    (children (attach parent_to_children current_path path child)).
Proof.
  intros Hleaf. unfold attach.
  destruct (sget parent_to_children path) as [cs|] eqn:E.
  - destruct (negb (path =? current_path)); simpl.
    + now apply groups_lists.
    + rewrite Hleaf. split; constructor.
  - rewrite Hleaf. split; constructor.
Qed.

Lemma assemble_unique (paths : list string) : forall lvl k,
    group_list k (children lvl) ->
    NoDup paths -> ~ In k paths ->
    NoDup (map url (descendants
                      (assemble parent_to_children current_path paths lvl)))
    /\ Forall (fun n => _get_parent_url (url n) = k
                        \/ In (_get_parent_url (url n)) paths)
              (descendants
                 (assemble parent_to_children current_path paths lvl)).
Proof.
  induction paths as [|p paths IH]; intros lvl k [Hf Hnd] Hps Hk.
  - simpl assemble. unfold descendants.
    rewrite flat_map_leaves
      by (eapply Forall_impl; [| exact Hf]; now intros n [? _]).
    split; [exact Hnd |].
    eapply Forall_impl; [| exact Hf]. intros n [_ ?]. now left.
  - rewrite assemble_cons. inversion Hps as [|? ? Hp Hps']; subst.
    destruct (find_child p (children lvl)) as [[[b c] a]|] eqn:F.
    2: { destruct (IH lvl k (conj Hf Hnd) Hps') as [H1 H2].
         { intros Hin. apply Hk. now right. }
         split; [exact H1 |]. eapply Forall_impl; [| exact H2].
         intros n [?|?]; [now left | right; now right]. }
    apply find_child_Some in F as [Hcs Hurl]. rewrite Hcs in Hf, Hnd.
    apply Forall_app in Hf as [Hb Hca].
    inversion Hca as [|? ? [Hc Hck] Ha]; subst x l.
    set (X := assemble parent_to_children current_path paths
                (attach parent_to_children current_path p c)).
    assert (HX : url X = url c /\ _get_parent_url (url X) = k).
    { unfold X.
      destruct (assemble_header parent_to_children current_path paths
                  (attach parent_to_children current_path p c)) as [cs ->].
      destruct (attach_header parent_to_children current_path p c)
        as [cs' ->]. simpl. auto. }
    destruct HX as [HXu HXk].
    destruct (IH (attach parent_to_children current_path p c) p
                (attach_group_list p c Hc) Hps' Hp) as [H1 H2].
    fold X in H1, H2.
    unfold descendants. simpl children.
    rewrite flat_map_app. simpl flat_map.
    rewrite !flat_map_leaves
      by (eapply Forall_impl; [| eassumption]; now intros n [? _]).
    rewrite nodes_eq. split.
    + rewrite !map_app. simpl map.
      eapply Permutation_NoDup.
      { apply Permutation_sym.
        apply (perm_middle_out (map url b) (map url (descendants X))
                               (map url a) (url X)). }
      apply NoDup_app.
      * rewrite HXu. rewrite map_app in Hnd. exact Hnd.
      * exact H1.
      * intros u Hu Hu'.
        assert (Hpk : _get_parent_url u = k).
        { apply in_app_or in Hu as [Hu|[<-|Hu]]; [| exact HXk |].
          - apply in_map_iff in Hu as (n & <- & Hn).
            rewrite Forall_forall in Hb. now destruct (Hb n Hn).
          - apply in_map_iff in Hu as (n & <- & Hn).
            rewrite Forall_forall in Ha. now destruct (Ha n Hn). }
        apply in_map_iff in Hu' as (n & <- & Hn).
        rewrite Forall_forall in H2. apply Hk.
        destruct (H2 n Hn) as [E|E]; rewrite Hpk in E;
          [now left | now right].
    + apply Forall_app. split; [| apply Forall_cons; [| apply Forall_app; split]].
      * eapply Forall_impl; [| exact Hb]. intros n [_ ?]. now left.
      * now left.
      * eapply Forall_impl; [| exact H2].
        intros n [?|?]; right; [now left | now right].
      * eapply Forall_impl; [| exact Ha]. intros n [_ ?]. now left.
Qed.

End AssembleUnique.

Lemma ancestors_length (fuel : nat) : forall path u,
    In u (ancestors fuel path) -> String.length u <= String.length path.
Proof.
  induction fuel as [|fuel IH]; simpl; intros path u; [tauto |].
  destruct (String.eqb_spec path "/") as [|Hne]; [intros [] |].
  intros [<-|H]; [lia |].
  destruct (_get_parent_url_shorter path) as [E|Hlt].
  - rewrite E in H. destruct fuel; simpl in H; tauto.
  - apply IH in H. lia.
Qed.

Lemma ancestors_NoDup (fuel : nat) : forall path, NoDup (ancestors fuel path).
Proof.
  induction fuel as [|fuel IH]; simpl; intros path; [constructor |].
  destruct (String.eqb_spec path "/") as [|Hne]; constructor; [| apply IH].
  intros H. destruct (_get_parent_url_shorter path) as [E|Hlt].
  - rewrite E in H. destruct fuel; simpl in H; tauto.
  - apply ancestors_length in H. lia.
Qed.

Lemma path_from_root_NoDup routes metadata current_path :
  NoDup (path_from_root routes metadata current_path)
  /\ ~ In "/" (path_from_root routes metadata current_path).
Proof.
  unfold path_from_root. split.
  - apply NoDup_rev, NoDup_filter, ancestors_NoDup.
  - rewrite <- in_rev, filter_In. intros [H _].
    now apply ancestors_not_root in H.
Qed.

Lemma groups_of_group_list routes metadata current_path k cs :
  sget (groups_of routes metadata current_path) k = Some cs ->
  group_list k cs.
Proof.
  intros H. split; [| now apply (groups_of_nodup routes metadata current_path k)].
  apply groups_of_members in H. eapply Forall_impl; [| exact H].
  now intros n (? & _ & _ & ? & _).
Qed.

(** No url occurs twice below the root. *)
Lemma build_tree_unique routes metadata current_path t :
  current_path <> "/" ->
  build_tree routes metadata current_path = Returns (Some t) ->
  NoDup (map url (descendants t)).
Proof.
  intros Hne Hb.
  destruct (existsb is_breadcrumb_route routes) eqn:E;
    [| rewrite build_tree_empty in Hb by assumption; discriminate].
  destruct (build_tree_main routes metadata current_path E Hne)
    as (i & _ & Heq).
  rewrite Heq in Hb. injection Hb as <-.
  destruct (path_from_root_NoDup routes metadata current_path) as [Hnd Hr].
  eapply (assemble_unique _ _
            (groups_of_group_list routes metadata current_path)
            _ _ "/"); [| exact Hnd | exact Hr].
  simpl. unfold dict_get_default.
  destruct (sget (groups_of routes metadata current_path) "/") eqn:Hg;
    [now apply groups_of_group_list in Hg | split; constructor].
Qed.

(* ================================================================= *)
(** ** The current path in the tree *)

Lemma last_default {A : Type} (l : list A) (x d d' : A) :
  List.last (x :: l) d = List.last (x :: l) d'.
Proof.
  revert x. induction l as [|y l IH]; intros x; [reflexivity |].
  change (List.last (y :: l) d = List.last (y :: l) d'). apply IH.
Qed.

Lemma linked_snoc (paths : list string) : forall k x,
    linked_from k paths ->
    _get_parent_url x = List.last paths k ->
    linked_from k (paths ++ [x]).
Proof.
  induction paths as [|p paths IH]; intros k x H Hx; [simpl; auto |].
  destruct H as [Hp Hl]. split; [exact Hp |]. apply IH; [exact Hl |].
  rewrite Hx. destruct paths as [|q paths]; [reflexivity |].
  change (List.last (q :: paths) k = List.last (q :: paths) p).
  apply last_default.
Qed.

Lemma rev_ancestors_linked (fuel : nat) : forall path,
    String.length path + 2 <= fuel ->
    linked_from "/" (rev (ancestors fuel path))
    /\ List.last (rev (ancestors fuel path)) "/" = path.
Proof.
  induction fuel as [|fuel IH]; intros path Hf; [lia |]. simpl.
  destruct (String.eqb_spec path "/") as [->|Hne]; [now split |].
  simpl. rewrite last_last. split; [| reflexivity].
  destruct (_get_parent_url_shorter path) as [E|Hlt].
  - rewrite E. destruct fuel; simpl; auto.
  - destruct (IH (_get_parent_url path)) as [Hl Hlast]; [lia |].
    apply linked_snoc; [exact Hl | now rewrite Hlast].
Qed.

Lemma filter_all {A : Type} (f : A -> bool) (l : list A) :
  (forall x, In x l -> f x = true) -> filter f l = l.
Proof.
  induction l as [|x l IH]; simpl; intros H; [reflexivity |].
  rewrite (H x) by now left. f_equal. apply IH. intros y Hy. apply H. now right.
Qed.

Section Reach.
Variable routes : list route.
Variable metadata : dict string metadata_entry.
Variable current_path : string.

Hypothesis not_root : current_path <> "/".

Let breadcrumb_items := items_of routes metadata current_path.

Let parent_to_children := groups_of routes metadata current_path.

(** The traversal reaches every path of a linked list of registered
    paths. *)
Lemma assemble_reaches (paths : list string) : forall lvl k,
    children lvl = sget_default parent_to_children k [] ->
    linked_from k paths ->
    (forall p, In p paths ->
               smem breadcrumb_items p = true /\ p <> "/"
               /\ _is_child_of p current_path = false) ->
    (forall p, In p (removelast paths) -> p <> current_path) ->
    forall p, In p paths ->
      exists n,
        In n (descendants
                (assemble parent_to_children current_path paths lvl))
        /\ url n = p.
Proof.
  induction paths as [|p paths IH]; intros lvl k Hlvl Hl Hreg Hcur q Hq;
    [contradiction |].
  destruct Hl as [Hp Hl].
  destruct (Hreg p (or_introl eq_refl)) as (Hm & Hnr & Hch).
  destruct (groups_of_complete routes metadata current_path p not_root
              Hm Hnr Hch) as (cs & n & Hg & Hin & Hurl).
  rewrite Hp in Hg. fold parent_to_children in Hg.
  unfold dict_get_default in Hlvl. rewrite Hg in Hlvl.
  rewrite assemble_cons.
  rewrite <- Hlvl in Hin.
  destruct (find_child_In p (children lvl) n Hin Hurl) as (b & c & a & F).
  rewrite F. apply find_child_Some in F as [Hcs Hc].
  set (X := assemble parent_to_children current_path paths
              (attach parent_to_children current_path p c)).
  assert (HXu : url X = p).
  { unfold X.
    destruct (assemble_header parent_to_children current_path paths
                (attach parent_to_children current_path p c)) as [cs' ->].
    destruct (attach_header parent_to_children current_path p c)
      as [cs'' ->]. exact Hc. }
  assert (Hsub : forall m, In m (nodes X) ->
            In m (descendants (set_children lvl (b ++ X :: a)))).
  { intros m Hm'. unfold descendants. simpl children.
    apply in_flat_map. exists X. split; [| exact Hm'].
    apply in_or_app. right. now left. }
  destruct Hq as [<-|Hq].
  - exists X. split; [| exact HXu]. apply Hsub. rewrite nodes_eq. now left.
  - assert (Hleaf : children c = []).
    { apply groups_of_members in Hg. rewrite Forall_forall in Hg.
      assert (Hc' : In c cs).
      { rewrite <- Hlvl, Hcs. apply in_or_app. right. now left. }
      now destruct (Hg c Hc'). }
    assert (Hpc : p <> current_path).
    { apply Hcur. destruct paths; [contradiction | now left]. }
    destruct (IH (attach parent_to_children current_path p c) p) with (p := q)
      as (m & Hm' & Hmu); try assumption.
    + unfold attach, dict_get_default.
      destruct (sget parent_to_children p); [| exact Hleaf].
      destruct (String.eqb_spec p current_path); [contradiction |].
      reflexivity.
    + intros x Hx. apply Hreg. now right.
    + intros x Hx. apply Hcur. destruct paths; [contradiction |].
      now right.
    + exists m. split; [| exact Hmu]. apply Hsub. rewrite nodes_eq.
      now right.
Qed.

End Reach.

(** When the current path and all its ancestors are registered, the tree
    has a dictionary for the current path. *)
Lemma build_tree_reaches routes metadata current_path t :
  current_path <> "/" ->
  (forall u, In u (ancestor_chain current_path) ->
             is_registered routes u = true) ->
  build_tree routes metadata current_path = Returns (Some t) ->
  exists n, In n (descendants t) /\ url n = current_path.
Proof.
  intros Hne Hall Hb.
  destruct (existsb is_breadcrumb_route routes) eqn:E;
    [| rewrite build_tree_empty in Hb by assumption; discriminate].
  destruct (build_tree_main routes metadata current_path E Hne)
    as (i & _ & Heq).
  rewrite Heq in Hb. injection Hb as <-.
  assert (Hp : path_from_root routes metadata current_path
               = rev (ancestor_chain current_path)).
  { unfold path_from_root. f_equal. apply filter_all.
    intros u Hu. rewrite items_of_mem, (Hall u Hu). reflexivity. }
  rewrite Hp.
  destruct (rev_ancestors_linked (String.length current_path + 2)
              current_path (Nat.le_refl _)) as [Hl Hlast].
  fold (ancestor_chain current_path) in Hl, Hlast.
  apply (assemble_reaches routes metadata current_path Hne
           (rev (ancestor_chain current_path)) _ "/").
  - reflexivity.
  - exact Hl.
  - intros p Hp'. rewrite <- in_rev in Hp'. split; [| split].
    + rewrite items_of_mem, (Hall p Hp'). reflexivity.
    + now apply ancestors_not_root in Hp'.
    + apply _is_child_of_shorter; [exact Hne |].
      apply ancestors_length in Hp'. lia.
  - intros p Hp'.
    pose proof (ancestors_NoDup (String.length current_path + 2) current_path)
      as Hnd.
    fold (ancestor_chain current_path) in Hnd.
    pose proof (ancestor_chain_self current_path Hne) as Hself.
    unfold ancestor_chain in *. rewrite Nat.add_comm in *. simpl in *.
    destruct (String.eqb_spec current_path "/"); [contradiction |].
    simpl in Hp'. rewrite removelast_last in Hp'.
    rewrite <- in_rev in Hp'. inversion Hnd; subst. congruence.
  - rewrite <- in_rev. now apply ancestor_chain_self.
Qed.

Lemma count_marked (current_path : string) (l : list node) :
  NoDup (map url l) ->
  (forall n, In n l -> is_current_path n = (url n =? current_path)) ->
  List.length (filter is_current_path l) <= 1
  /\ ((exists n, In n l /\ url n = current_path) ->
      List.length (filter is_current_path l) = 1).
Proof.
  induction l as [|x l IH]; simpl; intros Hnd Hcur.
  - split; [lia | intros (n & [] & _)].
  - inversion Hnd as [|? ? Hx Hnd']; subst.
    destruct IH as [IH1 IH2]; [exact Hnd' | intros n Hn; apply Hcur; now right |].
    rewrite (Hcur x (or_introl eq_refl)).
    destruct (String.eqb_spec (url x) current_path) as [E|Hne]; simpl.
    + assert (Hnone : filter is_current_path l = []).
      { apply filter_none. intros n Hn. rewrite (Hcur n (or_intror Hn)).
        apply String.eqb_neq. intros En. apply Hx. rewrite E, <- En.
        now apply in_map. }
      rewrite Hnone. simpl. split; [lia | reflexivity].
    + split; [exact IH1 |]. intros (n & [<-|Hn] & En); [contradiction |].
      apply IH2. eauto.
Qed.

(* ================================================================= *)
(** ** Producers that can raise *)

Lemma _is_child_of_irrefl (u : string) : _is_child_of u u = false.
Proof.
  destruct (String.eqb_spec u "/") as [->|Hu]; [reflexivity|].
  apply _is_child_of_shorter; [assumption | lia].
Qed.

Lemma child_relationships_key (breadcrumb_items : dict string BreadcrumbItem)
    (current_path u : string) :
  In u (dict_keys breadcrumb_items) ->
  dict_get_default pair_eqb
    (child_relationships breadcrumb_items current_path) (u, current_path) false
  = _is_child_of u current_path.
Proof.
  intros Hin. rewrite child_relationships_get.
  assert (Hex : existsb (String.eqb u) (dict_keys breadcrumb_items) = true).
  { apply existsb_exists. exists u. split; [assumption | apply String.eqb_refl]. }
  rewrite Hex. cbn [andb].
  destruct (String.eqb_spec u "/") as [->|_].
  - now rewrite _is_child_of_root.
  - destruct (String.eqb_spec u current_path) as [->|_]; [|reflexivity].
    now rewrite _is_child_of_irrefl.
Qed.

Lemma dict_keys_map_values {V W : Type} (g : V -> W) (d : dict string V) :
  dict_keys (map_values g d) = dict_keys d.
Proof.
  unfold dict_keys, map_values. rewrite map_map. now apply map_ext.
Qed.

Lemma sget_map_values {V W : Type} (g : V -> W) (d : dict string V)
    (k : string) :
  sget (map_values g d) k = option_map g (sget d k).
Proof.
  induction d as [|[k' v] d IH]; [reflexivity|].
  cbn [map_values map dict_get fst snd].
  destruct (k' =? k); [reflexivity | exact IH].
Qed.

Lemma smem_map_values {V W : Type} (g : V -> W) (d : dict string V)
    (k : string) :
  smem (map_values g d) k = smem d k.
Proof.
  unfold dict_mem. rewrite sget_map_values. now destruct (sget d k).
Qed.

Lemma sset_map_values {V W : Type} (g : V -> W) (d : dict string V)
    (k : string) (v : V) :
  map_values g (sset d k v) = sset (map_values g d) k (g v).
Proof.
  induction d as [|[k' v'] d IH]; [reflexivity|].
  cbn [map_values map dict_set fst snd].
  destruct (k' =? k); cbn [map fst snd]; [reflexivity|].
  f_equal. exact IH.
Qed.

Lemma resolve_erase (text : Raising.label) (s : string) :
  Raising.resolve text = Returns s -> resolve (erase_label text) = s.
Proof.
  destruct text as [s'|f]; cbn; [congruence|].
  intros H. now rewrite H.
Qed.

Lemma materialize_step_erase (metadata : dict string Raising.metadata_entry)
    (current_path : string) st (r : route) :
  erase_state (Raising.materialize_step metadata current_path st r)
  = materialize_step (map_values erase_entry metadata) current_path
                     (erase_state st) r.
Proof.
  destruct r as [[u e] ms], st as [breadcrumb_items m].
  unfold Raising.materialize_step, materialize_step, erase_state.
  cbn [fst snd].
  destruct (negb (existsb (String.eqb "GET") ms)
            || PyStr.startswith e "static"); [reflexivity|].
  cbn [fst snd]. rewrite sset_map_values, sget_map_values.
  destruct (sget metadata e) as [m0|]; reflexivity.
Qed.

Lemma materialize_erase (routes : list route)
    (metadata : dict string Raising.metadata_entry) (current_path : string) :
  erase_state (Raising.materialize routes metadata current_path)
  = materialize routes (map_values erase_entry metadata) current_path.
Proof.
  unfold Raising.materialize, materialize.
  change (@nil (string * BreadcrumbItem), @nil (string * bool))
    with (erase_state ([], [])).
  generalize (@nil (string * Raising.BreadcrumbItem), @nil (string * bool)).
  induction routes as [|r routes IH]; intros st; [reflexivity|].
  cbn [fold_left]. now rewrite IH, materialize_step_erase.
Qed.

Lemma ensure_root_erase (current_path : string) st :
  erase_state (Raising.ensure_root current_path st)
  = ensure_root current_path (erase_state st).
Proof.
  destruct st as [breadcrumb_items m].
  unfold Raising.ensure_root, ensure_root, erase_state. cbn [fst snd].
  rewrite smem_map_values.
  destruct (smem breadcrumb_items "/"); [reflexivity|].
  cbn [fst snd]. now rewrite sset_map_values.
Qed.

Lemma parent_urls_erase (breadcrumb_items : dict string Raising.BreadcrumbItem) :
  Raising.parent_urls breadcrumb_items
  = parent_urls (map_values erase_item breadcrumb_items).
Proof.
  unfold Raising.parent_urls, parent_urls.
  now rewrite dict_keys_map_values.
Qed.

Lemma child_relationships_erase
    (breadcrumb_items : dict string Raising.BreadcrumbItem)
    (current_path : string) :
  Raising.child_relationships breadcrumb_items current_path
  = child_relationships (map_values erase_item breadcrumb_items) current_path.
Proof.
  unfold Raising.child_relationships, child_relationships.
  now rewrite dict_keys_map_values.
Qed.

Lemma walk_erase (breadcrumb_items : dict string Raising.BreadcrumbItem)
    (parent_url_map : dict string string) (fuel : nat) :
  forall path path_to_root,
    Raising.walk fuel breadcrumb_items parent_url_map path path_to_root
    = walk fuel (map_values erase_item breadcrumb_items) parent_url_map
           path path_to_root.
Proof.
  induction fuel as [|fuel IH]; intros path path_to_root; [reflexivity|].
  cbn [Raising.walk walk]. rewrite smem_map_values.
  destruct (path =? "/"); [reflexivity|].
  destruct (sget_default parent_url_map path (_get_parent_url path) =? path);
    [reflexivity | apply IH].
Qed.

Section GroupLoop.
Variable parent_url_map : dict string string.
Variable is_child_map : dict (string * string) bool.
Variable is_current_path_map : dict string bool.
Variable current_path : string.

(** When the loop returns, it returns what the loop over the returning
    producers gives. *)
Lemma for_each_group_sim (entries : dict string Raising.BreadcrumbItem) :
  forall acc d,
    for_each (Raising.group_step parent_url_map is_child_map
                                 is_current_path_map current_path)
             entries acc = Returns d ->
    d = fold_left (group_step parent_url_map is_child_map
                              is_current_path_map current_path)
                  (map_values erase_item entries) acc.
Proof.
  induction entries as [|[u i] entries IH]; intros acc d H.
  - cbn in H. now injection H as <-.
  - cbn [for_each] in H. cbn [map_values map fold_left fst snd].
    unfold Raising.group_step in H at 1. unfold group_step at 2.
    destruct (u =? "/"); [apply IH, H|].
    destruct (dict_get_default pair_eqb is_child_map (u, current_path) false);
      [apply IH, H|].
    destruct (Raising.resolve (Raising.item_text i)) as [s| |] eqn:E;
      cbn [bind] in H; try discriminate.
    apply IH in H. rewrite H.
    destruct i as [t u' o c cs].
    cbn [erase_item item_text item_order Raising.item_text
         Raising.item_order] in *.
    now rewrite (resolve_erase _ _ E).
Qed.


End GroupLoop.

Lemma sget_erase_item (breadcrumb_items : dict string Raising.BreadcrumbItem)
    (u : string) :
  sget (map_values erase_item breadcrumb_items) u
  = option_map erase_item (sget breadcrumb_items u).
Proof. apply sget_map_values. Qed.

(** If the call returns, it returns what [build_tree] gives for the
    producers made to return. *)
Lemma build_tree_sim (routes : list route)
    (metadata : dict string Raising.metadata_entry) (current_path : string)
    (r : option node) :
  Raising.build_tree routes metadata current_path = Returns r ->
  build_tree routes (map_values erase_entry metadata) current_path
  = Returns r.
Proof.
  unfold Raising.build_tree, build_tree.
  rewrite <- materialize_erase, <- ensure_root_erase.
  set (st0 := Raising.materialize routes metadata current_path).
  set (st := Raising.ensure_root current_path st0).
  unfold erase_state at 1. cbn [fst].
  destruct (fst st0) as [|e0 es0]; [trivial|]. cbn [map_values map].
  unfold erase_state. cbn [fst snd].
  rewrite !sget_erase_item, smem_map_values, <- parent_urls_erase,
    <- walk_erase, <- child_relationships_erase.
  destruct (current_path =? "/").
  { destruct (sget (fst st) "/") as [root_item|]; cbn [option_map]; [|trivial].
    destruct (Raising.resolve (Raising.item_text root_item)) as [s| |] eqn:E;
      cbn [bind]; try discriminate.
    intros H. rewrite <- H. destruct root_item as [t u o c cs].
    cbn [erase_item item_text item_order Raising.item_text
         Raising.item_order] in *.
    now rewrite (resolve_erase _ _ E). }
  destruct (Raising.walk _ _ _ _ _) as [path_to_root|]; [|trivial].
  destruct (if smem (fst st) "/" then path_to_root ++ ["/"] else path_to_root)
    as [|p ps].
  { destruct (sget (fst st) current_path) as [item|]; cbn [option_map];
      [|trivial].
    destruct (Raising.resolve (Raising.item_text item)) as [s| |] eqn:E;
      cbn [bind]; try discriminate.
    intros H. rewrite <- H. destruct item as [t u o c cs].
    cbn [erase_item item_text item_order item_url Raising.item_text
         Raising.item_order Raising.item_url] in *.
    now rewrite (resolve_erase _ _ E). }
  match goal with |- context [for_each ?b ?l ?a] =>
    destruct (for_each b l a) as [d| |] eqn:F end; cbn [bind];
    try discriminate.
  apply for_each_group_sim in F. rewrite <- F.
  destruct (sget (fst st) "/") as [root_item|]; cbn [option_map]; [|trivial].
  destruct (Raising.resolve (Raising.item_text root_item)) as [s| |] eqn:E;
    cbn [bind]; try discriminate.
  intros H. rewrite <- H. destruct root_item as [t u o c cs].
  cbn [erase_item item_text item_order Raising.item_text
       Raising.item_order] in *.
  now rewrite (resolve_erase _ _ E).
Qed.






Lemma _build_breadcrumb_tree_raising (self : Raising.Breadcrumb)
    (current_app : Flask) (current_path : string) :
  fst (Raising._build_breadcrumb_tree self current_app current_path)
  = Raising.build_tree (Raising.catalog self current_app)
                       (Raising.breadcrumb_metadata self) current_path.
Proof.
  unfold Raising._build_breadcrumb_tree, Raising.catalog, Raising._get_routes.
  now destruct (Raising._routes_cache self).
Qed.

Lemma catalog_erase (self : Raising.Breadcrumb) (current_app : Flask) :
  catalog (erase_self self) current_app = Raising.catalog self current_app.
Proof.
  unfold catalog, Raising.catalog, _get_routes, Raising._get_routes,
    erase_self. cbn.
  now destruct (Raising._routes_cache self).
Qed.

(** What a call that returns a tree returns is what the call with the
    producers made to return returns: every property of the trees of
    [_build_breadcrumb_tree] above is one of the trees that are returned
    when producers can raise. *)
Lemma _build_breadcrumb_tree_sim (self : Raising.Breadcrumb)
    (current_app : Flask) (current_path : string) (r : option node) :
  fst (Raising._build_breadcrumb_tree self current_app current_path)
  = Returns r ->
  fst (_build_breadcrumb_tree (erase_self self) current_app current_path)
  = Returns r.
Proof.
  rewrite _build_breadcrumb_tree_raising, _build_breadcrumb_tree_eq,
    catalog_erase.
  apply build_tree_sim.
Qed.


(* ================================================================= *)
(** ** The claims *)

(** C1.  No dictionary of the tree returned by [_build_breadcrumb_tree]
    has a url that starts with [current_path + "/"]: for every current
    path that is not the empty string, and so for every current path that
    [get_breadcrumb_tree], the caller of the method, computes from a
    request path (it passes "/" for the empty string); for every current
    path none is a child of the current path in the sense of
    [_is_child_of]; and with routes "/", "/a", "/a/b", "/a/b/c" the tree
    built for "/a/b" ends at "/a/b", which has no children. *)
Theorem C1_descendants_pruned :
  (forall self current_app current_path t,
      cache_ok self ->
      current_path <> "" ->
      fst (_build_breadcrumb_tree self current_app current_path)
      = Returns (Some t) ->
      forall n, In n (nodes t) ->
                String.prefix (current_path ++ "/") (url n) = false)
  /\ (forall self current_app request_path t,
         cache_ok self ->
         fst (get_breadcrumb_tree self (Some current_app) request_path)
         = Returns (Some t) ->
         forall n, In n (nodes t) ->
                   String.prefix (request_current_path request_path ++ "/")
                                 (url n) = false)
  /\ (forall self current_app current_path t,
         fst (_build_breadcrumb_tree self current_app current_path)
         = Returns (Some t) ->
         forall n, In n (nodes t) -> _is_child_of (url n) current_path = false)
  /\ fst (_build_breadcrumb_tree Breadcrumb_init
            (app_of [view "/" "index"; view "/a" "a"; view "/a/b" "b";
                     view "/a/b/c" "c"])
            "/a/b")
     = Returns (Some (Node "Home" "/" 0 false
                        [Node "A" "/a" 0 false
                           [Node "B" "/a/b" 0 true []]])).
Proof.
  split; [| split; [| split]].
  - intros self app cp t Hc Hcp Hb n Hn.
    rewrite _build_breadcrumb_tree_eq in Hb.
    apply (build_tree_pruned (catalog self app) (breadcrumb_metadata self)
             cp t); auto.
    now apply catalog_canonical.
  - intros self app rp t Hc Hb n Hn. simpl in Hb.
    fold (request_current_path rp) in Hb.
    rewrite _build_breadcrumb_tree_eq in Hb.
    apply (build_tree_pruned (catalog self app) (breadcrumb_metadata self)
             (request_current_path rp) t); auto.
    + now apply catalog_canonical.
    + unfold request_current_path.
      destruct (String.eqb_spec (PyStr.rstrip slash rp) ""); congruence.
  - intros self app cp t Hb n Hn.
    rewrite _build_breadcrumb_tree_eq in Hb.
    destruct (String.eqb_spec cp "/") as [->|Hne].
    + destruct (existsb is_breadcrumb_route (catalog self app)) eqn:E;
        [| rewrite build_tree_empty in Hb by assumption; discriminate].
      destruct (build_tree_root _ (breadcrumb_metadata self) E) as (i & _ & Heq).
      rewrite Heq in Hb. injection Hb as <-.
      destruct Hn as [<-|[]]. reflexivity.
    + destruct (build_tree_below_root _ _ _ _ Hne Hb) as (Hu & _ & Hd).
      rewrite nodes_eq in Hn. destruct Hn as [<-|Hn].
      * rewrite Hu. apply _is_child_of_root.
      * rewrite Forall_forall in Hd. now destruct (Hd n Hn) as (_ & _ & _ & ?).
  - vm_compute. reflexivity.
Qed.

Lemma C1_descendants_pruned_witness :
  Forall (fun n => String.prefix ("/a/b" ++ "/") (url n) = false)
         (nodes (Node "Home" "/" 0 false
                   [Node "A" "/a" 0 false [Node "B" "/a/b" 0 true []]])).
Proof.
  apply Forall_forall.
  apply (proj1 C1_descendants_pruned Breadcrumb_init
           (app_of [view "/" "index"; view "/a" "a"; view "/a/b" "b";
                    view "/a/b/c" "c"]) "/a/b").
  - apply cache_ok_init.
  - discriminate.
  - vm_compute. reflexivity.
Defined.

(** C2 (as amended).  In a tree returned by [_build_breadcrumb_tree] at
    most one dictionary is marked as the current path, and a marked one has
    the current path as url.  For the current path "/" the root is marked,
    whether or not a route registers "/".  For any other current path,
    exactly one dictionary is marked when the path and all its syntactic
    ancestors other than "/" are registered, and none is marked when the
    path is not registered. *)
Theorem C2_current_marker (self : Breadcrumb) (current_app : Flask)
    (current_path : string) (t : node) :
  fst (_build_breadcrumb_tree self current_app current_path)
  = Returns (Some t) ->
  current_count t <= 1
  /\ (forall n, In n (nodes t) -> is_current_path n = true ->
                url n = current_path)
  /\ (current_path = "/" -> current_count t = 1)
  /\ (current_path <> "/" ->
      (forall u, In u (ancestor_chain current_path) ->
                 is_registered (catalog self current_app) u = true) ->
      current_count t = 1)
  /\ (current_path <> "/" ->
      is_registered (catalog self current_app) current_path = false ->
      current_count t = 0).
Proof.
  rewrite _build_breadcrumb_tree_eq.
  set (routes := catalog self current_app).
  set (metadata := breadcrumb_metadata self). intros Hb.
  destruct (String.eqb_spec current_path "/") as [->|Hne].
  - destruct (existsb is_breadcrumb_route routes) eqn:E;
      [| rewrite build_tree_empty in Hb by assumption; discriminate].
    destruct (build_tree_root routes metadata E) as (i & _ & Heq).
    rewrite Heq in Hb. injection Hb as <-.
    unfold current_count. simpl.
    repeat split; try lia; try congruence.
    intros n [<-|[]] _. reflexivity.
  - destruct (build_tree_below_root _ _ _ _ Hne Hb) as (Hu & Hrc & Hd).
    pose proof (build_tree_unique _ _ _ _ Hne Hb) as Hnd.
    rewrite Forall_forall in Hd.
    assert (Hcur : forall n, In n (descendants t) ->
                     is_current_path n = (url n =? current_path)).
    { intros n Hn. now destruct (Hd n Hn) as (_ & _ & ? & _). }
    destruct (count_marked current_path (descendants t) Hnd Hcur) as [H1 H2].
    assert (Hcount : current_count t
                     = List.length (filter is_current_path (descendants t))).
    { unfold current_count. rewrite nodes_eq. simpl. now rewrite Hrc. }
    rewrite Hcount.
    split; [exact H1 |]. split; [| split; [contradiction | split]].
    + intros n Hn Hc. rewrite nodes_eq in Hn. destruct Hn as [<-|Hn];
        [congruence |].
      rewrite (Hcur n Hn) in Hc. now apply String.eqb_eq.
    + intros _ Hall. apply H2.
      now apply (build_tree_reaches routes metadata current_path t).
    + intros _ Hreg.
      rewrite filter_none; [reflexivity |].
      intros n Hn. rewrite (Hcur n Hn). apply String.eqb_neq. intros En.
      destruct (Hd n Hn) as (Hm & Hnr & _).
      rewrite items_of_mem, En, Hreg in Hm.
      now destruct (String.eqb_spec current_path "/").
Qed.

Lemma C2_current_marker_witness :
  current_count (Node "Home" "/" 0 false
                   [Node "A" "/a" 0 false [Node "B" "/a/b" 0 true []]]) <= 1.
Proof.
  apply (C2_current_marker Breadcrumb_init
           (app_of [view "/" "index"; view "/a" "a"; view "/a/b" "b";
                    view "/a/b/c" "c"]) "/a/b").
  vm_compute. reflexivity.
Defined.

(** With "/a/b" missing, the registered current path "/a/b/c" is marked
    nowhere in the tree; and for the current path "/" the synthesised root
    is marked although no route registers "/". *)
Lemma C2_counterexample_marker :
  (is_registered
     (catalog Breadcrumb_init
        (app_of [view "/" "index"; view "/a" "a"; view "/a/b/c" "c"]))
     "/a/b/c" = true
   /\ exists t,
       fst (_build_breadcrumb_tree Breadcrumb_init
              (app_of [view "/" "index"; view "/a" "a"; view "/a/b/c" "c"])
              "/a/b/c")
       = Returns (Some t)
       /\ current_count t = 0)
  /\ (is_registered (catalog Breadcrumb_init (app_of [view "/a" "a"])) "/"
      = false
      /\ exists t,
          fst (_build_breadcrumb_tree Breadcrumb_init (app_of [view "/a" "a"])
                 "/")
          = Returns (Some t)
          /\ current_count t = 1).
Proof.
  split; (split; [vm_compute; reflexivity |]);
    eexists; (split; [vm_compute; reflexivity | reflexivity]).
Qed.

(** C3 (what the code does).  With "/", "/a" and "/a/b/c" registered and
    "/a/b" not, the tree built for "/a/b/c" is the root with the child
    "/a", which has no children: no dictionary for "/a/b" is made up, and
    none for "/a/b/c" is attached anywhere. *)
Lemma C3_skipped_level_dropped :
  fst (_build_breadcrumb_tree Breadcrumb_init
         (app_of [view "/" "index"; view "/a" "a"; view "/a/b/c" "c"])
         "/a/b/c")
  = Returns (Some (Node "Home" "/" 0 false [Node "A" "/a" 0 false []])).
Proof. vm_compute. reflexivity. Qed.

(** C4.  In every tree returned by [_build_breadcrumb_tree] the children
    of every dictionary are sorted by order and then by url, and
    [BreadcrumbItem.add_child] keeps sorted children sorted.  Siblings
    "/c", "/a", "/b" registered with orders 2, 0, 1 come out as "/a", "/b",
    "/c"; siblings "/b", "/a" with the same order come out as "/a",
    "/b". *)
Theorem C4_children_sorted :
  (forall self current_app current_path t,
      fst (_build_breadcrumb_tree self current_app current_path)
      = Returns (Some t) ->
      forall n, In n (nodes t) -> StronglySorted sibling_le (children n))
  /\ (forall self child,
         sorted_keys (map item_key (item_children self)) ->
         sorted_keys (map item_key (item_children (add_child self child))))
  /\ fst (_build_breadcrumb_tree
            (decorate (decorate (decorate Breadcrumb_init "c" "C" 2) "a" "A" 0)
                      "b" "B" 1)
            (app_of [view "/c" "c"; view "/a" "a"; view "/b" "b"]) "/a")
     = Returns (Some (Node "Home" "/" 0 false
                        [Node "A" "/a" 0 true [];
                         Node "B" "/b" 1 false [];
                         Node "C" "/c" 2 false []]))
  /\ fst (_build_breadcrumb_tree
            (decorate (decorate Breadcrumb_init "b" "B" 5) "a" "A" 5)
            (app_of [view "/b" "b"; view "/a" "a"]) "/b")
     = Returns (Some (Node "Home" "/" 0 false
                        [Node "A" "/a" 5 false [];
                         Node "B" "/b" 5 true []])).
Proof.
  split; [| split; [exact add_child_sorted | split; vm_compute; reflexivity]].
  intros self app cp t Hb n Hn. rewrite _build_breadcrumb_tree_eq in Hb.
  apply build_tree_sorted in Hb. rewrite Forall_forall in Hb.
  apply sorted_keys_siblings. now apply Hb.
Qed.

Lemma C4_children_sorted_witness :
  Forall (fun n => StronglySorted sibling_le (children n))
         (nodes (Node "Home" "/" 0 false
                   [Node "A" "/a" 0 true [];
                    Node "B" "/b" 1 false [];
                    Node "C" "/c" 2 false []])).
Proof.
  apply Forall_forall.
  apply (proj1 C4_children_sorted
           (decorate (decorate (decorate Breadcrumb_init "c" "C" 2) "a" "A" 0)
                     "b" "B" 1)
           (app_of [view "/c" "c"; view "/a" "a"; view "/b" "b"]) "/a").
  vm_compute. reflexivity.
Defined.

(** C5 (as amended: for a catalog with at least one GET route whose
    endpoint does not start with "static").  For the current path "/" the
    result is the root dictionary alone: url "/", marked current, no
    children, however many routes there are.  When no route gets a
    breadcrumb item the result is the empty dictionary. *)
Theorem C5_root_short_circuit (self : Breadcrumb) (current_app : Flask) :
  (existsb is_breadcrumb_route (catalog self current_app) = true ->
   exists text order,
     fst (_build_breadcrumb_tree self current_app "/")
     = Returns (Some (Node text "/" order true [])))
  /\ (existsb is_breadcrumb_route (catalog self current_app) = false ->
      fst (_build_breadcrumb_tree self current_app "/") = Returns None).
Proof.
  rewrite _build_breadcrumb_tree_eq. split; intros H.
  - destruct (build_tree_root _ (breadcrumb_metadata self) H) as (i & _ & ->).
    eauto.
  - now apply build_tree_empty.
Qed.

Lemma C5_root_short_circuit_witness :
  exists text order,
    fst (_build_breadcrumb_tree Breadcrumb_init
           (app_of [view "/a" "a"; view "/b" "b"; view "/a/c" "c"]) "/")
    = Returns (Some (Node text "/" order true [])).
Proof.
  apply (proj1 (C5_root_short_circuit Breadcrumb_init
                  (app_of [view "/a" "a"; view "/b" "b"; view "/a/c" "c"]))).
  vm_compute. reflexivity.
Defined.

(** An application with no view of its own: the result for "/" is the
    empty dictionary, not a root. *)
Lemma C5_counterexample_no_views :
  fst (_build_breadcrumb_tree Breadcrumb_init (app_of []) "/") = Returns None
  /\ ~ (exists t,
          fst (_build_breadcrumb_tree Breadcrumb_init (app_of []) "/")
          = Returns (Some t) /\ url t = "/" /\ children t = []).
Proof.
  split; [vm_compute; reflexivity |].
  intros (t & H & _). vm_compute in H. discriminate.
Qed.




(** C7.  When the set of materialised breadcrumb items is not empty, the
    result of [_build_breadcrumb_tree] is a tree whose root has url "/" and
    in which no other dictionary has url "/"; when no route registers "/",
    the root has text "Home" and order 0. *)
Theorem C7_single_root (self : Breadcrumb) (current_app : Flask)
    (current_path : string) :
  fst (materialize (catalog self current_app) (breadcrumb_metadata self)
                   current_path) <> [] ->
  exists t,
    fst (_build_breadcrumb_tree self current_app current_path)
    = Returns (Some t)
    /\ url t = "/"
    /\ Forall (fun n => url n <> "/") (descendants t)
    /\ (is_registered (catalog self current_app) "/" = false ->
        text t = "Home" /\ order t = 0%Z).
Proof.
  intros Hitems. rewrite _build_breadcrumb_tree_eq.
  set (routes := catalog self current_app) in *.
  set (metadata := breadcrumb_metadata self) in *.
  assert (E : existsb is_breadcrumb_route routes = true).
  { destruct (existsb is_breadcrumb_route routes) eqn:E; [reflexivity |].
    apply (materialize_nil routes metadata current_path) in E. contradiction. }
  destruct (String.eqb_spec current_path "/") as [->|Hne].
  - destruct (build_tree_root routes metadata E) as (i & Hi & Heq).
    eexists. split; [exact Heq |]. simpl. repeat split; [constructor | |];
      rewrite items_of_default_root in Hi by assumption;
      now injection Hi as <-.
  - destruct (build_tree_main routes metadata current_path E Hne)
      as (i & Hi & Heq).
    eexists. split; [exact Heq |].
    destruct (build_tree_below_root _ _ _ _ Hne Heq) as (Hu & _ & Hd).
    split; [exact Hu |]. split.
    + eapply Forall_impl; [| exact Hd]. now intros n (_ & ? & _).
    + intros Hreg.
      match goal with |- context [assemble ?G ?c ?p ?r] =>
        destruct (assemble_header G c p r) as [cs ->] end.
      simpl. rewrite items_of_default_root in Hi by assumption.
      now injection Hi as <-.
Qed.

Lemma C7_single_root_witness :
  exists t,
    fst (_build_breadcrumb_tree Breadcrumb_init
           (app_of [view "/a" "a"; view "/a/b" "b"]) "/a/b")
    = Returns (Some t)
    /\ url t = "/"
    /\ Forall (fun n => url n <> "/") (descendants t)
    /\ (is_registered
          (catalog Breadcrumb_init (app_of [view "/a" "a"; view "/a/b" "b"]))
          "/" = false ->
        text t = "Home" /\ order t = 0%Z).
Proof. apply C7_single_root. vm_compute. discriminate. Defined.


(** C9.  The ancestor walk of [_build_breadcrumb_tree] exits after at most
    [len(current_path) + 2] tests of its loop condition, for every
    dictionary of items and every current path: a step from a path other
    than "/" leads to "/" or to a strictly shorter path, [_get_parent_url]
    removes the last segment (a single-segment path has parent "/"), and
    only "/" is its own parent.  The whole call returns. *)
Theorem C9_ancestor_walk_terminates :
  (forall (breadcrumb_items : dict string BreadcrumbItem) current_path,
      exists path_to_root,
        forall fuel, String.length current_path + 2 <= fuel ->
          walk fuel breadcrumb_items (parent_urls breadcrumb_items)
               current_path [] = Some path_to_root)
  /\ (forall path,
         _get_parent_url path = "/"
         \/ String.length (_get_parent_url path) < String.length path)
  /\ (forall path, _get_parent_url path = path <-> path = "/")
  /\ (forall segment,
         contains slash segment = false ->
         _get_parent_url ("/" ++ segment) = "/")
  /\ (forall path segment,
         contains slash path = true ->
         segment <> "" -> contains slash segment = false ->
         _get_parent_url (path ++ "/" ++ segment) = path)
  /\ (forall self current_app current_path,
         exists r,
           fst (_build_breadcrumb_tree self current_app current_path)
           = Returns r).
Proof.
  repeat split.
  - intros items cp.
    exists (filter (smem items) (ancestor_chain cp)). intros fuel Hf.
    rewrite (walk_ancestors _ _ (parent_urls_ok items)) by assumption.
    simpl. f_equal. f_equal. apply ancestors_fuel; lia.
  - apply _get_parent_url_shorter.
  - apply _get_parent_url_fixpoint.
  - apply _get_parent_url_fixpoint.
  - apply _get_parent_url_single.
  - apply _get_parent_url_segment.
  - intros self app cp. rewrite _build_breadcrumb_tree_eq.
    apply build_tree_returns.
Qed.

(** C10.  The function returned by the decorator of [Breadcrumb.__call__],
    and by the module-level [breadcrumb] whether or not the extension is
    initialised, returns what the view function returns on all arguments
    and keeps its name; [Breadcrumb.__call__] changes nothing of the
    object but the metadata stored under the view's name, and the
    module-level decorator leaves an application without the extension as
    it is. *)
Theorem C10_decorator_transparent :
  forall (A R : Type) (f : view_function A R) (text : label)
         (order max_depth : option Z),
    (forall self args,
        call (snd (Breadcrumb_call self text order max_depth f)) args
        = call f args)
    /\ (forall self,
           __name__ (snd (Breadcrumb_call self text order max_depth f))
           = __name__ f
           /\ breadcrumb_metadata
                (fst (Breadcrumb_call self text order max_depth f))
              = sset (breadcrumb_metadata self) (__name__ f)
                     {| md_text := text; md_order := order;
                        md_max_depth := max_depth |}
           /\ _routes_cache (fst (Breadcrumb_call self text order max_depth f))
              = _routes_cache self)
    /\ (forall current_app args,
           call (snd (breadcrumb current_app text order max_depth f)) args
           = call f args)
    /\ (forall current_app,
           (extensions current_app = None
            \/ exists exts, extensions current_app = Some exts
                            /\ sget exts "breadcrumb" = None) ->
           fst (breadcrumb current_app text order max_depth f) = current_app).
Proof.
  intros A R f text order max_depth.
  split; [reflexivity |]. split; [now intros self |]. split.
  - intros app args. unfold breadcrumb.
    destruct (extensions app) as [exts|]; [| reflexivity].
    destruct (sget exts "breadcrumb"); reflexivity.
  - intros app [H|(exts & H & H')]; unfold breadcrumb; rewrite H;
      [reflexivity | now rewrite H'].
Qed.

(* ================================================================= *)
(** ** Further properties of the code

    Properties of the helpers, of [BreadcrumbItem], of the maps and loops
    of [_build_breadcrumb_tree], of the cache and of the module-level
    functions, beyond the claims. *)

(* ================================================================= *)
(** ** Children and parents *)

Lemma slice_to_inv (p : string) : forall s,
    PyStr.slice_to (String.length p) s = p -> exists x, s = (p ++ x)%string.
Proof.
  unfold PyStr.slice_to.
  induction p as [|a p IH]; intros s H.
  - exists s. reflexivity.
  - destruct s as [|b s]; simpl in H; [discriminate|].
    injection H as -> H. destruct (IH _ H) as [x ->].
    exists x. reflexivity.
Qed.

Lemma get_app_inv (p : string) (c : ascii) : forall x,
    String.get (String.length p) (p ++ x) = Some c ->
    exists r, x = String c r.
Proof.
  induction p as [|a p IH]; intros x H; simpl in H.
  - destruct x as [|b x]; [discriminate|].
    injection H as ->. exists x. reflexivity.
  - apply IH, H.
Qed.

Lemma _is_child_of_inv (child_url parent_url : string) :
  parent_url <> "/" ->
  _is_child_of child_url parent_url = true ->
  exists r, r <> "" /\ child_url = (parent_url ++ "/" ++ r)%string.
Proof.
  intros Hp H. unfold _is_child_of in H.
  destruct (String.eqb_spec parent_url "/") as [|_]; [contradiction|].
  apply andb_prop in H as [H Hget]. apply andb_prop in H as [Hlen Hslice].
  apply String.eqb_eq in Hslice.
  destruct (slice_to_inv _ _ Hslice) as [x ->].
  destruct (String.get (String.length parent_url) (parent_url ++ x)) as [c|] eqn:E;
    [|discriminate].
  apply Ascii.eqb_eq in Hget. subst c.
  destruct (get_app_inv _ _ _ E) as [r ->].
  exists r. split; [|reflexivity].
  intros ->. apply Nat.ltb_lt in Hlen.
  rewrite string_length_app in Hlen. simpl in Hlen. lia.
Qed.

Lemma app_slash_not_root (p r : string) : r <> "" -> (p ++ "/" ++ r)%string <> "/".
Proof.
  intros Hr H. apply (f_equal String.length) in H.
  rewrite string_length_app in H. simpl in H.
  destruct r; [contradiction | simpl in H; lia].
Qed.

Lemma _is_child_of_trans (a b c : string) :
  _is_child_of a b = true -> _is_child_of b c = true ->
  _is_child_of a c = true.
Proof.
  intros Hab Hbc.
  assert (Ha : a <> "/").
  { destruct (String.eqb_spec b "/") as [->|Hb].
    - unfold _is_child_of in Hab. rewrite String.eqb_refl in Hab.
      intros ->. discriminate.
    - destruct (_is_child_of_inv _ _ Hb Hab) as (r & Hr & ->).
      now apply app_slash_not_root. }
  destruct (String.eqb_spec c "/") as [->|Hc].
  - unfold _is_child_of. rewrite String.eqb_refl.
    destruct (String.eqb_spec a "/"); [contradiction | reflexivity].
  - destruct (_is_child_of_inv _ _ Hc Hbc) as (r2 & Hr2 & ->).
    assert (Hb : (c ++ "/" ++ r2)%string <> "/") by now apply app_slash_not_root.
    destruct (_is_child_of_inv _ _ Hb Hab) as (r1 & Hr1 & ->).
    rewrite app_assoc_str. cbn [String.append].
    rewrite <- (app_assoc_str r2 "/" r1) at 1.
    change (String "/" (r2 ++ "/" ++ r1)%string)
      with ("/" ++ (r2 ++ "/" ++ r1))%string.
    apply _is_child_of_app; [assumption|].
    destruct r2; [contradiction | discriminate].
Qed.

Lemma rstrip_no_trailing (c : ascii) (s : string) :
  PyStr.endswith s c = false -> PyStr.rstrip c s = s.
Proof.
  induction s as [|a s IH]; intros H; [reflexivity|].
  cbn [PyStr.rstrip]. destruct s as [|b s].
  - simpl in H. simpl. now rewrite H.
  - rewrite IH by exact H. reflexivity.
Qed.

Lemma split_last_nonempty (c : ascii) (s : string) :
  s <> "" -> PyStr.endswith s c = false -> List.last (PyStr.split c s) "" <> "".
Proof.
  induction s as [|a s IH]; intros Hs H; [contradiction|].
  cbn [PyStr.split]. destruct s as [|b s].
  - simpl in H. rewrite H. simpl. discriminate.
  - assert (IH' := IH ltac:(discriminate) H).
    destruct (Ascii.eqb a c).
    + destruct (PyStr.split c (String b s)) eqn:E;
        [now apply split_not_nil in E|]. exact IH'.
    + destruct (PyStr.split c (String b s)) as [|p ps] eqn:E;
        [now apply split_not_nil in E|].
      destruct ps as [|q ps].
      * simpl in *. discriminate.
      * exact IH'.
Qed.

Lemma _get_parent_url_child (u : string) :
  u <> "" -> u <> "/" -> PyStr.endswith u slash = false ->
  _is_child_of u (_get_parent_url u) = true.
Proof.
  intros Hne Hroot Hend.
  destruct (String.eqb_spec (_get_parent_url u) "/") as [E|Hp].
  - rewrite E. unfold _is_child_of. rewrite String.eqb_refl.
    destruct (String.eqb_spec u "/"); [contradiction | reflexivity].
  - assert (Hu : u = (_get_parent_url u ++ "/"
                      ++ List.last (PyStr.split slash u) "")%string).
    { revert Hp. unfold _get_parent_url.
      rewrite (rstrip_no_trailing _ _ Hend).
      destruct (String.eqb_spec u ""); [contradiction|].
      destruct (Nat.leb_spec (List.length (PyStr.split slash u)) 2) as [|Hl];
        [intros Hp; now contradiction Hp|].
      intros _. unfold PyStr.join.
      rewrite <- concat_removelast by lia.
      symmetry. apply (join_split slash). }
    rewrite Hu at 1. apply _is_child_of_app; [assumption|].
    now apply split_last_nonempty.
Qed.

(** X1.  [_is_child_of] decides "starts with the parent, a slash and
    something more"; for the parent "/" every other string is a child. *)
Theorem X1_is_child_of_iff (child_url parent_url : string) :
  (parent_url = "/" ->
   (_is_child_of child_url parent_url = true <-> child_url <> "/"))
  /\ (parent_url <> "/" ->
      (_is_child_of child_url parent_url = true
       <-> exists r, r <> ""
                     /\ child_url = (parent_url ++ "/" ++ r)%string)).
Proof.
  split.
  - intros ->. unfold _is_child_of. rewrite String.eqb_refl.
    destruct (String.eqb_spec child_url "/"); simpl; split; congruence.
  - intros Hp. split.
    + now apply _is_child_of_inv.
    + intros (r & Hr & ->). now apply _is_child_of_app.
Qed.

(** X2.  [_is_child_of] is a strict order: nothing is its own child, and a
    child of a child is a child. *)
Theorem X2_is_child_of_strict_order :
  (forall u, _is_child_of u u = false)
  /\ (forall a b c,
         _is_child_of a b = true -> _is_child_of b c = true ->
         _is_child_of a c = true).
Proof. split; [apply _is_child_of_irrefl | apply _is_child_of_trans]. Qed.

(** X3.  A path that is not empty, not "/" and has no trailing slash is a
    child of the parent [_get_parent_url] gives it. *)
Theorem X3_child_of_its_parent (u : string) :
  u <> "" -> u <> "/" -> PyStr.endswith u slash = false ->
  _is_child_of u (_get_parent_url u) = true.
Proof. apply _get_parent_url_child. Qed.

Lemma X3_child_of_its_parent_witness :
  _is_child_of "/a/b/c" (_get_parent_url "/a/b/c") = true.
Proof.
  apply (X3_child_of_its_parent "/a/b/c"); [discriminate | discriminate | reflexivity].
Defined.

(* ================================================================= *)
(** ** Trailing slashes *)

Lemma rstrip_app_sep (c : ascii) (s : string) :
  PyStr.rstrip c (s ++ String c "") = PyStr.rstrip c s.
Proof.
  induction s as [|a s IH]; simpl.
  - now rewrite Ascii.eqb_refl.
  - now rewrite IH.
Qed.

Lemma rstrip_endswith (c : ascii) (s : string) :
  PyStr.endswith (PyStr.rstrip c s) c = false.
Proof.
  induction s as [|a s IH]; [reflexivity|].
  cbn [PyStr.rstrip]. destruct (PyStr.rstrip c s) as [|b r] eqn:E.
  - destruct (Ascii.eqb a c) eqn:Ea; [reflexivity|]. simpl. exact Ea.
  - exact IH.
Qed.

Lemma request_current_path_canonical (request_path : string) :
  request_current_path request_path <> ""
  /\ canonical_url (request_current_path request_path).
Proof.
  unfold request_current_path, canonical_url.
  destruct (String.eqb_spec (PyStr.rstrip slash request_path) "") as [E|Hne].
  - split; [discriminate | now left].
  - split; [assumption | right; apply rstrip_endswith].
Qed.

(* ================================================================= *)
(** ** Default texts *)

Lemma replace_absent (a b x : ascii) (s : string) :
  Ascii.eqb b x = false ->
  (Ascii.eqb a x = true \/ contains x s = false) ->
  contains x (PyStr.replace a b s) = false.
Proof.
  intros Hb H. induction s as [|c s IH]; [reflexivity|].
  cbn [PyStr.replace contains].
  destruct H as [Ha|Hs].
  - rewrite IH by now left. rewrite orb_false_r.
    apply Ascii.eqb_eq in Ha. subst x.
    destruct (Ascii.eqb_spec c a); [exact Hb | now apply Ascii.eqb_neq].
  - cbn [contains] in Hs. apply orb_false_elim in Hs as [Hc Hs].
    rewrite IH by now right. rewrite orb_false_r.
    destruct (Ascii.eqb c a); assumption.
Qed.

Lemma to_upper_not_mark (c x : ascii) :
  x = "-"%char \/ x = "_"%char ->
  Ascii.eqb c x = false -> Ascii.eqb (PyStr.to_upper c) x = false.
Proof.
  intros [-> | ->];
    destruct c as [[] [] [] [] [] [] [] []]; vm_compute; trivial.
Qed.

Lemma to_lower_not_mark (c x : ascii) :
  x = "-"%char \/ x = "_"%char ->
  Ascii.eqb c x = false -> Ascii.eqb (PyStr.to_lower c) x = false.
Proof.
  intros [-> | ->];
    destruct c as [[] [] [] [] [] [] [] []]; vm_compute; trivial.
Qed.

Lemma title_from_absent (x : ascii) (s : string) :
  x = "-"%char \/ x = "_"%char ->
  contains x s = false ->
  forall previous_is_cased,
    contains x (PyStr.title_from previous_is_cased s) = false.
Proof.
  intros Hx. induction s as [|c s IH]; intros H previous_is_cased;
    [reflexivity|].
  cbn [contains] in H. apply orb_false_elim in H as [Hc Hs].
  cbn [PyStr.title_from].
  destruct (PyStr.is_lower c); [|destruct (PyStr.is_upper c)];
    cbn [contains]; rewrite (IH Hs), orb_false_r;
    try destruct previous_is_cased; trivial;
    [now apply to_upper_not_mark | now apply to_lower_not_mark].
Qed.

Lemma _generate_default_text_marks (x : ascii) (url : string) :
  x = "-"%char \/ x = "_"%char ->
  contains x (_generate_default_text url) = false.
Proof.
  intros Hx. unfold _generate_default_text.
  destruct (PyStr.rstrip slash url =? ""); [now destruct Hx as [-> | ->]|].
  match goal with |- context [PyStr.title ?s] => set (w := s) end.
  destruct (PyStr.title w =? ""); [now destruct Hx as [-> | ->]|].
  apply title_from_absent; [assumption|]. subst w.
  destruct Hx as [-> | ->].
  - apply replace_absent; [reflexivity|]. right.
    apply replace_absent; [reflexivity | now left].
  - apply replace_absent; [reflexivity | now left].
Qed.

Lemma _generate_default_text_nonempty (url : string) :
  _generate_default_text url <> "".
Proof.
  unfold _generate_default_text.
  destruct (PyStr.rstrip slash url =? ""); [discriminate|].
  match goal with |- context [PyStr.title ?s] => set (w := s) end.
  destruct (String.eqb_spec (PyStr.title w) ""); [discriminate | assumption].
Qed.

Lemma last_app_single {A : Type} (l : list A) (x d : A) :
  List.last (l ++ [x]) d = x.
Proof.
  induction l as [|y l IH]; [reflexivity|].
  simpl. destruct (l ++ [x]) eqn:E; [now destruct l | exact IH].
Qed.

Lemma _generate_default_text_segment (path segment : string) :
  segment <> "" -> contains slash segment = false ->
  _generate_default_text (path ++ "/" ++ segment)
  = _generate_default_text segment.
Proof.
  intros Hne Hc. unfold _generate_default_text.
  change (path ++ "/" ++ segment)%string
    with (path ++ String slash segment)%string.
  assert (E1 : PyStr.rstrip slash (path ++ String slash segment)
               = (path ++ String slash segment)%string).
  { change (String slash segment) with ("/" ++ segment)%string.
    rewrite <- app_assoc_str. now apply rstrip_app_no_sep. }
  rewrite E1, (rstrip_no_sep _ _ Hne Hc).
  rewrite split_app, (split_no_sep _ _ Hc), last_app_single.
  destruct (String.eqb_spec (path ++ String slash segment) "") as [E|_].
  - destruct path; discriminate.
  - destruct (String.eqb_spec segment ""); [contradiction|].
    reflexivity.
Qed.

(* ================================================================= *)
(** ** Fixed points of the normalisation *)

Lemma sub_length (a : Re.atom) (re : Re.regex) (repl : string) :
  String.length repl <= 1 ->
  forall s, String.length (Re.sub (Re.One a :: re) repl s) <= String.length s.
Proof.
  intros Hrepl s.
  remember (String.length s) as n eqn:Hn. revert s Hn.
  induction n as [n IH] using lt_wf_ind. intros s Hn.
  destruct s as [|c s]; [subst n; simpl; lia|].
  rewrite sub_cons.
  destruct (Re.match_here (Re.One a :: re) (String c s)) as [r|] eqn:E.
  - apply match_here_shorter in E. rewrite string_length_app.
    assert (H := IH (String.length r) ltac:(subst n; exact E) r eq_refl).
    lia.
  - cbn [String.length] in *.
    assert (H := IH (String.length s) ltac:(lia) s eq_refl). lia.
Qed.

Lemma drop_last_length (s : string) :
  String.length (PyStr.drop_last s) <= String.length s.
Proof.
  induction s as [|c s IH]; [simpl; lia|].
  destruct s as [|d s]; [simpl; lia|].
  change (PyStr.drop_last (String c (String d s)))
    with (String c (PyStr.drop_last (String d s))).
  cbn [String.length] in *. lia.
Qed.

Lemma normalize_url_length (s : string) :
  String.length (normalize_url s) <= String.length s.
Proof.
  unfold normalize_url.
  assert (H1 := sub_length (Re.Chr "<"%char)
                  [Re.Plus (Re.NotChr ">"%char); Re.One (Re.Chr ">"%char)]
                  "" ltac:(simpl; lia) s).
  fold variable_part in H1.
  assert (H2 := sub_length (Re.Chr slash) [Re.Plus (Re.Chr slash)]
                  "/" ltac:(simpl; lia) (Re.sub variable_part "" s)).
  fold duplicate_slashes in H2.
  match goal with |- context [if ?b then _ else _] => destruct b end.
  - pose proof (drop_last_length
                  (Re.sub duplicate_slashes "/" (Re.sub variable_part "" s))).
    lia.
  - lia.
Qed.

Lemma normalize_url_fixed (s : string) :
  normalize_url s = s
  <-> Re.search variable_part s = false
      /\ Re.search duplicate_slashes s = false
      /\ canonical_url s.
Proof.
  split.
  - intros H. rewrite <- H.
    auto using normalize_url_no_variable, normalize_url_no_slashes,
               normalize_url_canonical.
  - intros (Hv & Hd & Hc). unfold normalize_url.
    unfold variable_part in *. rewrite (sub_no_match _ _ _ _ Hv).
    unfold duplicate_slashes in *. rewrite (sub_no_match _ _ _ _ Hd).
    destruct Hc as [->| ->]; [reflexivity | now rewrite andb_false_r].
Qed.

Lemma normalize_url_absolute (s : string) :
  head s = Some slash -> head (normalize_url s) = Some slash.
Proof.
  intros H. destruct s as [|c s]; [discriminate|].
  injection H as ->. unfold normalize_url.
  assert (Hv : Re.sub variable_part "" (String slash s)
               = String slash (Re.sub variable_part "" s)).
  { unfold variable_part. rewrite sub_cons. fold variable_part.
    rewrite match_variable_part. destruct s; reflexivity. }
  rewrite Hv.
  pose proof (sub_slashes_head (String slash (Re.sub variable_part "" s))) as Hh.
  destruct (Re.sub duplicate_slashes "/"
              (String slash (Re.sub variable_part "" s))) as [|c r];
    [discriminate|].
  injection Hh as ->.
  destruct r as [|d r]; [reflexivity|].
  match goal with |- context [if ?b then _ else _] => destruct b end;
    reflexivity.
Qed.

(** X4.  [_get_parent_url], [_generate_default_text] and
    [get_breadcrumb_tree] strip trailing slashes first: one more slash at
    the end changes nothing, and the current path [get_breadcrumb_tree]
    builds the tree for is never empty and is "/" or has no trailing slash.
    *)
Theorem X4_trailing_slash_ignored :
  (forall url, _get_parent_url (url ++ "/") = _get_parent_url url)
  /\ (forall url,
         _generate_default_text (url ++ "/") = _generate_default_text url)
  /\ (forall self current_app request_path,
         get_breadcrumb_tree self current_app (request_path ++ "/")
         = get_breadcrumb_tree self current_app request_path)
  /\ (forall self current_app request_path,
         get_breadcrumb_tree self (Some current_app) request_path
         = _build_breadcrumb_tree self current_app
             (request_current_path request_path)
         /\ request_current_path request_path <> ""
         /\ (request_current_path request_path = "/"
             \/ PyStr.endswith (request_current_path request_path) slash
                = false)).
Proof.
  repeat split.
  - intros url. unfold _get_parent_url.
    change (url ++ "/")%string with (url ++ String slash "")%string.
    now rewrite rstrip_app_sep.
  - intros url. unfold _generate_default_text.
    change (url ++ "/")%string with (url ++ String slash "")%string.
    now rewrite rstrip_app_sep.
  - intros self [current_app|] request_path; [|reflexivity].
    unfold get_breadcrumb_tree, request_current_path.
    change (request_path ++ "/")%string
      with (request_path ++ String slash "")%string.
    now rewrite rstrip_app_sep.
  - apply request_current_path_canonical.
  - apply request_current_path_canonical.
Qed.

Lemma is_ascii_rstrip (c : ascii) (s : string) :
  is_ascii s = true -> is_ascii (PyStr.rstrip c s) = true.
Proof.
  induction s as [|a s IH]; [trivial|].
  cbn [is_ascii PyStr.rstrip]. intros H. apply andb_prop in H as [Ha Hs].
  specialize (IH Hs). destruct (PyStr.rstrip c s).
  - destruct (Ascii.eqb a c); [reflexivity|]. cbn [is_ascii]. now rewrite Ha.
  - cbn [is_ascii] in *. now rewrite Ha, IH.
Qed.

Lemma is_ascii_split (c : ascii) (s : string) :
  is_ascii s = true -> Forall (fun p => is_ascii p = true) (PyStr.split c s).
Proof.
  induction s as [|a s IH]; [repeat constructor|].
  cbn [is_ascii PyStr.split]. intros H. apply andb_prop in H as [Ha Hs].
  specialize (IH Hs). destruct (Ascii.eqb a c); [now constructor|].
  destruct (PyStr.split c s) as [|p ps].
  - constructor; [cbn [is_ascii]; now rewrite Ha | constructor].
  - inversion IH as [|? ? Hp Hps]; subst.
    constructor; [cbn [is_ascii]; now rewrite Ha, Hp | assumption].
Qed.

Lemma is_ascii_last (l : list string) :
  Forall (fun p => is_ascii p = true) l -> is_ascii (List.last l "") = true.
Proof.
  induction 1 as [|p l Hp Hl IH]; [reflexivity|].
  cbn [List.last]. now destruct l.
Qed.

Lemma is_ascii_replace (a b : ascii) (s : string) :
  (nat_of_ascii b <? 128)%nat = true ->
  is_ascii s = true -> is_ascii (PyStr.replace a b s) = true.
Proof.
  intros Hb. induction s as [|c s IH]; [trivial|].
  cbn [is_ascii PyStr.replace]. intros H. apply andb_prop in H as [Hc Hs].
  rewrite (IH Hs), andb_true_r. now destruct (Ascii.eqb c a).
Qed.

Lemma is_ascii_case (c : ascii) :
  (nat_of_ascii c <? 128)%nat = true ->
  (nat_of_ascii (PyStr.to_upper c) <? 128)%nat = true
  /\ (nat_of_ascii (PyStr.to_lower c) <? 128)%nat = true.
Proof.
  destruct c as [[] [] [] [] [] [] [] []]; vm_compute; auto.
Qed.

Lemma is_ascii_title_from (s : string) :
  is_ascii s = true ->
  forall previous_is_cased,
    is_ascii (PyStr.title_from previous_is_cased s) = true.
Proof.
  induction s as [|c s IH]; [trivial|].
  cbn [is_ascii]. intros H previous_is_cased.
  apply andb_prop in H as [Hc Hs].
  destruct (is_ascii_case c Hc) as [Hu Hl].
  cbn [PyStr.title_from].
  destruct (PyStr.is_lower c); [|destruct (PyStr.is_upper c)];
    cbn [is_ascii]; rewrite (IH Hs), andb_true_r;
    try destruct previous_is_cased; assumption.
Qed.

Lemma _generate_default_text_ascii (url : string) :
  is_ascii url = true -> is_ascii (_generate_default_text url) = true.
Proof.
  intros H. unfold _generate_default_text.
  destruct (PyStr.rstrip slash url =? ""); [reflexivity|].
  match goal with |- context [PyStr.title ?s] => set (w := s) end.
  destruct (PyStr.title w =? ""); [reflexivity|].
  apply is_ascii_title_from. subst w.
  do 2 (apply is_ascii_replace; [reflexivity|]).
  now apply is_ascii_last, is_ascii_split, is_ascii_rstrip.
Qed.

(** X5.  For a url of ASCII characters, on which [title] is the
    [str.title] of Python: the default text is never empty, is ASCII too,
    has no hyphen and no underscore, and is made from the last segment
    alone. *)
Theorem X5_default_text (url : string) :
  is_ascii url = true ->
  _generate_default_text url <> ""
  /\ is_ascii (_generate_default_text url) = true
  /\ contains "-"%char (_generate_default_text url) = false
  /\ contains "_"%char (_generate_default_text url) = false
  /\ (forall path segment,
         url = (path ++ "/" ++ segment)%string ->
         segment <> "" -> contains slash segment = false ->
         _generate_default_text url = _generate_default_text segment).
Proof.
  intros Ha. split; [apply _generate_default_text_nonempty|].
  split; [now apply _generate_default_text_ascii|].
  split; [apply _generate_default_text_marks; auto|].
  split; [apply _generate_default_text_marks; auto|].
  intros path segment ->. apply _generate_default_text_segment.
Qed.

Lemma X5_default_text_witness :
  _generate_default_text "/user-profile/edit_all" <> ""
  /\ is_ascii (_generate_default_text "/user-profile/edit_all") = true
  /\ contains "-"%char (_generate_default_text "/user-profile/edit_all")
     = false
  /\ contains "_"%char (_generate_default_text "/user-profile/edit_all")
     = false
  /\ (forall path segment,
         "/user-profile/edit_all" = (path ++ "/" ++ segment)%string ->
         segment <> "" -> contains slash segment = false ->
         _generate_default_text "/user-profile/edit_all"
         = _generate_default_text segment).
Proof. apply (X5_default_text "/user-profile/edit_all"). reflexivity. Defined.

(** X6.  The strings [normalize_url] leaves as they are are those without a
    variable part, without two adjacent slashes and without a trailing
    slash (or "/" itself); the catalog URL of a rule is never longer than
    the rule, and that of a rule starting with a slash starts with a slash.
    *)
Theorem X6_normalize_url_fixed_points (url : string) :
  (normalize_url url = url
   <-> Re.search variable_part url = false
       /\ Re.search duplicate_slashes url = false
       /\ (url = "/" \/ PyStr.endswith url slash = false))
  /\ String.length (normalize_url url) <= String.length url
  /\ (head url = Some slash -> head (normalize_url url) = Some slash).
Proof.
  split; [apply normalize_url_fixed|].
  split; [apply normalize_url_length | apply normalize_url_absolute].
Qed.

(* ================================================================= *)
(** ** [BreadcrumbItem] *)

Lemma existsb_url_In (u : string) (cs : list BreadcrumbItem) :
  existsb (fun existing_child => item_url existing_child =? u) cs = true
  <-> In u (map item_url cs).
Proof.
  rewrite existsb_exists, in_map_iff. split.
  - intros (x & Hx & E). apply String.eqb_eq in E. eauto.
  - intros (x & E & Hx). exists x. split; [assumption|].
    now apply String.eqb_eq.
Qed.

Lemma add_child_present (self child : BreadcrumbItem) :
  In (item_url child) (map item_url (item_children self)) ->
  add_child self child = self.
Proof.
  intros H. unfold add_child. apply existsb_url_In in H. now rewrite H.
Qed.

Lemma add_child_new (self child : BreadcrumbItem) :
  ~ In (item_url child) (map item_url (item_children self)) ->
  add_child self child
  = Item (item_text self) (item_url self) (item_order self)
         (item_is_current_path self)
         (sort_by item_key (item_children self ++ [child])).
Proof.
  intros H. unfold add_child.
  destruct (existsb _ (item_children self)) eqn:E; [|reflexivity].
  apply existsb_url_In in E. contradiction.
Qed.

Lemma add_child_perm (self child : BreadcrumbItem) :
  ~ In (item_url child) (map item_url (item_children self)) ->
  Permutation (item_children (add_child self child))
              (child :: item_children self).
Proof.
  intros H. rewrite (add_child_new _ _ H). cbn [item_children].
  rewrite sort_by_perm. symmetry. apply Permutation_cons_append.
Qed.

Lemma add_child_NoDup (self child : BreadcrumbItem) :
  NoDup (map item_url (item_children self)) ->
  NoDup (map item_url (item_children (add_child self child))).
Proof.
  intros Hnd.
  destruct (in_dec string_dec (item_url child)
                   (map item_url (item_children self))) as [Hin|Hnin].
  - now rewrite add_child_present.
  - apply (Permutation_NoDup
             (l := map item_url (child :: item_children self))).
    + symmetry. apply Permutation_map. now apply add_child_perm.
    + simpl. now constructor.
Qed.

Lemma add_child_In (self child : BreadcrumbItem) :
  In (item_url child) (map item_url (item_children (add_child self child))).
Proof.
  destruct (in_dec string_dec (item_url child)
                   (map item_url (item_children self))) as [Hin|Hnin].
  - now rewrite add_child_present.
  - apply in_map. apply (Permutation_in (l := child :: item_children self)).
    + symmetry. now apply add_child_perm.
    + now left.
Qed.

Lemma add_child_idempotent (self child : BreadcrumbItem) :
  add_child (add_child self child) child = add_child self child.
Proof. apply add_child_present, add_child_In. Qed.

Lemma to_dict_items : forall i : BreadcrumbItem,
    map node_key (nodes (to_dict i)) = map item_key (items i).
Proof.
  fix IH 1. intros [t u o c cs].
  cbn [to_dict nodes items children item_children map].
  f_equal. unfold item_text, item_url, item_order.
  induction cs as [|a cs IHcs]; [reflexivity|].
  cbn [map flat_map]. rewrite !map_app, IH. f_equal. exact IHcs.
Qed.

Lemma to_dict_children (i : BreadcrumbItem) :
  map node_key (children (to_dict i)) = map item_key (item_children i).
Proof.
  destruct i as [t u o c cs]. cbn [to_dict children item_children].
  rewrite map_map. apply map_ext. now intros [].
Qed.

(** X7.  [add_child] never adds a url twice: a child whose url is present
    leaves the item as it is, a new one is added to the children (which are
    then a permutation of the old ones and the new one), urls that were
    distinct stay distinct, and adding the same child again changes
    nothing. *)
Theorem X7_add_child_no_duplicates (self child : BreadcrumbItem) :
  (In (item_url child) (map item_url (item_children self)) ->
   add_child self child = self)
  /\ (~ In (item_url child) (map item_url (item_children self)) ->
      Permutation (item_children (add_child self child))
                  (child :: item_children self))
  /\ (NoDup (map item_url (item_children self)) ->
      NoDup (map item_url (item_children (add_child self child))))
  /\ In (item_url child) (map item_url (item_children (add_child self child)))
  /\ add_child (add_child self child) child = add_child self child.
Proof.
  split; [apply add_child_present|].
  split; [apply add_child_perm|].
  split; [apply add_child_NoDup|].
  split; [apply add_child_In | apply add_child_idempotent].
Qed.

(** X8.  [to_dict] converts the whole tree of items, keeping the order: the
    (order, url) pairs of the dictionaries, in preorder, are those of the
    items; so the children of the dictionary of an item whose sorted
    children were extended with [add_child] are sorted. *)
Theorem X8_to_dict_shape :
  (forall i, map node_key (nodes (to_dict i)) = map item_key (items i))
  /\ (forall self child,
         sorted_keys (map item_key (item_children self)) ->
         StronglySorted sibling_le
                        (children (to_dict (add_child self child)))).
Proof.
  split; [apply to_dict_items|].
  intros self child H. apply sorted_keys_siblings.
  rewrite to_dict_children. now apply add_child_sorted.
Qed.

(* ================================================================= *)
(** ** The precomputed maps and the walk *)

Lemma child_relationships_other (breadcrumb_items : dict string BreadcrumbItem)
    (current_path u : string) :
  ~ In u (dict_keys breadcrumb_items) ->
  dict_get_default pair_eqb
    (child_relationships breadcrumb_items current_path) (u, current_path) false
  = false.
Proof.
  intros Hnin. rewrite child_relationships_get.
  destruct (existsb (String.eqb u) (dict_keys breadcrumb_items)) eqn:E;
    [|reflexivity].
  apply existsb_exists in E as (x & Hx & Hux).
  apply String.eqb_eq in Hux. subst x. contradiction.
Qed.

(** X9.  The two precomputed maps change no answer: looking a parent up in
    [parent_url_map] gives what [_get_parent_url] gives, and looking a key
    of [breadcrumb_items] up in [is_child_map] gives what [_is_child_of]
    gives (so "/" and the current path itself are never pruned); a url that
    is no key is no child. *)
Theorem X9_precomputed_maps
    (breadcrumb_items : dict string BreadcrumbItem) (current_path : string) :
  (forall path,
      sget_default (parent_urls breadcrumb_items) path (_get_parent_url path)
      = _get_parent_url path)
  /\ (forall u,
         In u (dict_keys breadcrumb_items) ->
         dict_get_default pair_eqb
           (child_relationships breadcrumb_items current_path)
           (u, current_path) false
         = _is_child_of u current_path)
  /\ (forall u,
         ~ In u (dict_keys breadcrumb_items) ->
         dict_get_default pair_eqb
           (child_relationships breadcrumb_items current_path)
           (u, current_path) false
         = false).
Proof.
  split; [|split].
  - intros path. apply parent_lookup, parent_urls_ok.
  - intros u. apply child_relationships_key.
  - intros u. apply child_relationships_other.
Qed.

(** X10.  The ancestor walk collects the registered paths among the current
    path and its syntactic ancestors, the nearest first; that chain has no
    path twice, never "/", and no path longer than the current path. *)
Theorem X10_walk_result (breadcrumb_items : dict string BreadcrumbItem)
    (current_path : string) (extra : nat) :
  walk (String.length current_path + 2 + extra) breadcrumb_items
       (parent_urls breadcrumb_items) current_path []
  = Some (filter (smem breadcrumb_items) (ancestor_chain current_path))
  /\ NoDup (ancestor_chain current_path)
  /\ Forall (fun u => u <> "/"
                      /\ String.length u <= String.length current_path)
            (ancestor_chain current_path)
  /\ (current_path <> "/" ->
      exists chain,
        ancestor_chain current_path = current_path :: chain).
Proof.
  split; [|split; [|split]].
  - rewrite (walk_ancestors _ _ (parent_urls_ok breadcrumb_items)) by lia.
    cbn [app]. do 2 f_equal. apply ancestors_fuel; lia.
  - apply ancestors_NoDup.
  - apply Forall_forall. intros u Hu. split.
    + now apply ancestors_not_root in Hu.
    + now apply ancestors_length in Hu.
  - intros Hne. unfold ancestor_chain. rewrite Nat.add_comm.
    cbn [Nat.add ancestors].
    destruct (String.eqb_spec current_path "/"); [contradiction|]. eauto.
Qed.

(* ================================================================= *)
(** ** Texts and orders *)

Lemma find_app_single {A : Type} (f : A -> bool) (l : list A) (x : A) :
  find f (l ++ [x])
  = match find f l with
    | Some y => Some y
    | None => if f x then Some x else None
    end.
Proof.
  induction l as [|y l IH]; simpl; [reflexivity|].
  now destruct (f y).
Qed.

Lemma find_split {A : Type} (f : A -> bool) (l : list A) (x : A) :
  find f l = Some x ->
  exists l1 l2, l = l1 ++ x :: l2 /\ f x = true
                /\ forall y, In y l1 -> f y = false.
Proof.
  induction l as [|y l IH]; simpl; [discriminate|].
  destruct (f y) eqn:E.
  - intros [= ->]. exists [], l. repeat split; [assumption | intros ? []].
  - intros H. destruct (IH H) as (l1 & l2 & -> & Hx & Hl1).
    exists (y :: l1), l2. repeat split; [assumption|].
    intros z [<-|Hz]; auto.
Qed.

Lemma last_route_last (routes : list route) (u : string) (r : route) :
  last_route routes u = Some r ->
  is_breadcrumb_route r = true /\ route_url r = u
  /\ exists before after,
      routes = before ++ r :: after
      /\ forall r', In r' after -> is_breadcrumb_route r' = true ->
                    route_url r' <> u.
Proof.
  unfold last_route. intros H.
  destruct (find_split _ _ _ H) as (l1 & l2 & Hrev & Hr & Hl1).
  apply andb_prop in Hr as [Hb Hu]. apply String.eqb_eq in Hu.
  split; [assumption|]. split; [assumption|].
  exists (rev l2), (rev l1). split.
  - rewrite <- (rev_involutive routes), Hrev, rev_app_distr. simpl.
    now rewrite <- app_assoc.
  - intros r' Hin Hb' E. rewrite <- in_rev in Hin.
    specialize (Hl1 _ Hin). rewrite Hb' in Hl1.
    apply String.eqb_eq in E. rewrite E in Hl1. discriminate.
Qed.

Lemma last_route_registered (routes : list route) (u : string) :
  is_registered routes u = true <-> exists r, last_route routes u = Some r.
Proof.
  unfold is_registered, last_route. rewrite existsb_exists. split.
  - intros (r & Hin & Hr).
    destruct (find _ (rev routes)) as [r'|] eqn:E; [eauto|].
    rewrite in_rev in Hin.
    pose proof (find_none _ _ E _ Hin) as Hn. simpl in Hn.
    rewrite Hr in Hn. discriminate.
  - intros (r & H). apply find_some in H as [Hin Hr].
    rewrite <- in_rev in Hin. eauto.
Qed.

Lemma materialize_step_get (metadata : dict string metadata_entry)
    (current_path : string) st (r : route) (u : string) :
  sget (fst (materialize_step metadata current_path st r)) u
  = if is_breadcrumb_route r && (route_url r =? u)
    then Some (item_of_route metadata current_path r)
    else sget (fst st) u.
Proof.
  destruct r as [[url endpoint] methods], st as [breadcrumb_items m].
  unfold materialize_step, is_breadcrumb_route, item_of_route, route_url,
    route_endpoint.
  cbn [fst snd].
  destruct (existsb (String.eqb "GET") methods);
    destruct (PyStr.startswith endpoint "static"); cbn [negb orb andb fst];
    try reflexivity.
  now rewrite (dict_get_set String.eqb String.eqb_spec).
Qed.

Lemma fold_materialize_get (metadata : dict string metadata_entry)
    (current_path : string) (u : string) (routes : list route) : forall st,
    sget (fst (fold_left (materialize_step metadata current_path) routes st)) u
    = match last_route routes u with
      | Some r => Some (item_of_route metadata current_path r)
      | None => sget (fst st) u
      end.
Proof.
  induction routes as [|r routes IH]; intros st; [reflexivity|].
  cbn [fold_left]. rewrite IH, materialize_step_get.
  unfold last_route. cbn [rev]. rewrite find_app_single.
  destruct (find _ (rev routes)); [reflexivity|].
  now destruct (is_breadcrumb_route r && (route_url r =? u)).
Qed.

Lemma items_of_get routes metadata current_path (u : string) (r : route) :
  last_route routes u = Some r ->
  sget (items_of routes metadata current_path) u
  = Some (item_of_route metadata current_path r).
Proof.
  intros H. unfold items_of, ensure_root.
  assert (Hm : sget (fst (materialize routes metadata current_path)) u
               = Some (item_of_route metadata current_path r)).
  { unfold materialize. now rewrite fold_materialize_get, H. }
  destruct (materialize routes metadata current_path)
    as [breadcrumb_items m] eqn:E.
  cbn [fst] in Hm.
  destruct (smem breadcrumb_items "/") eqn:Hroot; [exact Hm|].
  cbn [fst]. rewrite (dict_get_set String.eqb String.eqb_spec).
  destruct (String.eqb_spec "/" u) as [<-|]; [|exact Hm].
  unfold dict_mem in Hroot. now rewrite Hm in Hroot.
Qed.

Lemma groups_of_labelled routes metadata current_path k cs :
  sget (groups_of routes metadata current_path) k = Some cs ->
  Forall (leaf_with (labelled (items_of routes metadata current_path))) cs.
Proof.
  rewrite groups_of_get.
  match goal with |- context [group_members ?m ?c ?k ?d] =>
    destruct (group_members m c k d) as [|e es] eqn:E end; [discriminate|].
  intros H.
  match type of H with Some ?x = _ => assert (Hcs : cs = x) by congruence end.
  rewrite Hcs. clear H Hcs cs.
  apply Forall_forall. intros n Hn.
  apply sort_by_In in Hn. apply in_map_iff in Hn as (e' & <- & He).
  rewrite <- E in He. unfold group_members in He.
  apply filter_In in He as [Hin _].
  split; [|reflexivity].
  exists (snd e'). cbn. split; [|split; reflexivity].
  apply (dict_get_NoDup String.eqb String.eqb_spec).
  - apply (ok_nodup _ _ (items_of_ok routes metadata current_path)).
  - now destruct e'.
Qed.

Lemma build_tree_labelled routes metadata current_path t :
  build_tree routes metadata current_path = Returns (Some t) ->
  Forall (labelled (items_of routes metadata current_path)) (nodes t).
Proof.
  intros Hb.
  destruct (existsb is_breadcrumb_route routes) eqn:E;
    [| rewrite build_tree_empty in Hb by assumption; discriminate].
  destruct (String.eqb_spec current_path "/") as [->|Hcp].
  - destruct (build_tree_root routes metadata E) as (root_item & Hr & Heq).
    rewrite Heq in Hb. injection Hb as <-.
    cbn. constructor; [|constructor].
    exists root_item. cbn. auto.
  - destruct (build_tree_main routes metadata current_path E Hcp)
      as (root_item & Hr & Heq).
    rewrite Heq in Hb. injection Hb as <-.
    rewrite nodes_eq. constructor.
    + match goal with |- context [assemble ?G ?c ?p ?r] =>
        destruct (assemble_header G c p r) as [cs ->] end.
      exists root_item. cbn. auto.
    + apply assemble_descendants.
      * intros n cs (item & H1 & H2 & H3). exists item. cbn. auto.
      * apply groups_of_labelled.
      * cbn [children]. unfold dict_get_default.
        destruct (sget (groups_of routes metadata current_path) "/") eqn:Hg;
          [now apply groups_of_labelled in Hg | constructor].
Qed.

Lemma build_tree_label routes metadata current_path t n r :
  build_tree routes metadata current_path = Returns (Some t) ->
  In n (nodes t) ->
  last_route routes (url n) = Some r ->
  text n = match sget metadata (route_endpoint r) with
           | Some m => resolve (md_text m)
           | None => _generate_default_text (url n)
           end
  /\ order n = match sget metadata (route_endpoint r) with
               | Some m => match md_order m with Some o => o | None => 0%Z end
               | None => 0%Z
               end.
Proof.
  intros Hb Hn Hr.
  pose proof (build_tree_labelled _ _ _ _ Hb) as Hl.
  rewrite Forall_forall in Hl.
  destruct (Hl _ Hn) as (item & Hi & -> & ->).
  rewrite (items_of_get _ _ _ _ _ Hr) in Hi. injection Hi as <-.
  destruct (last_route_last _ _ _ Hr) as (_ & <- & _).
  unfold item_of_route, BreadcrumbItem_init. cbn.
  destruct (sget metadata (route_endpoint r)); auto.
Qed.

Lemma catalog_Breadcrumb_call {A R : Type} (self : Breadcrumb) (text : label)
    (order max_depth : option Z) (f : view_function A R) (current_app : Flask) :
  catalog (fst (Breadcrumb_call self text order max_depth f)) current_app
  = catalog self current_app.
Proof.
  unfold catalog, _get_routes, Breadcrumb_call. cbn.
  now destruct (_routes_cache self).
Qed.

(** X11.  The text and the order of a dictionary of the tree are those of
    the last route of the catalog that gets a breadcrumb item for its url:
    the text and the order stored for the endpoint (order 0 if none was
    given), and for an endpoint without metadata the default text of the
    url and order 0. A url is registered exactly when it has such a last
    route. *)
Theorem X11_labels_from_last_route (self : Breadcrumb) (current_app : Flask)
    (current_path : string) (t n : node) (r : route) :
  fst (_build_breadcrumb_tree self current_app current_path)
  = Returns (Some t) ->
  In n (nodes t) ->
  last_route (catalog self current_app) (url n) = Some r ->
  (text n = match sget (breadcrumb_metadata self) (route_endpoint r) with
            | Some m => resolve (md_text m)
            | None => _generate_default_text (url n)
            end
   /\ order n = match sget (breadcrumb_metadata self) (route_endpoint r) with
                | Some m => match md_order m with
                            | Some o => o
                            | None => 0%Z
                            end
                | None => 0%Z
                end)
  /\ (is_breadcrumb_route r = true /\ route_url r = url n
      /\ exists before after,
          catalog self current_app = before ++ r :: after
          /\ forall r', In r' after -> is_breadcrumb_route r' = true ->
                        route_url r' <> url n)
  /\ (forall u, is_registered (catalog self current_app) u = true
                <-> exists r', last_route (catalog self current_app) u
                               = Some r').
Proof.
  rewrite _build_breadcrumb_tree_eq. intros Hb Hn Hr.
  split; [now apply (build_tree_label _ _ _ _ _ _ Hb)|].
  split; [now apply last_route_last|].
  intros u. apply last_route_registered.
Qed.

Lemma X11_labels_from_last_route_witness :
  (text (Node "Second" "/a" 7 true [])
   = match sget (breadcrumb_metadata (decorate Breadcrumb_init "second" "Second" 7))
                (route_endpoint ("/a", "second", GET_methods)) with
     | Some m => resolve (md_text m)
     | None => _generate_default_text (url (Node "Second" "/a" 7 true []))
     end
   /\ order (Node "Second" "/a" 7 true [])
      = match sget (breadcrumb_metadata
                      (decorate Breadcrumb_init "second" "Second" 7))
                   (route_endpoint ("/a", "second", GET_methods)) with
        | Some m => match md_order m with Some o => o | None => 0%Z end
        | None => 0%Z
        end)
  /\ (is_breadcrumb_route ("/a", "second", GET_methods) = true
      /\ route_url ("/a", "second", GET_methods)
         = url (Node "Second" "/a" 7 true [])
      /\ exists before after,
          catalog (decorate Breadcrumb_init "second" "Second" 7)
                  (app_of [view "/a" "first"; view "/a/" "second"])
          = before ++ ("/a", "second", GET_methods) :: after
          /\ forall r', In r' after -> is_breadcrumb_route r' = true ->
                        route_url r' <> url (Node "Second" "/a" 7 true []))
  /\ (forall u,
         is_registered
           (catalog (decorate Breadcrumb_init "second" "Second" 7)
                    (app_of [view "/a" "first"; view "/a/" "second"])) u = true
         <-> exists r',
             last_route
               (catalog (decorate Breadcrumb_init "second" "Second" 7)
                        (app_of [view "/a" "first"; view "/a/" "second"])) u
             = Some r').
Proof.
  apply (X11_labels_from_last_route
           (decorate Breadcrumb_init "second" "Second" 7)
           (app_of [view "/a" "first"; view "/a/" "second"])
           "/a"
           (Node "Home" "/" 0 false [Node "Second" "/a" 7 true []])
           (Node "Second" "/a" 7 true [])
           ("/a", "second", GET_methods)).
  - vm_compute. reflexivity.
  - simpl. auto.
  - vm_compute. reflexivity.
Defined.

(** X12.  What the decorator stores is what the tree shows: after
    [Breadcrumb.__call__(text, order, max_depth)(f)], a dictionary whose
    url is last registered for the endpoint [f.__name__] has the text
    [text] (called, if callable) and the order [order], or 0 for [None];
    the dictionaries of the other endpoints have the text and the order
    they had. *)
Theorem X12_decorator_shows {A R : Type} (self : Breadcrumb) (new_text : label)
    (new_order max_depth : option Z) (f : view_function A R)
    (current_app : Flask) (current_path : string) (t n : node) (r : route) :
  fst (_build_breadcrumb_tree
         (fst (Breadcrumb_call self new_text new_order max_depth f))
         current_app current_path)
  = Returns (Some t) ->
  In n (nodes t) ->
  last_route (catalog self current_app) (url n) = Some r ->
  (route_endpoint r = __name__ f ->
   text n = resolve new_text
   /\ order n = match new_order with Some o => o | None => 0%Z end)
  /\ (route_endpoint r <> __name__ f ->
      text n
      = match sget (breadcrumb_metadata self) (route_endpoint r) with
        | Some m => resolve (md_text m)
        | None => _generate_default_text (url n)
        end
      /\ order n
         = match sget (breadcrumb_metadata self) (route_endpoint r) with
           | Some m => match md_order m with Some o => o | None => 0%Z end
           | None => 0%Z
           end).
Proof.
  rewrite _build_breadcrumb_tree_eq, catalog_Breadcrumb_call.
  intros Hb Hn Hr.
  destruct (build_tree_label _ _ _ _ _ _ Hb Hn Hr) as [Ht Ho].
  rewrite Ht, Ho. unfold Breadcrumb_call. cbn [fst breadcrumb_metadata].
  rewrite (dict_get_set String.eqb String.eqb_spec).
  split; intros E.
  - rewrite E, String.eqb_refl. cbn. auto.
  - destruct (String.eqb_spec (__name__ f) (route_endpoint r)) as [E'|_];
      [now contradiction E|]. auto.
Qed.

Lemma X12_decorator_shows_witness :
  (route_endpoint ("/a", "a", GET_methods) = __name__ (page "a") ->
   text (Node "Alpha" "/a" 0 true []) = resolve (Static "Alpha")
   /\ order (Node "Alpha" "/a" 0 true [])
      = match @None Z with Some o => o | None => 0%Z end)
  /\ (route_endpoint ("/a", "a", GET_methods) <> __name__ (page "a") ->
      text (Node "Alpha" "/a" 0 true [])
      = match sget (breadcrumb_metadata Breadcrumb_init)
                   (route_endpoint ("/a", "a", GET_methods)) with
        | Some m => resolve (md_text m)
        | None => _generate_default_text (url (Node "Alpha" "/a" 0 true []))
        end
      /\ order (Node "Alpha" "/a" 0 true [])
         = match sget (breadcrumb_metadata Breadcrumb_init)
                      (route_endpoint ("/a", "a", GET_methods)) with
           | Some m => match md_order m with Some o => o | None => 0%Z end
           | None => 0%Z
           end).
Proof.
  apply (X12_decorator_shows Breadcrumb_init (Static "Alpha") None None
           (page "a") (app_of [view "/a" "a"]) "/a"
           (Node "Home" "/" 0 false [Node "Alpha" "/a" 0 true []])
           (Node "Alpha" "/a" 0 true [])
           ("/a", "a", GET_methods)).
  - vm_compute. reflexivity.
  - simpl. auto.
  - vm_compute. reflexivity.
Defined.

(* ================================================================= *)
(** ** The maximum depth *)

Lemma materialize_step_ext (metadata metadata' : dict string metadata_entry)
    (current_path : string) st (r : route) :
  (forall e, option_map label_part (sget metadata e)
             = option_map label_part (sget metadata' e)) ->
  materialize_step metadata current_path st r
  = materialize_step metadata' current_path st r.
Proof.
  intros H. destruct r as [[u e] ms], st as [breadcrumb_items m].
  unfold materialize_step. specialize (H e).
  destruct (sget metadata e) as [m1|], (sget metadata' e) as [m2|];
    cbn in H; try discriminate; [|reflexivity].
  injection H as -> ->. reflexivity.
Qed.

Lemma build_tree_ext (routes : list route)
    (metadata metadata' : dict string metadata_entry) (current_path : string) :
  (forall e, option_map label_part (sget metadata e)
             = option_map label_part (sget metadata' e)) ->
  build_tree routes metadata current_path
  = build_tree routes metadata' current_path.
Proof.
  intros H.
  assert (E : materialize routes metadata current_path
              = materialize routes metadata' current_path).
  { unfold materialize. generalize (@nil (string * BreadcrumbItem),
                                    @nil (string * bool)).
    induction routes as [|r routes IH]; intros st; [reflexivity|].
    cbn [fold_left]. now rewrite (materialize_step_ext _ _ _ _ _ H), IH. }
  unfold build_tree. now rewrite E.
Qed.

(** X13.  The argument [max_depth] of the decorator is stored and never
    used: the trees are the same whatever it is, and two metadata
    dictionaries that agree on texts and orders give the same tree. *)
Theorem X13_max_depth_ignored {A R : Type} (self : Breadcrumb)
    (new_text : label) (new_order max_depth other_depth : option Z)
    (f : view_function A R) (current_app : Flask) (current_path : string) :
  fst (_build_breadcrumb_tree
         (fst (Breadcrumb_call self new_text new_order max_depth f))
         current_app current_path)
  = fst (_build_breadcrumb_tree
           (fst (Breadcrumb_call self new_text new_order other_depth f))
           current_app current_path)
  /\ forall routes metadata metadata',
      (forall e, option_map label_part (sget metadata e)
                 = option_map label_part (sget metadata' e)) ->
      build_tree routes metadata current_path
      = build_tree routes metadata' current_path.
Proof.
  split.
  - rewrite !_build_breadcrumb_tree_eq, !catalog_Breadcrumb_call.
    apply build_tree_ext. intros e. unfold Breadcrumb_call.
    cbn [fst breadcrumb_metadata].
    rewrite !(dict_get_set String.eqb String.eqb_spec).
    now destruct (__name__ f =? e).
  - intros routes metadata metadata'. apply build_tree_ext.
Qed.

(** X14.  The metadata are keyed by the name of the view function:
    decorating two functions with different names in either order gives the
    same trees, and of two decorations under the same name the later one
    replaces the earlier. *)
Theorem X14_decoration_order {A R : Type} (self : Breadcrumb)
    (text1 text2 : label) (order1 depth1 order2 depth2 : option Z)
    (f1 f2 : view_function A R) (current_app : Flask)
    (current_path : string) :
  (__name__ f1 <> __name__ f2 ->
   fst (_build_breadcrumb_tree
          (fst (Breadcrumb_call
                  (fst (Breadcrumb_call self text1 order1 depth1 f1))
                  text2 order2 depth2 f2))
          current_app current_path)
   = fst (_build_breadcrumb_tree
            (fst (Breadcrumb_call
                    (fst (Breadcrumb_call self text2 order2 depth2 f2))
                    text1 order1 depth1 f1))
            current_app current_path))
  /\ (__name__ f1 = __name__ f2 ->
      fst (_build_breadcrumb_tree
             (fst (Breadcrumb_call
                     (fst (Breadcrumb_call self text1 order1 depth1 f1))
                     text2 order2 depth2 f2))
             current_app current_path)
      = fst (_build_breadcrumb_tree
               (fst (Breadcrumb_call self text2 order2 depth2 f2))
               current_app current_path)).
Proof.
  split; intros Hn;
    rewrite !_build_breadcrumb_tree_eq, !catalog_Breadcrumb_call;
    apply build_tree_ext; intros e; unfold Breadcrumb_call;
    cbn [fst breadcrumb_metadata];
    rewrite !(dict_get_set String.eqb String.eqb_spec).
  - destruct (String.eqb_spec (__name__ f1) e) as [E1|_],
             (String.eqb_spec (__name__ f2) e) as [E2|_];
      try reflexivity. congruence.
  - rewrite Hn. now destruct (__name__ f2 =? e).
Qed.

(* ================================================================= *)
(** ** The shape of the tree *)

Lemma descendants_parent : forall (t n : node),
    In n (descendants t) ->
    exists m, In m (nodes t) /\ In n (children m).
Proof.
  fix IH 1. intros [tx u o c cs] n. unfold descendants.
  cbn [children]. intros H.
  assert (Hcs : exists c0,
             In c0 cs
             /\ (n = c0 \/ exists m, In m (nodes c0) /\ In n (children m))).
  { induction cs as [|c0 cs IHcs]; [contradiction|].
    cbn [flat_map] in H. apply in_app_or in H as [H|H].
    - exists c0. split; [now left|]. rewrite nodes_eq in H.
      destruct H as [<-|H]; [now left | right; apply IH, H].
    - destruct (IHcs H) as (c1 & ? & ?). exists c1.
      split; [now right | assumption]. }
  destruct Hcs as (c0 & Hc0 & [->|(m & Hm & Hn)]).
  - exists (Node tx u o c cs). split; [now left | exact Hc0].
  - exists m. split; [|exact Hn]. cbn [nodes children]. right.
    apply in_flat_map. eauto.
Qed.

Lemma assemble_url (parent_to_children : dict string (list node))
    (current_path : string) (paths : list string) (lvl : node) :
  url (assemble parent_to_children current_path paths lvl) = url lvl.
Proof.
  now destruct (assemble_header parent_to_children current_path paths lvl)
    as [cs ->].
Qed.

Lemma attach_url (parent_to_children : dict string (list node))
    (current_path path : string) (child : node) :
  url (attach parent_to_children current_path path child) = url child.
Proof.
  now destruct (attach_header parent_to_children current_path path child)
    as [cs ->].
Qed.

Lemma assemble_leaf (parent_to_children : dict string (list node))
    (current_path : string) (paths : list string) (lvl : node) :
  children lvl = [] ->
  assemble parent_to_children current_path paths lvl = lvl.
Proof.
  intros H. induction paths as [|p paths IH]; [reflexivity|].
  rewrite assemble_cons, H. exact IH.
Qed.

Lemma assemble_children_urls (parent_to_children : dict string (list node))
    (current_path : string) (paths : list string) : forall lvl,
    map url (children (assemble parent_to_children current_path paths lvl))
    = map url (children lvl).
Proof.
  induction paths as [|p paths IH]; intros lvl; [reflexivity|].
  rewrite assemble_cons.
  destruct (find_child p (children lvl)) as [[[b c] a]|] eqn:F; [|apply IH].
  apply find_child_Some in F as [Hcs Hc].
  cbn [set_children children]. rewrite Hcs, !map_app. cbn [map].
  now rewrite assemble_url, attach_url.
Qed.

Section AssembleShape.
Variable parent_to_children : dict string (list node).
Variable current_path : string.

Hypothesis groups_lists :
  forall k cs, sget parent_to_children k = Some cs -> group_list k cs.

Lemma leaves_edges_ok (cs : list node) :
  Forall (fun c => children c = []) cs -> Forall edges_ok cs.
Proof.
  apply Forall_impl. intros c H. unfold edges_ok. rewrite H. constructor.
Qed.

Lemma group_list_leaves (k : string) (cs : list node) :
  group_list k cs -> Forall (fun c => children c = []) cs.
Proof. intros [H _]. eapply Forall_impl; [|exact H]. now intros c []. Qed.

Lemma attach_leaves (path : string) (child : node) :
  children child = [] ->
  Forall (fun c => children c = [])
         (children (attach parent_to_children current_path path child)).
Proof.
  intros H. apply (group_list_leaves path).
  now apply (attach_group_list _ _ groups_lists).
Qed.

Lemma assemble_edges (paths : list string) : forall lvl,
    group_list (url lvl) (children lvl) ->
    Forall edges_ok
           (nodes (assemble parent_to_children current_path paths lvl)).
Proof.
  induction paths as [|p paths IH]; intros lvl Hg.
  - cbn [assemble]. rewrite nodes_eq. unfold descendants.
    pose proof (group_list_leaves _ _ Hg) as Hl.
    rewrite (flat_map_leaves _ Hl). constructor.
    + destruct Hg as [Hg _]. eapply Forall_impl; [|exact Hg]. now intros c [].
    + now apply leaves_edges_ok.
  - rewrite assemble_cons.
    destruct (find_child p (children lvl)) as [[[b c] a]|] eqn:F;
      [|now apply IH].
    apply find_child_Some in F as [Hcs Hc].
    pose proof (group_list_leaves _ _ Hg) as Hl.
    destruct Hg as [Hpar _]. rewrite Hcs in Hl, Hpar.
    apply Forall_app in Hl as [Hlb Hla]. inversion Hla as [|? ? Hlc Hla']; subst.
    apply Forall_app in Hpar as [Hpb Hpa].
    inversion Hpa as [|? ? Hpc Hpa']; subst.
    set (X := assemble parent_to_children current_path paths
                (attach parent_to_children current_path (url c) c)).
    rewrite nodes_eq. unfold descendants. cbn [set_children children].
    rewrite flat_map_app. cbn [flat_map].
    rewrite (flat_map_leaves _ Hlb), (flat_map_leaves _ Hla').
    constructor.
    + unfold edges_ok. cbn [children url]. apply Forall_app. split.
      * eapply Forall_impl; [|exact Hpb]. now intros x [].
      * constructor.
        -- unfold X. rewrite assemble_url, attach_url. now destruct Hpc.
        -- eapply Forall_impl; [|exact Hpa']. now intros x [].
    + apply Forall_app. split; [now apply leaves_edges_ok|].
      apply Forall_app. split; [|now apply leaves_edges_ok].
      apply IH. rewrite attach_url.
      now apply (attach_group_list _ _ groups_lists).
Qed.

Lemma spine_ok_cons (p : string) (paths : list string) (n : node) :
  spine_ok parent_to_children current_path paths n ->
  spine_ok parent_to_children current_path (p :: paths) n.
Proof.
  intros [H|(H1 & H2 & H3)]; [now left|].
  right. repeat split; [now right | assumption | assumption].
Qed.

Lemma leaves_spine_ok (paths : list string) (cs : list node) :
  Forall (fun c => children c = []) cs ->
  Forall (spine_ok parent_to_children current_path paths) cs.
Proof. apply Forall_impl. intros c H. now left. Qed.

Lemma assemble_spine (paths : list string) : forall lvl,
    Forall (fun c => children c = []) (children lvl) ->
    Forall (spine_ok parent_to_children current_path paths)
           (descendants
              (assemble parent_to_children current_path paths lvl)).
Proof.
  induction paths as [|p paths IH]; intros lvl Hl.
  - cbn [assemble]. unfold descendants. rewrite (flat_map_leaves _ Hl).
    now apply leaves_spine_ok.
  - rewrite assemble_cons.
    destruct (find_child p (children lvl)) as [[[b c] a]|] eqn:F.
    2:{ eapply Forall_impl; [|apply IH, Hl]. intros n. apply spine_ok_cons. }
    apply find_child_Some in F as [Hcs Hc].
    rewrite Hcs in Hl.
    apply Forall_app in Hl as [Hlb Hla]. inversion Hla as [|? ? Hlc Hla']; subst.
    set (X := assemble parent_to_children current_path paths
                (attach parent_to_children current_path (url c) c)).
    unfold descendants. cbn [set_children children].
    rewrite flat_map_app. cbn [flat_map].
    rewrite (flat_map_leaves _ Hlb), (flat_map_leaves _ Hla').
    apply Forall_app. split; [now apply leaves_spine_ok|].
    apply Forall_app. split; [|now apply leaves_spine_ok].
    rewrite nodes_eq. constructor.
    + assert (HXu : url X = url c)
        by (unfold X; now rewrite assemble_url, attach_url).
      assert (HXc : map url (children X)
                    = map url (children (attach parent_to_children current_path
                                                (url c) c)))
        by apply assemble_children_urls.
      unfold attach in HXc.
      destruct (sget parent_to_children (url c)) as [cs|] eqn:Hg.
      * destruct (String.eqb_spec (url c) current_path) as [E|Hne];
          cbn [negb] in HXc.
        -- left. rewrite Hlc in HXc. simpl in HXc.
           now apply map_eq_nil in HXc.
        -- right. rewrite HXu. split; [now left|]. split; [assumption|].
           rewrite HXc. cbn [set_children children].
           unfold dict_get_default. now rewrite Hg.
      * left. rewrite Hlc in HXc. simpl in HXc. now apply map_eq_nil in HXc.
    + eapply Forall_impl; [|apply IH; now apply attach_leaves].
      intros n. apply spine_ok_cons.
Qed.

End AssembleShape.

Lemma sget_default_group_list routes metadata current_path k :
  group_list k (sget_default (groups_of routes metadata current_path) k []).
Proof.
  unfold dict_get_default.
  destruct (sget (groups_of routes metadata current_path) k) eqn:Hg;
    [now apply groups_of_group_list in Hg | split; constructor].
Qed.

Lemma build_tree_edges routes metadata current_path t :
  build_tree routes metadata current_path = Returns (Some t) ->
  Forall edges_ok (nodes t).
Proof.
  intros Hb.
  destruct (existsb is_breadcrumb_route routes) eqn:E;
    [| rewrite build_tree_empty in Hb by assumption; discriminate].
  destruct (String.eqb_spec current_path "/") as [->|Hcp].
  - destruct (build_tree_root routes metadata E) as (root_item & Hr & Heq).
    rewrite Heq in Hb. injection Hb as <-.
    cbn. constructor; constructor.
  - destruct (build_tree_main routes metadata current_path E Hcp)
      as (root_item & Hr & Heq).
    rewrite Heq in Hb. injection Hb as <-.
    apply assemble_edges.
    + apply groups_of_group_list.
    + cbn [url children]. apply sget_default_group_list.
Qed.

Lemma build_tree_spine routes metadata current_path t :
  current_path <> "/" ->
  build_tree routes metadata current_path = Returns (Some t) ->
  map url (children t)
  = map url (sget_default (groups_of routes metadata current_path) "/" [])
  /\ Forall (spine_ok (groups_of routes metadata current_path) current_path
                      (path_from_root routes metadata current_path))
            (descendants t).
Proof.
  intros Hcp Hb.
  destruct (existsb is_breadcrumb_route routes) eqn:E;
    [| rewrite build_tree_empty in Hb by assumption; discriminate].
  destruct (build_tree_main routes metadata current_path E Hcp)
    as (root_item & Hr & Heq).
  rewrite Heq in Hb. injection Hb as <-. split.
  - now rewrite assemble_children_urls.
  - apply assemble_spine.
    + apply groups_of_group_list.
    + cbn [children].
      apply (group_list_leaves "/"), sget_default_group_list.
Qed.

Lemma build_tree_root_only routes metadata t :
  build_tree routes metadata "/" = Returns (Some t) ->
  url t = "/" /\ children t = [].
Proof.
  intros Hb.
  destruct (existsb is_breadcrumb_route routes) eqn:E;
    [| rewrite build_tree_empty in Hb by assumption; discriminate].
  destruct (build_tree_root routes metadata E) as (root_item & Hr & Heq).
  rewrite Heq in Hb. injection Hb as <-. split; reflexivity.
Qed.

Lemma build_tree_registered routes metadata current_path t n :
  build_tree routes metadata current_path = Returns (Some t) ->
  In n (descendants t) ->
  is_registered routes (url n) = true /\ url n <> "/".
Proof.
  intros Hb Hn.
  destruct (String.eqb_spec current_path "/") as [->|Hcp].
  - destruct (build_tree_root_only _ _ _ Hb) as [_ Hc].
    unfold descendants in Hn. rewrite Hc in Hn. contradiction.
  - destruct (build_tree_below_root _ _ _ _ Hcp Hb) as (_ & _ & Hd).
    rewrite Forall_forall in Hd.
    destruct (Hd _ Hn) as (Hm & Hr & _).
    rewrite items_of_mem in Hm.
    destruct (String.eqb_spec (url n) "/"); [contradiction|].
    now rewrite orb_false_r in Hm.
Qed.

Lemma build_tree_root_url routes metadata current_path t :
  build_tree routes metadata current_path = Returns (Some t) -> url t = "/".
Proof.
  intros Hb.
  destruct (String.eqb_spec current_path "/") as [->|Hcp].
  - now apply build_tree_root_only in Hb.
  - now apply build_tree_below_root in Hb.
Qed.

Lemma build_tree_NoDup routes metadata current_path t :
  build_tree routes metadata current_path = Returns (Some t) ->
  NoDup (map url (nodes t)).
Proof.
  intros Hb. rewrite nodes_eq. cbn [map]. constructor.
  - rewrite (build_tree_root_url _ _ _ _ Hb). intros Hin.
    apply in_map_iff in Hin as (n & Hu & Hn).
    now destruct (build_tree_registered _ _ _ _ _ Hb Hn).
  - destruct (String.eqb_spec current_path "/") as [->|Hcp].
    + destruct (build_tree_root_only _ _ _ Hb) as [_ Hc].
      unfold descendants. rewrite Hc. constructor.
    + now apply (build_tree_unique routes metadata current_path).
Qed.

Lemma is_registered_In (routes : list route) (u : string) :
  is_registered routes u = true ->
  exists endpoint methods,
    In (u, endpoint, methods) routes
    /\ In "GET" methods
    /\ PyStr.startswith endpoint "static" = false.
Proof.
  unfold is_registered. rewrite existsb_exists.
  intros ([[u' endpoint] methods] & Hin & H).
  apply andb_prop in H as [Hb Hu]. apply String.eqb_eq in Hu.
  cbn in Hu. subst u'.
  unfold is_breadcrumb_route in Hb. apply andb_prop in Hb as [Hg Hs].
  exists endpoint, methods. split; [assumption|]. split.
  - apply existsb_exists in Hg as (m & Hm & E).
    apply String.eqb_eq in E. now subst m.
  - now destruct (PyStr.startswith endpoint "static").
Qed.

Lemma group_urls_iff routes metadata current_path (k u : string) :
  current_path <> "/" ->
  In u (map url (sget_default (groups_of routes metadata current_path) k []))
  <-> is_registered routes u = true /\ u <> "/"
      /\ _get_parent_url u = k /\ _is_child_of u current_path = false.
Proof.
  intros Hcp. split.
  - intros Hin. apply in_map_iff in Hin as (n & <- & Hn).
    pose proof (sget_default_members routes metadata current_path k) as Hm.
    rewrite Forall_forall in Hm.
    destruct (Hm _ Hn) as (_ & Hmem & Hr & Hp & _ & Hch).
    rewrite items_of_mem in Hmem.
    destruct (String.eqb_spec (url n) "/"); [contradiction|].
    rewrite orb_false_r in Hmem. auto.
  - intros (Hreg & Hr & Hp & Hch).
    destruct (groups_of_complete routes metadata current_path u Hcp)
      as (cs & n & Hg & Hn & Hu); try assumption.
    + rewrite items_of_mem, Hreg. reflexivity.
    + rewrite Hp in Hg. unfold dict_get_default. rewrite Hg.
      apply in_map_iff. eauto.
Qed.

Lemma removelast_In {A : Type} (l : list A) (x : A) :
  In x (removelast l) -> In x l.
Proof.
  induction l as [|y l IH]; [contradiction|].
  cbn [removelast]. destruct l as [|z l]; [contradiction|].
  intros [<-|H]; [now left | right; now apply IH].
Qed.

Lemma linked_from_app (k : string) (paths rest : list string) :
  linked_from k (paths ++ rest) -> linked_from k paths.
Proof.
  revert k. induction paths as [|p paths IH]; intros k H; [exact I|].
  destruct H as [Hp H]. split; [assumption | now apply IH].
Qed.

Section ReachPrefix.
Variable routes : list route.
Variable metadata : dict string metadata_entry.
Variable current_path : string.

Hypothesis not_root : current_path <> "/".

Let breadcrumb_items := items_of routes metadata current_path.

Let parent_to_children := groups_of routes metadata current_path.

(** The traversal reaches every path of a linked list of registered
    paths, whatever paths follow. *)
Lemma assemble_reaches_prefix (paths : list string) : forall rest lvl k,
    children lvl = sget_default parent_to_children k [] ->
    linked_from k paths ->
    (forall p, In p paths ->
               smem breadcrumb_items p = true /\ p <> "/"
               /\ _is_child_of p current_path = false) ->
    (forall p, In p (removelast paths) -> p <> current_path) ->
    forall p, In p paths ->
      exists n,
        In n (descendants
                (assemble parent_to_children current_path (paths ++ rest)
                          lvl))
        /\ url n = p.
Proof.
  induction paths as [|p paths IH]; intros rest lvl k Hlvl Hl Hreg Hcur q Hq;
    [contradiction |].
  destruct Hl as [Hp Hl].
  destruct (Hreg p (or_introl eq_refl)) as (Hm & Hnr & Hch).
  destruct (groups_of_complete routes metadata current_path p not_root
              Hm Hnr Hch) as (cs & n & Hg & Hin & Hurl).
  rewrite Hp in Hg. fold parent_to_children in Hg.
  unfold dict_get_default in Hlvl. rewrite Hg in Hlvl.
  rewrite <- app_comm_cons, assemble_cons.
  rewrite <- Hlvl in Hin.
  destruct (find_child_In p (children lvl) n Hin Hurl) as (b & c & a & F).
  rewrite F. apply find_child_Some in F as [Hcs Hc].
  set (X := assemble parent_to_children current_path (paths ++ rest)
              (attach parent_to_children current_path p c)).
  assert (HXu : url X = p).
  { unfold X. now rewrite assemble_url, attach_url. }
  assert (Hsub : forall m, In m (nodes X) ->
            In m (descendants (set_children lvl (b ++ X :: a)))).
  { intros m Hm'. unfold descendants. simpl children.
    apply in_flat_map. exists X. split; [| exact Hm'].
    apply in_or_app. right. now left. }
  destruct Hq as [<-|Hq].
  - exists X. split; [| exact HXu]. apply Hsub. rewrite nodes_eq. now left.
  - assert (Hleaf : children c = []).
    { apply groups_of_members in Hg. rewrite Forall_forall in Hg.
      assert (Hc' : In c cs).
      { rewrite <- Hlvl, Hcs. apply in_or_app. right. now left. }
      now destruct (Hg c Hc'). }
    assert (Hpc : p <> current_path).
    { apply Hcur. destruct paths; [contradiction | now left]. }
    destruct (IH rest (attach parent_to_children current_path p c) p)
      with (p := q) as (m & Hm' & Hmu); try assumption.
    + unfold attach, dict_get_default.
      destruct (sget parent_to_children p); [| exact Hleaf].
      destruct (String.eqb_spec p current_path); [contradiction |].
      reflexivity.
    + intros x Hx. apply Hreg. now right.
    + intros x Hx. apply Hcur. destruct paths; [contradiction |].
      now right.
    + exists m. split; [| exact Hmu]. apply Hsub. rewrite nodes_eq.
      now right.
Qed.

End ReachPrefix.

Lemma build_tree_trail routes metadata current_path t (top rest : list string) :
  current_path <> "/" ->
  rev (ancestor_chain current_path) = top ++ rest ->
  (forall u, In u top -> is_registered routes u = true) ->
  build_tree routes metadata current_path = Returns (Some t) ->
  forall u, In u top -> exists n, In n (descendants t) /\ url n = u.
Proof.
  intros Hne Hsplit Hall Hb.
  destruct (existsb is_breadcrumb_route routes) eqn:E;
    [| rewrite build_tree_empty in Hb by assumption; discriminate].
  destruct (build_tree_main routes metadata current_path E Hne)
    as (i & _ & Heq).
  rewrite Heq in Hb. injection Hb as <-.
  assert (Hp : path_from_root routes metadata current_path
               = top ++ filter (smem (items_of routes metadata current_path))
                               rest).
  { unfold path_from_root. rewrite <- filter_rev, Hsplit, filter_app.
    f_equal. apply filter_all.
    intros u Hu. rewrite items_of_mem, (Hall u Hu). reflexivity. }
  rewrite Hp.
  destruct (rev_ancestors_linked (String.length current_path + 2)
              current_path (Nat.le_refl _)) as [Hl Hlast].
  fold (ancestor_chain current_path) in Hl, Hlast.
  assert (Hin : forall p, In p top -> In p (ancestor_chain current_path)).
  { intros p Hp'. rewrite in_rev, Hsplit. apply in_or_app. now left. }
  apply (assemble_reaches_prefix routes metadata current_path Hne top _ _ "/").
  - reflexivity.
  - rewrite Hsplit in Hl. now apply linked_from_app in Hl.
  - intros p Hp'. split; [| split].
    + rewrite items_of_mem, (Hall p Hp'). reflexivity.
    + apply Hin in Hp'. now apply ancestors_not_root in Hp'.
    + apply _is_child_of_shorter; [exact Hne |].
      apply Hin, ancestors_length in Hp'. lia.
  - intros p Hp'.
    pose proof (ancestors_NoDup (String.length current_path + 2) current_path)
      as Hnd.
    fold (ancestor_chain current_path) in Hnd.
    unfold ancestor_chain in Hnd, Hsplit.
    rewrite Nat.add_comm in Hnd, Hsplit. cbn [Nat.add ancestors] in Hnd, Hsplit.
    destruct (String.eqb_spec current_path "/"); [contradiction |].
    cbn [rev] in Hsplit. inversion Hnd as [|? ? Hnotin _]; subst.
    intros ->. apply Hnotin. rewrite in_rev.
    destruct rest as [|y rest0].
    + rewrite app_nil_r in Hsplit.
      rewrite <- Hsplit, removelast_last in Hp'. contradiction Hnotin.
      now rewrite in_rev.
    + destruct (exists_last (l := y :: rest0)) as (rest' & x & Hrest);
        [discriminate|].
      rewrite Hrest, app_assoc in Hsplit.
      apply app_inj_tail in Hsplit as [Hsplit _].
      rewrite Hsplit. apply in_or_app. left. now apply removelast_In.
Qed.

Lemma is_registered_filter (routes : list route) (u : string) :
  is_registered routes u = true ->
  In u (map route_url (filter is_breadcrumb_route routes)).
Proof.
  unfold is_registered. rewrite existsb_exists.
  intros (r & Hin & H). apply andb_prop in H as [Hb Hu].
  apply String.eqb_eq in Hu. apply in_map_iff. exists r.
  split; [assumption|]. now apply filter_In.
Qed.

Lemma build_tree_size routes metadata current_path t :
  build_tree routes metadata current_path = Returns (Some t) ->
  List.length (nodes t) <= S (List.length (filter is_breadcrumb_route routes)).
Proof.
  intros Hb. pose proof (build_tree_NoDup _ _ _ _ Hb) as Hnd.
  rewrite nodes_eq in *. cbn [map List.length] in *.
  inversion Hnd as [|? ? _ Hnd']; subst.
  apply le_n_S.
  rewrite <- (length_map url),
          <- (length_map route_url (filter is_breadcrumb_route routes)).
  apply NoDup_incl_length; [assumption|].
  intros u Hu. apply in_map_iff in Hu as (n & <- & Hn).
  apply is_registered_filter.
  now apply (build_tree_registered _ _ _ _ _ Hb Hn).
Qed.

Lemma _get_routes_cache (self : Breadcrumb) (current_app : Flask) :
  _routes_cache (snd (_get_routes self current_app))
  = Some (catalog self current_app)
  /\ breadcrumb_metadata (snd (_get_routes self current_app))
     = breadcrumb_metadata self.
Proof.
  unfold catalog, _get_routes.
  destruct (_routes_cache self) eqn:E; cbn; auto.
Qed.

Lemma _build_breadcrumb_tree_snd self current_app current_path :
  snd (_build_breadcrumb_tree self current_app current_path)
  = snd (_get_routes self current_app).
Proof.
  unfold _build_breadcrumb_tree.
  now destruct (_get_routes self current_app).
Qed.

Lemma catalog_cached (self : Breadcrumb) (current_app : Flask)
    (routes : list route) :
  _routes_cache self = Some routes -> catalog self current_app = routes.
Proof. intros H. unfold catalog, _get_routes. now rewrite H. Qed.

(** X15.  Below the root there are only GET routes whose endpoint does not
    start with "static": each dictionary below the root has the url of such
    a route of the catalog, and none has the url "/". *)
Theorem X15_registered_routes_only (self : Breadcrumb) (current_app : Flask)
    (current_path : string) (t : node) :
  fst (_build_breadcrumb_tree self current_app current_path)
  = Returns (Some t) ->
  Forall (fun n =>
            url n <> "/"
            /\ exists endpoint methods,
                In (url n, endpoint, methods) (catalog self current_app)
                /\ In "GET" methods
                /\ PyStr.startswith endpoint "static" = false)
         (descendants t).
Proof.
  rewrite _build_breadcrumb_tree_eq. intros Hb.
  apply Forall_forall. intros n Hn.
  destruct (build_tree_registered _ _ _ _ _ Hb Hn) as [Hr Hne].
  split; [assumption | now apply is_registered_In].
Qed.

Lemma X15_registered_routes_only_witness :
  Forall (fun n =>
            url n <> "/"
            /\ exists endpoint methods,
                In (url n, endpoint, methods)
                   (catalog Breadcrumb_init
                      (app_of [view "/a" "a";
                               {| rule := "/b"; endpoint := "b";
                                  methods := ["POST"] |}]))
                /\ In "GET" methods
                /\ PyStr.startswith endpoint "static" = false)
         (descendants (Node "Home" "/" 0 false [Node "A" "/a" 0 true []])).
Proof.
  apply (X15_registered_routes_only Breadcrumb_init
           (app_of [view "/a" "a";
                    {| rule := "/b"; endpoint := "b"; methods := ["POST"] |}])
           "/a").
  vm_compute. reflexivity.
Defined.

(** X16.  No url occurs twice in the tree, the root included, and the tree
    has at most one dictionary per route that gets a breadcrumb item, plus
    the root. *)
Theorem X16_urls_unique (self : Breadcrumb) (current_app : Flask)
    (current_path : string) (t : node) :
  fst (_build_breadcrumb_tree self current_app current_path)
  = Returns (Some t) ->
  NoDup (map url (nodes t))
  /\ List.length (nodes t)
     <= S (List.length (filter is_breadcrumb_route
                               (catalog self current_app))).
Proof.
  rewrite _build_breadcrumb_tree_eq. intros Hb.
  split; [now apply build_tree_NoDup in Hb | now apply build_tree_size in Hb].
Qed.

Lemma X16_urls_unique_witness :
  NoDup (map url (nodes (Node "Home" "/" 0 false [Node "A" "/a" 0 true []])))
  /\ List.length (nodes (Node "Home" "/" 0 false [Node "A" "/a" 0 true []]))
     <= S (List.length
             (filter is_breadcrumb_route
                (catalog Breadcrumb_init
                   (app_of [view "/a" "first"; view "/a/" "second"])))).
Proof.
  apply (X16_urls_unique Breadcrumb_init
           (app_of [view "/a" "first"; view "/a/" "second"]) "/a").
  vm_compute. reflexivity.
Defined.

(** X17.  The edges of the tree are parent edges: the url of every child
    has the url of its dictionary as [_get_parent_url]; so every dictionary
    below the root hangs under the dictionary of its parent url, and that
    parent url is "/" or registered. A page whose parent level is not
    registered is in no tree. *)
Theorem X17_tree_edges (self : Breadcrumb) (current_app : Flask)
    (current_path : string) (t : node) :
  fst (_build_breadcrumb_tree self current_app current_path)
  = Returns (Some t) ->
  Forall (fun n =>
            Forall (fun c => _get_parent_url (url c) = url n) (children n))
         (nodes t)
  /\ Forall (fun n =>
               (exists m, In m (nodes t) /\ In n (children m)
                          /\ url m = _get_parent_url (url n))
               /\ (_get_parent_url (url n) = "/"
                   \/ is_registered (catalog self current_app)
                                    (_get_parent_url (url n)) = true))
            (descendants t).
Proof.
  rewrite _build_breadcrumb_tree_eq. intros Hb.
  pose proof (build_tree_edges _ _ _ _ Hb) as He.
  split; [exact He|].
  apply Forall_forall. intros n Hn.
  destruct (descendants_parent _ _ Hn) as (m & Hm & Hc).
  rewrite Forall_forall in He. pose proof (He _ Hm) as Hem.
  unfold edges_ok in Hem. rewrite Forall_forall in Hem.
  rewrite (Hem _ Hc). split; [eauto|].
  rewrite nodes_eq in Hm. destruct Hm as [<-|Hm].
  - left. now apply build_tree_root_url in Hb.
  - right. now apply (build_tree_registered _ _ _ _ _ Hb Hm).
Qed.

Lemma X17_tree_edges_witness :
  Forall (fun n =>
            Forall (fun c => _get_parent_url (url c) = url n) (children n))
         (nodes (Node "Home" "/" 0 false [Node "A" "/a" 0 false []]))
  /\ Forall (fun n =>
               (exists m,
                   In m (nodes (Node "Home" "/" 0 false
                                  [Node "A" "/a" 0 false []]))
                   /\ In n (children m)
                   /\ url m = _get_parent_url (url n))
               /\ (_get_parent_url (url n) = "/"
                   \/ is_registered
                        (catalog Breadcrumb_init
                           (app_of [view "/" "index"; view "/a" "a";
                                    view "/a/b/c" "c"]))
                        (_get_parent_url (url n)) = true))
            (descendants (Node "Home" "/" 0 false [Node "A" "/a" 0 false []])).
Proof.
  apply (X17_tree_edges Breadcrumb_init
           (app_of [view "/" "index"; view "/a" "a"; view "/a/b/c" "c"])
           "/a/b/c").
  vm_compute. reflexivity.
Defined.

(** X18.  Only the way down to the current page is opened: a dictionary
    with children is not the current page, and it is the root or a
    registered syntactic ancestor of the current path. *)
Theorem X18_tree_spine (self : Breadcrumb) (current_app : Flask)
    (current_path : string) (t : node) :
  fst (_build_breadcrumb_tree self current_app current_path)
  = Returns (Some t) ->
  Forall (fun n =>
            children n <> [] ->
            url n <> current_path
            /\ (url n = "/"
                \/ (In (url n) (ancestor_chain current_path)
                    /\ is_registered (catalog self current_app) (url n)
                       = true)))
         (nodes t).
Proof.
  rewrite _build_breadcrumb_tree_eq. intros Hb.
  destruct (String.eqb_spec current_path "/") as [->|Hcp].
  - destruct (build_tree_root_only _ _ _ Hb) as [Hu Hc].
    rewrite nodes_eq. unfold descendants. rewrite Hc. cbn.
    constructor; [|constructor]. intros H. now contradiction H.
  - destruct (build_tree_spine _ _ _ _ Hcp Hb) as [_ Hs].
    rewrite nodes_eq. constructor.
    + intros _. rewrite (build_tree_root_url _ _ _ _ Hb).
      split; [congruence | now left].
    + apply Forall_forall. intros n Hn.
      rewrite Forall_forall in Hs.
      destruct (Hs _ Hn) as [Hnil|(Hin & Hne & _)];
        [intros H; now contradiction H|].
      intros _. split; [assumption|]. right.
      unfold path_from_root in Hin. rewrite <- in_rev in Hin.
      apply filter_In in Hin as [Hin _]. split; [assumption|].
      now apply (build_tree_registered _ _ _ _ _ Hb Hn).
Qed.

Lemma X18_tree_spine_witness :
  Forall (fun n =>
            children n <> [] ->
            url n <> "/a/b"
            /\ (url n = "/"
                \/ (In (url n) (ancestor_chain "/a/b")
                    /\ is_registered
                         (catalog Breadcrumb_init
                            (app_of [view "/a" "a"; view "/a/b" "b";
                                     view "/a/b/c" "c"; view "/d" "d";
                                     view "/d/e" "e"]))
                         (url n) = true)))
         (nodes (Node "Home" "/" 0 false
                   [Node "A" "/a" 0 false [Node "B" "/a/b" 0 true []];
                    Node "D" "/d" 0 false []])).
Proof.
  apply (X18_tree_spine Breadcrumb_init
           (app_of [view "/a" "a"; view "/a/b" "b"; view "/a/b/c" "c";
                    view "/d" "d"; view "/d/e" "e"])
           "/a/b").
  vm_compute. reflexivity.
Defined.

(** X19.  Sibling inclusion: for a current path other than "/", the
    children of the root, and of every dictionary that has children, are
    exactly the registered urls with that dictionary's url as parent that
    are not below the current path. *)
Theorem X19_sibling_groups (self : Breadcrumb) (current_app : Flask)
    (current_path : string) (t : node) :
  current_path <> "/" ->
  fst (_build_breadcrumb_tree self current_app current_path)
  = Returns (Some t) ->
  Forall (fun n =>
            url n = "/" \/ children n <> [] ->
            forall u,
              In u (map url (children n))
              <-> is_registered (catalog self current_app) u = true
                  /\ u <> "/"
                  /\ _get_parent_url u = url n
                  /\ _is_child_of u current_path = false)
         (nodes t).
Proof.
  rewrite _build_breadcrumb_tree_eq. intros Hcp Hb.
  destruct (build_tree_spine _ _ _ _ Hcp Hb) as [Hroot Hs].
  rewrite nodes_eq. constructor.
  - intros _ u. rewrite Hroot, (build_tree_root_url _ _ _ _ Hb).
    now apply group_urls_iff.
  - apply Forall_forall. intros n Hn.
    rewrite Forall_forall in Hs.
    destruct (build_tree_registered _ _ _ _ _ Hb Hn) as [_ Hnr].
    intros [H|H]; [contradiction|].
    destruct (Hs _ Hn) as [Hnil|(_ & _ & Hg)]; [contradiction|].
    intros u. rewrite Hg. now apply group_urls_iff.
Qed.

Lemma X19_sibling_groups_witness :
  Forall (fun n =>
            url n = "/" \/ children n <> [] ->
            forall u,
              In u (map url (children n))
              <-> is_registered
                    (catalog Breadcrumb_init
                       (app_of [view "/a" "a"; view "/a/b" "b";
                                view "/a/c" "c"; view "/d" "d"]))
                    u = true
                  /\ u <> "/"
                  /\ _get_parent_url u = url n
                  /\ _is_child_of u "/a/b" = false)
         (nodes (Node "Home" "/" 0 false
                   [Node "A" "/a" 0 false
                      [Node "B" "/a/b" 0 true []; Node "C" "/a/c" 0 false []];
                    Node "D" "/d" 0 false []])).
Proof.
  apply (X19_sibling_groups Breadcrumb_init
           (app_of [view "/a" "a"; view "/a/b" "b"; view "/a/c" "c";
                    view "/d" "d"])
           "/a/b").
  - discriminate.
  - vm_compute. reflexivity.
Defined.

(** X20.  The trail: the tree has a dictionary for every syntactic ancestor
    of the current path, from the top down, as far as they are all
    registered; when the whole chain is registered, it has one for every
    ancestor and for the current path. *)
Theorem X20_trail (self : Breadcrumb) (current_app : Flask)
    (current_path : string) (t : node) (top rest : list string) :
  current_path <> "/" ->
  rev (ancestor_chain current_path) = top ++ rest ->
  Forall (fun u => is_registered (catalog self current_app) u = true) top ->
  fst (_build_breadcrumb_tree self current_app current_path)
  = Returns (Some t) ->
  Forall (fun u => exists n, In n (descendants t) /\ url n = u) top.
Proof.
  rewrite _build_breadcrumb_tree_eq. intros Hcp Hsplit Hreg Hb.
  rewrite Forall_forall in Hreg. apply Forall_forall.
  now apply (build_tree_trail _ _ _ _ top rest Hcp Hsplit Hreg Hb).
Qed.

Lemma X20_trail_witness :
  Forall (fun u =>
            exists n,
              In n (descendants
                      (Node "Home" "/" 0 false
                         [Node "A" "/a" 0 false [Node "B" "/a/b" 0 false []]]))
              /\ url n = u)
         ["/a"; "/a/b"].
Proof.
  apply (X20_trail Breadcrumb_init
           (app_of [view "/a" "a"; view "/a/b" "b"; view "/a/b/c/d" "d"])
           "/a/b/c/d"
           (Node "Home" "/" 0 false
              [Node "A" "/a" 0 false [Node "B" "/a/b" 0 false []]])
           ["/a"; "/a/b"] ["/a/b/c"; "/a/b/c/d"]).
  - discriminate.
  - vm_compute. reflexivity.
  - repeat constructor.
  - vm_compute. reflexivity.
Defined.

(** X21.  The route catalog is computed once: after a call the cache holds
    the catalog the call used, later calls build from it whatever the
    routing table then is, the metadata are untouched, and a cache of
    canonical urls stays one. *)
Theorem X21_routes_cached_once (self : Breadcrumb) (current_app : Flask)
    (current_path : string) :
  _routes_cache (snd (_build_breadcrumb_tree self current_app current_path))
  = Some (catalog self current_app)
  /\ breadcrumb_metadata
       (snd (_build_breadcrumb_tree self current_app current_path))
     = breadcrumb_metadata self
  /\ (forall later_app later_path,
         _build_breadcrumb_tree
           (snd (_build_breadcrumb_tree self current_app current_path))
           later_app later_path
         = (build_tree (catalog self current_app) (breadcrumb_metadata self)
                       later_path,
            snd (_build_breadcrumb_tree self current_app current_path)))
  /\ (cache_ok self ->
      cache_ok (snd (_build_breadcrumb_tree self current_app current_path))).
Proof.
  rewrite _build_breadcrumb_tree_snd.
  destruct (_get_routes_cache self current_app) as [Hc Hm].
  split; [assumption|]. split; [assumption|]. split.
  - intros later_app later_path. unfold _build_breadcrumb_tree at 1.
    unfold _get_routes at 1. rewrite Hc, Hm. reflexivity.
  - intros Hok routes Hr. rewrite Hc in Hr. injection Hr as <-.
    now apply catalog_canonical.
Qed.

(** X22.  The module-level functions go through the extension stored in the
    application: what [breadcrumb(text, order, max_depth)(f)] stores is
    what [breadcrumb_tree()] builds from, and without the extension
    [breadcrumb_tree()] is the empty dictionary and changes nothing. *)
Theorem X22_module_level {A R : Type} (current_app : Flask)
    (new_text : label) (new_order max_depth : option Z)
    (f : view_function A R) (request_path : string) :
  (forall exts extension,
      extensions current_app = Some exts ->
      sget exts "breadcrumb" = Some extension ->
      fst (breadcrumb_tree
             (fst (breadcrumb current_app new_text new_order max_depth f))
             request_path)
      = build_tree (catalog extension current_app)
                   (sset (breadcrumb_metadata extension) (__name__ f)
                         {| md_text := new_text; md_order := new_order;
                            md_max_depth := max_depth |})
                   (request_current_path request_path)
      /\ fst (breadcrumb_tree current_app request_path)
         = build_tree (catalog extension current_app)
                      (breadcrumb_metadata extension)
                      (request_current_path request_path))
  /\ ((extensions current_app = None
       \/ exists exts, extensions current_app = Some exts
                       /\ sget exts "breadcrumb" = None) ->
      breadcrumb_tree current_app request_path = (Returns None, current_app)).
Proof.
  split.
  - intros exts extension He Hx. split.
    + unfold breadcrumb. rewrite He, Hx.
      unfold Breadcrumb_call, breadcrumb_tree. cbn [fst extensions].
      rewrite (dict_get_set String.eqb String.eqb_spec), String.eqb_refl.
      unfold get_breadcrumb_tree.
      match goal with |- context [_build_breadcrumb_tree ?s ?a ?p] =>
        pose proof (_build_breadcrumb_tree_eq s a p) as Hb;
        destruct (_build_breadcrumb_tree s a p) as [tree ext'] end.
      cbn [fst] in *. rewrite Hb. cbn [breadcrumb_metadata].
      f_equal. unfold catalog, _get_routes. cbn.
      now destruct (_routes_cache extension).
    + unfold breadcrumb_tree. rewrite He, Hx. unfold get_breadcrumb_tree.
      match goal with |- context [_build_breadcrumb_tree ?s ?a ?p] =>
        pose proof (_build_breadcrumb_tree_eq s a p) as Hb;
        destruct (_build_breadcrumb_tree s a p) as [tree ext'] end.
      exact Hb.
  - intros [He|(exts & He & Hx)]; unfold breadcrumb_tree; rewrite He;
      [reflexivity | now rewrite Hx].
Qed.

(* ================================================================= *)
(** ** The order of registration *)

Lemma string_leb_antisym (s t : string) :
  String.leb s t = true -> String.leb t s = true -> s = t.
Proof.
  unfold String.leb. rewrite (String.compare_antisym t s).
  destruct (String.compare s t) eqn:E; simpl; try discriminate.
  intros _ _. now apply String.compare_eq_iff.
Qed.

Lemma key_le_antisym (a b : Z * string) :
  key_le_prop a b -> key_le_prop b a -> a = b.
Proof.
  destruct a as [o1 u1], b as [o2 u2]. rewrite !key_le_iff.
  intros [H1|[H1 L1]] [H2|[H2 L2]]; try lia.
  subst. f_equal. now apply string_leb_antisym.
Qed.

Lemma NoDup_map_inj_in {A B : Type} (f : A -> B) (l : list A) :
  NoDup (map f l) ->
  forall x y, In x l -> In y l -> f x = f y -> x = y.
Proof.
  induction l as [|a l IH]; intros Hnd x y Hx Hy E; [contradiction|].
  cbn [map] in Hnd. inversion Hnd as [|? ? Hnin Hnd']; subst.
  destruct Hx as [<-|Hx], Hy as [<-|Hy].
  - reflexivity.
  - exfalso. apply Hnin. rewrite E. now apply in_map.
  - exfalso. apply Hnin. rewrite <- E. now apply in_map.
  - now apply IH.
Qed.

Lemma Permutation_filter {A : Type} (f : A -> bool) (l l' : list A) :
  Permutation l l' -> Permutation (filter f l) (filter f l').
Proof.
  induction 1 as [|x l l' _ IH|x y l|l l' l'' _ IH1 _ IH2]; cbn [filter].
  - constructor.
  - destruct (f x); [now constructor | assumption].
  - destruct (f x), (f y); try apply Permutation_refl. apply perm_swap.
  - now transitivity (filter f l').
Qed.

Lemma existsb_perm {A : Type} (f : A -> bool) (l l' : list A) :
  Permutation l l' -> existsb f l = existsb f l'.
Proof.
  induction 1 as [|x l l' _ IH|x y l|l l' l'' _ IH1 _ IH2]; cbn [existsb].
  - reflexivity.
  - now rewrite IH.
  - now destruct (f x), (f y).
  - now rewrite IH1.
Qed.

Section SortUnique.
Context {A : Type}.
Variable key : A -> Z * string.

Lemma sorted_perm_eq (l : list A) : forall l',
    (forall x y, In x l -> In y l -> key x = key y -> x = y) ->
    sorted_keys (map key l) -> sorted_keys (map key l') ->
    Permutation l l' -> l = l'.
Proof.
  induction l as [|x xs IH]; intros l' Hinj Hs Hs' Hp.
  - apply Permutation_nil in Hp. now subst.
  - destruct l' as [|y ys];
      [apply Permutation_sym, Permutation_nil in Hp; discriminate|].
    cbn [map] in Hs, Hs'.
    apply StronglySorted_inv in Hs as [Hs Hx].
    apply StronglySorted_inv in Hs' as [Hs' Hy].
    rewrite Forall_forall in Hx, Hy.
    assert (E : x = y).
    { assert (Hyin : In y (x :: xs))
        by (apply (Permutation_in _ (Permutation_sym Hp)); now left).
      assert (Hxin : In x (y :: ys))
        by (apply (Permutation_in _ Hp); now left).
      destruct Hyin as [E|Hyin]; [assumption|].
      destruct Hxin as [E|Hxin]; [now symmetry|].
      apply Hinj; [now left | now right |].
      apply key_le_antisym.
      - apply Hx. now apply in_map.
      - apply Hy. now apply in_map. }
    subst y. f_equal. apply IH; try assumption.
    + intros a b Ha Hb. apply Hinj; now right.
    + now apply Permutation_cons_inv in Hp.
Qed.

Lemma sort_by_perm_eq (l l' : list A) :
  (forall x y, In x l -> In y l -> key x = key y -> x = y) ->
  Permutation l l' -> sort_by key l = sort_by key l'.
Proof.
  intros Hinj Hp. apply sorted_perm_eq.
  - intros x y Hx Hy. apply sort_by_In in Hx, Hy. now apply Hinj.
  - apply sort_by_sorted.
  - apply sort_by_sorted.
  - rewrite (sort_by_perm key l), (sort_by_perm key l'). exact Hp.
Qed.

End SortUnique.

Lemma is_registered_perm (routes routes' : list route) (u : string) :
  Permutation routes routes' ->
  is_registered routes u = is_registered routes' u.
Proof. apply existsb_perm. Qed.

Lemma last_route_perm (routes routes' : list route) (u : string) :
  Permutation routes routes' ->
  NoDup (map route_url (filter is_breadcrumb_route routes)) ->
  last_route routes u = last_route routes' u.
Proof.
  intros Hp Hnd. unfold last_route.
  destruct (find _ (rev routes)) as [r|] eqn:E1;
    destruct (find _ (rev routes')) as [r'|] eqn:E2; [| | |reflexivity].
  - apply find_some in E1 as [Hin Hr], E2 as [Hin' Hr'].
    rewrite <- in_rev in Hin, Hin'.
    apply (Permutation_in _ (Permutation_sym Hp)) in Hin'.
    apply andb_prop in Hr as [Hb Hu], Hr' as [Hb' Hu'].
    apply String.eqb_eq in Hu, Hu'.
    f_equal. apply (NoDup_map_inj_in _ _ Hnd).
    + now apply filter_In.
    + now apply filter_In.
    + congruence.
  - apply find_some in E1 as [Hin Hr]. rewrite <- in_rev in Hin.
    apply (Permutation_in _ Hp) in Hin. rewrite in_rev in Hin.
    pose proof (find_none _ _ E2 _ Hin) as Hn. cbn beta in Hn.
    rewrite Hr in Hn. discriminate.
  - apply find_some in E2 as [Hin Hr]. rewrite <- in_rev in Hin.
    apply (Permutation_in _ (Permutation_sym Hp)) in Hin.
    rewrite in_rev in Hin.
    pose proof (find_none _ _ E1 _ Hin) as Hn. cbn beta in Hn.
    rewrite Hr in Hn. discriminate.
Qed.

Lemma items_of_lookup routes metadata current_path (u : string) :
  sget (items_of routes metadata current_path) u
  = match last_route routes u with
    | Some r => Some (item_of_route metadata current_path r)
    | None =>
        if u =? "/"
        then Some (BreadcrumbItem_init (Static "Home") "/" (Some 0%Z)
                                       (current_path =? "/"))
        else None
    end.
Proof.
  assert (Hm : forall v,
             sget (fst (materialize routes metadata current_path)) v
             = match last_route routes v with
               | Some r => Some (item_of_route metadata current_path r)
               | None => None
               end).
  { intros v. unfold materialize. now rewrite fold_materialize_get. }
  unfold items_of, ensure_root.
  destruct (materialize routes metadata current_path) as [breadcrumb_items m].
  cbn [fst] in Hm. unfold dict_mem. rewrite (Hm "/").
  destruct (last_route routes "/") as [r0|] eqn:E0; cbn [fst].
  - rewrite Hm. destruct (last_route routes u) eqn:Eu; [reflexivity|].
    destruct (String.eqb_spec u "/") as [->|_]; [congruence | reflexivity].
  - rewrite (dict_get_set String.eqb String.eqb_spec), Hm.
    rewrite (String.eqb_sym u "/").
    destruct (String.eqb_spec "/" u) as [<-|_]; [now rewrite E0|].
    reflexivity.
Qed.

Lemma groups_of_closed routes metadata current_path (k : string) :
  sget (groups_of routes metadata current_path) k
  = match filter (kept_in_group current_path k)
                 (items_of routes metadata current_path) with
    | [] => None
    | ms => Some (sort_by node_key (map (group_dict current_path) ms))
    end.
Proof.
  rewrite groups_of_get. unfold group_members.
  rewrite (filter_ext_in _ (kept_in_group current_path k)).
  2:{ intros e He. unfold group_keeps, kept_in_group.
      rewrite child_relationships_key; [reflexivity|].
      unfold dict_keys. now apply in_map. }
  match goal with |- context [filter ?f ?l] =>
    pose proof (fun e => proj1 (filter_In f e l)) as Hin;
    destruct (filter f l) as [|m ms] end; [reflexivity|].
  do 2 f_equal. apply map_ext_in. intros e He.
  apply Hin in He as [He _]. unfold group_node, group_dict. f_equal.
  apply current_map_get.
  apply (dict_mem_In String.eqb String.eqb_spec).
  unfold dict_keys. now apply in_map.
Qed.

Lemma assemble_ext (G G' : dict string (list node)) (current_path : string)
    (paths : list string) :
  (forall k, sget G k = sget G' k) ->
  forall lvl,
    assemble G current_path paths lvl = assemble G' current_path paths lvl.
Proof.
  intros H. induction paths as [|p paths IH]; intros lvl; [reflexivity|].
  rewrite !assemble_cons. unfold attach. rewrite H.
  destruct (find_child p (children lvl)) as [[[b c] a]|]; [|apply IH].
  now rewrite IH.
Qed.

Section Reordered.
Variables routes routes' : list route.
Variable metadata : dict string metadata_entry.
Variable current_path : string.

Hypothesis reordered : Permutation routes routes'.

Hypothesis distinct_urls :
  NoDup (map route_url (filter is_breadcrumb_route routes)).

Lemma items_of_get_perm (u : string) :
  sget (items_of routes metadata current_path) u
  = sget (items_of routes' metadata current_path) u.
Proof.
  rewrite !items_of_lookup.
  now rewrite (last_route_perm routes routes' u reordered distinct_urls).
Qed.

Lemma items_of_perm :
  Permutation (items_of routes metadata current_path)
              (items_of routes' metadata current_path).
Proof.
  pose proof (ok_nodup _ _ (items_of_ok routes metadata current_path)) as Hn.
  pose proof (ok_nodup _ _ (items_of_ok routes' metadata current_path)) as Hn'.
  fold (items_of routes metadata current_path) in Hn.
  fold (items_of routes' metadata current_path) in Hn'.
  apply NoDup_Permutation.
  - now apply (NoDup_map_inv fst).
  - now apply (NoDup_map_inv fst).
  - intros [u i]. split; intros Hin.
    + apply (dict_get_NoDup String.eqb String.eqb_spec _ _ _ Hn) in Hin.
      rewrite items_of_get_perm in Hin.
      apply (dict_get_In String.eqb String.eqb_spec) in Hin
        as (k0 & -> & Hin). exact Hin.
    + apply (dict_get_NoDup String.eqb String.eqb_spec _ _ _ Hn') in Hin.
      rewrite <- items_of_get_perm in Hin.
      apply (dict_get_In String.eqb String.eqb_spec) in Hin
        as (k0 & -> & Hin). exact Hin.
Qed.

Lemma groups_of_perm (k : string) :
  sget (groups_of routes metadata current_path) k
  = sget (groups_of routes' metadata current_path) k.
Proof.
  rewrite !groups_of_closed.
  pose proof (Permutation_filter (kept_in_group current_path k) _ _
                items_of_perm) as Hp.
  pose proof (ok_nodup _ _ (items_of_ok routes metadata current_path)) as Hn.
  fold (items_of routes metadata current_path) in Hn.
  match type of Hp with Permutation (filter ?f ?l) _ =>
    pose proof (fun e => proj1 (filter_In f e l)) as Hin end.
  destruct (filter (kept_in_group current_path k)
                   (items_of routes metadata current_path)) as [|m ms];
    destruct (filter (kept_in_group current_path k)
                     (items_of routes' metadata current_path)) as [|m' ms'].
  - reflexivity.
  - apply Permutation_nil in Hp. discriminate.
  - apply Permutation_sym, Permutation_nil in Hp. discriminate.
  - f_equal. apply sort_by_perm_eq; [|now apply Permutation_map].
    intros x y Hx Hy E.
    apply in_map_iff in Hx as (e1 & <- & H1).
    apply in_map_iff in Hy as (e2 & <- & H2).
    apply Hin in H1 as [H1 _]. apply Hin in H2 as [H2 _].
    injection E as _ E.
    now rewrite (NoDup_map_inj_in fst _ Hn e1 e2 H1 H2 E).
Qed.

Lemma path_from_root_perm :
  path_from_root routes metadata current_path
  = path_from_root routes' metadata current_path.
Proof.
  unfold path_from_root. f_equal. apply filter_ext. intros u.
  rewrite !items_of_mem. now rewrite (is_registered_perm _ _ u reordered).
Qed.

End Reordered.

Lemma build_tree_perm (routes routes' : list route)
    (metadata : dict string metadata_entry) (current_path : string) :
  Permutation routes routes' ->
  NoDup (map route_url (filter is_breadcrumb_route routes)) ->
  build_tree routes metadata current_path
  = build_tree routes' metadata current_path.
Proof.
  intros reordered distinct_urls.
  pose proof (fun cp => items_of_get_perm routes routes' metadata cp
                          reordered distinct_urls) as Hitems.
  destruct (existsb is_breadcrumb_route routes) eqn:E.
  - pose proof E as E'. rewrite (existsb_perm _ _ _ reordered) in E'.
    destruct (String.eqb_spec current_path "/") as [->|Hcp].
    + destruct (build_tree_root routes metadata E) as (i & Hi & ->).
      destruct (build_tree_root routes' metadata E') as (i' & Hi' & ->).
      rewrite Hitems, Hi' in Hi. now injection Hi as <-.
    + destruct (build_tree_main routes metadata current_path E Hcp)
        as (i & Hi & ->).
      destruct (build_tree_main routes' metadata current_path E' Hcp)
        as (i' & Hi' & ->).
      rewrite Hitems, Hi' in Hi. injection Hi as <-.
      rewrite (path_from_root_perm routes routes' metadata current_path
                 reordered).
      rewrite (assemble_ext _ _ _ _
                 (groups_of_perm routes routes' metadata current_path
                    reordered distinct_urls)).
      do 3 f_equal. f_equal.
      * rewrite !current_map_get; [reflexivity | |];
          rewrite items_of_mem; now rewrite orb_true_r.
      * unfold dict_get_default.
        now rewrite (groups_of_perm routes routes' metadata current_path
                       reordered distinct_urls).
  - pose proof E as E'. rewrite (existsb_perm _ _ _ reordered) in E'.
    now rewrite !build_tree_empty.
Qed.

(** X23.  The order in which the routes were registered does not matter as
    long as no two routes that get a breadcrumb item have the same catalog
    url: two routing tables with the same rules in a different order give
    the same tree. *)
Theorem X23_registration_order (metadata : dict string metadata_entry)
    (current_app other_app : Flask) (current_path : string) :
  Permutation (url_map current_app) (url_map other_app) ->
  NoDup (map route_url
             (filter is_breadcrumb_route
                     (catalog {| breadcrumb_metadata := metadata;
                                 _routes_cache := None |} current_app))) ->
  fst (_build_breadcrumb_tree {| breadcrumb_metadata := metadata;
                                 _routes_cache := None |}
                              current_app current_path)
  = fst (_build_breadcrumb_tree {| breadcrumb_metadata := metadata;
                                   _routes_cache := None |}
                                other_app current_path).
Proof.
  intros Hp Hnd. rewrite !_build_breadcrumb_tree_eq.
  apply build_tree_perm; [|exact Hnd].
  unfold catalog, _get_routes. cbn. now apply Permutation_map.
Qed.

Lemma X23_registration_order_witness :
  fst (_build_breadcrumb_tree
         {| breadcrumb_metadata := []; _routes_cache := None |}
         (app_of [view "/b" "b"; view "/a" "a"; view "/a/c" "c"]) "/a")
  = fst (_build_breadcrumb_tree
           {| breadcrumb_metadata := []; _routes_cache := None |}
           (app_of [view "/a/c" "c"; view "/a" "a"; view "/b" "b"]) "/a").
Proof.
  apply X23_registration_order.
  - unfold app_of. cbn [url_map]. apply perm_skip.
    apply (Permutation_rev [view "/b" "b"; view "/a" "a"; view "/a/c" "c"]).
  - vm_compute. repeat constructor; cbn; intuition discriminate.
Defined.
